(** * RunAll product service: the seckill ingestion pipeline

    A shallow embedding of the Go sources of the product domain
    (packages [data], [biz], [service], [server] and [random]) together
    with the properties of the pipeline that were checked against them.

    Conventions of the embedding.
    - An [int64] is a [Z] kept in the signed 64-bit range by [wrap64];
      bit operations are [Z.land], [Z.lor] and [Z.shiftl].
    - Go code runs in the state monad [M] over a [World] that holds what
      the process can observe: the system clock, the product catalog, the
      [orders] table, the RabbitMQ channel and the Redis stream.
    - A Go [error] is its message; [nil] is [None].  A function that
      returns [(T, error)] returns a pair or a sum.
    - A [time.Time] is its reading in milliseconds since the Unix epoch;
      every [time.Now()] takes the next reading of the clock.
    - Calls to the logger and sleeps change nothing that is observed
      here and are left out.  The consume loop is run for a number of
      rounds, after which its context is cancelled.
    - The sources hold two generations of package [biz]: the order use
      case ([OrderUsecase], with [Order.InstanceID] an [int64]) and the
      instance use case ([InstanceUsecase], with a [*int64]); both are
      embedded, and both write table [orders].
    - The seckill repository runs against a [Redis] key space of its
      own, and the generator of package [random] carries its state
      explicitly; neither is part of the [World]. *)

From stdpp Require Import gmap strings list.
From Stdlib Require Import ZArith Lia.

Local Open Scope Z_scope.

(** ** Machine integers *)

(** Reduction of a mathematical integer to Go's [int64]. *)
Definition wrap64 (z : Z) : Z := (z + 2 ^ 63) mod 2 ^ 64 - 2 ^ 63.

(** [x << n] on [int64]. *)
Definition shl64 (x n : Z) : Z := wrap64 (Z.shiftl x n).

(** The numeric value of the byte [s[i]]. *)
Definition byte_of (c : Ascii.ascii) : Z := Z.of_N (Ascii.N_of_ascii c).

(** ** Errors *)

(** [errors.New(msg)]; the code only ever inspects [err.Error()]. *)
Inductive error := errors_New (msg : string).

Definition Error (e : error) : string := let 'errors_New m := e in m.

#[global] Instance error_eq_dec : EqDecision error.
Proof. solve_decision. Defined.

Definition ErrProductNotFound : error := errors_New "product not found".
Definition ErrProductDisabled : error := errors_New "product is disabled".
Definition ErrInvalidUserID : error := errors_New "invalid user id".

(** [strings.Contains]. *)
Fixpoint strings_Contains (s substr : string) : bool :=
  if String.prefix substr s then true
  else match s with
       | EmptyString => false
       | String _ rest => strings_Contains rest substr
       end.

(** ** Domain types of package [biz] *)

Record ProductSpec := {
  spec_ID : Z;
  spec_CPU : Z;
  spec_Memory : Z;
  spec_GPU : Z;
  spec_Image : string;
  spec_ConfigJSON : list Z;
  spec_CreatedAt : Z
}.

Record Product := {
  prod_ID : Z;
  prod_Name : string;
  prod_Description : string;
  prod_Status : string;
  prod_Price : Z;
  prod_SpecID : Z;
  prod_Spec : option ProductSpec;
  prod_CreatedAt : Z;
  prod_UpdatedAt : Z
}.

(** [biz.InstanceSpec], the argument of the publisher. *)
Record InstanceSpec := {
  is_InstanceID : Z;
  is_UserID : string;
  is_Name : string;
  is_CPU : Z;
  is_Memory : Z;
  is_GPU : Z;
  is_Image : string;
  is_ConfigJSON : list Z
}.

(** [biz.Order] of the order use case: [InstanceID] is a plain [int64],
    with 0 standing for "none". *)
Record Order := {
  o_ID : Z;
  o_UserID : string;
  o_ProductID : Z;
  o_ReqID : Z;
  o_Amount : Z;
  o_InstanceID : Z;
  o_Status : string;
  o_CreatedAt : Z;
  o_PaidAt : option Z;
  o_CompletedAt : option Z
}.

(** [biz.Order] of the instance use case: [InstanceID] is a [*int64]. *)
Record InstanceOrder := {
  io_OrderID : Z;
  io_UserID : string;
  io_ProductID : Z;
  io_ReqID : Z;
  io_Amount : Z;
  io_InstanceID : option Z;
  io_Status : string;
  io_CreatedAt : Z;
  io_PaidAt : option Z;
  io_CompletedAt : option Z
}.

(** ** Persistence and wire types *)

(** [data.orderPO], one row of table [orders]; [sql.NullInt64] and
    [sql.NullTime] are options. *)
Record orderPO := {
  po_OrderID : Z;
  po_ProductID : Z;
  po_Amount : Z;
  po_InstanceID : option Z;
  po_Status : string;
  po_CreatedAt : Z;
  po_PaidAt : option Z;
  po_CompletedAt : option Z;
  po_UserID : string;
  po_ReqID : Z
}.

(** [mq.InstanceSpec] and [mq.Event], the protobuf messages. *)
Record mq_InstanceSpec := {
  mq_Cpus : Z;
  mq_MemoryMb : Z;
  mq_Gpu : Z;
  mq_Image : string
}.

Record mq_Event := {
  ev_EventType : string;
  ev_InstanceId : Z;
  ev_Timestamp : Z;
  ev_UserId : string;
  ev_Name : string;
  ev_Spec : mq_InstanceSpec
}.

(** [amqp.Publishing] together with the exchange and routing key it was
    sent to. *)
Record Publishing := {
  pub_Exchange : string;
  pub_RoutingKey : string;
  pub_ContentType : string;
  pub_Body : list Z;
  pub_DeliveryMode : Z;
  pub_Timestamp : Z
}.

Definition amqp_Persistent : Z := 2.

(** [redis.XMessage]: the entry token and its field map. *)
Record XMessage := {
  msg_ID : string;
  msg_Values : gmap string string
}.

(** ** Libraries the code links against *)

(** The two library functions whose results the code only passes on:
    xxhash's [Sum64String] (a [uint64]) and [proto.Marshal]. *)
Class Externals := {
  xxhash_Sum64String : string -> Z;
  proto_Marshal : mq_Event -> error + list Z
}.

(** ** The world the process runs in *)

Record World := {
  clock : nat -> Z;
  tick : nat;
  catalog : Z -> error + Product;
  orders : list orderPO;
  mq_down : option error;
  mq_delivered : list Publishing;
  stream_new : list XMessage;
  pel : list string
}.

Definition M (A : Type) : Type := World -> A * World.

#[global] Instance M_ret : MRet M := fun A a w => (a, w).

#[global] Instance M_bind : MBind M := fun A B k c w =>
  let '(a, w') := c w in k a w'.

(** [time.Now().UnixMilli()]: the next reading of the clock. *)
Definition time_Now_UnixMilli : M Z := fun w =>
  (clock w (tick w),
   {| clock := clock w; tick := S (tick w); catalog := catalog w;
      orders := orders w; mq_down := mq_down w;
      mq_delivered := mq_delivered w; stream_new := stream_new w;
      pel := pel w |}).

Definition set_orders (os : list orderPO) : M unit := fun w =>
  (tt,
   {| clock := clock w; tick := tick w; catalog := catalog w;
      orders := os; mq_down := mq_down w;
      mq_delivered := mq_delivered w; stream_new := stream_new w;
      pel := pel w |}).

Definition set_delivered (ds : list Publishing) : M unit := fun w =>
  (tt,
   {| clock := clock w; tick := tick w; catalog := catalog w;
      orders := orders w; mq_down := mq_down w;
      mq_delivered := ds; stream_new := stream_new w;
      pel := pel w |}).

Definition set_stream (new : list XMessage) (pending : list string) : M unit :=
  fun w =>
  (tt,
   {| clock := clock w; tick := tick w; catalog := catalog w;
      orders := orders w; mq_down := mq_down w;
      mq_delivered := mq_delivered w; stream_new := new;
      pel := pending |}).

Definition get {A} (f : World -> A) : M A := fun w => (f w, w).

(** ** Package [data]: identifier generators *)

(** The epoch of both generators. *)
Definition EpochMsStart : Z := 1768665600000.

Section Generators.
Context `{Externals}.

(** [orderIDGenerator.Generate]:
    [0 (1 bit)] [timestamp (46 bits)] [uid_hash (15 bits)]. *)
Definition orderIDGenerator_Generate (userID : string) : M (Z * option error) :=
  nowMs ← time_Now_UnixMilli;
  let relativeTime := Z.land (wrap64 (nowMs - EpochMsStart)) 0x3FFFFFFFFFFF in
  let uidHash := wrap64 (Z.land (xxhash_Sum64String userID) 0x7FFF) in
  let orderID := Z.lor (shl64 relativeTime 15) uidHash in
  mret (orderID, None).

(** [RandomBit3]: the counter [p] is declared inside the function. *)
Definition RandomBit3 : M Z :=
  let p := 0 in
  let p := wrap64 (p + 1) in
  let n := wrap64 (p - 1) in
  mret (wrap64 (Z.land n 7)).

(** [instanceIDGenerator.Generate]. *)
Definition instanceIDGenerator_Generate (uuid : string) : M (Z * option error) :=
  nowMs ← time_Now_UnixMilli;
  let timeNow := shl64 (wrap64 (nowMs - EpochMsStart)) 3 in
  let uid := shl64 (wrap64 (Z.land (xxhash_Sum64String uuid) 0x7FFF)) 48 in
  random ← RandomBit3;
  let id := Z.lor (Z.lor uid timeNow) random in
  mret (id, None).

End Generators.

(** ** Package [data]: the order repository *)

(** Table [orders] as the persistence object declares it: primary key
    [order_id] and the unique index on [(product_id, req_id)].  An insert
    that breaks either one is refused with PostgreSQL's duplicate-key
    error (SQLSTATE 23505) and leaves the table as it was. *)
Definition pkey_violation : error :=
  errors_New "ERROR: duplicate key value violates unique constraint orders_pkey (SQLSTATE 23505)".

Definition unique_violation : error :=
  errors_New "ERROR: duplicate key value violates unique constraint uq_orders_product_req (SQLSTATE 23505)".

Definition same_pkey (po r : orderPO) : bool :=
  po_OrderID r =? po_OrderID po.

Definition same_product_req (po r : orderPO) : bool :=
  (po_ProductID r =? po_ProductID po) && (po_ReqID r =? po_ReqID po).

Definition db_Create (po : orderPO) : M (option error) :=
  rows ← get orders;
  if existsb (same_pkey po) rows then mret (Some pkey_violation)
  else if existsb (same_product_req po) rows then mret (Some unique_violation)
  else set_orders (rows ++ [po]);; mret None.

(** [gorm.ErrRecordNotFound]. *)
Definition ErrRecordNotFound : error := errors_New "record not found".

(** [orderRepo.Create]. *)
Definition orderRepo_Create (order : Order) : M (option error) :=
  let po := {|
    po_OrderID := o_ID order;
    po_UserID := o_UserID order;
    po_ProductID := o_ProductID order;
    po_ReqID := o_ReqID order;
    po_Amount := o_Amount order;
    po_Status := o_Status order;
    po_CreatedAt := o_CreatedAt order;
    po_InstanceID :=
      if o_InstanceID order =? 0 then None else Some (o_InstanceID order);
    po_PaidAt := o_PaidAt order;
    po_CompletedAt := o_CompletedAt order
  |} in
  err ← db_Create po;
  match err with
  | Some err => mret (Some err)
  | None => mret None
  end.

(** [orderRepo.GetByID]. *)
Definition orderRepo_GetByID (orderID : Z) : M (option Order * option error) :=
  rows ← get orders;
  match List.find (fun r => po_OrderID r =? orderID) rows with
  | None => mret (None, Some ErrRecordNotFound)
  | Some po =>
      let order := {|
        o_ID := po_OrderID po;
        o_UserID := po_UserID po;
        o_ProductID := po_ProductID po;
        o_ReqID := po_ReqID po;
        o_Amount := po_Amount po;
        o_Status := po_Status po;
        o_CreatedAt := po_CreatedAt po;
        o_InstanceID := default 0 (po_InstanceID po);
        o_PaidAt := po_PaidAt po;
        o_CompletedAt := po_CompletedAt po
      |} in
      mret (Some order, None)
  end.

(** Values of the [updates] map handed to GORM. *)
Inductive colval :=
  | ColString (s : string)
  | ColNullTime (t : Z) (valid : bool).

(** [Updates(updates)] on one row: the columns named in the map are
    overwritten, the others are kept. *)
Definition apply_updates (updates : gmap string colval) (r : orderPO) : orderPO :=
  {| po_OrderID := po_OrderID r;
     po_ProductID := po_ProductID r;
     po_Amount := po_Amount r;
     po_InstanceID := po_InstanceID r;
     po_Status :=
       match updates !! "status" with
       | Some (ColString s) => s
       | _ => po_Status r
       end;
     po_CreatedAt := po_CreatedAt r;
     po_PaidAt :=
       match updates !! "paid_at" with
       | Some (ColNullTime t valid) => if valid then Some t else None
       | _ => po_PaidAt r
       end;
     po_CompletedAt :=
       match updates !! "completed_at" with
       | Some (ColNullTime t valid) => if valid then Some t else None
       | _ => po_CompletedAt r
       end;
     po_UserID := po_UserID r;
     po_ReqID := po_ReqID r |}.

(** [Model(&orderPO{}).Where("order_id = ?", orderID).Updates(updates)]. *)
Definition db_Updates (orderID : Z) (updates : gmap string colval) : M (option error) :=
  rows ← get orders;
  set_orders
    (List.map (fun r => if po_OrderID r =? orderID then apply_updates updates r else r)
       rows);;
  mret None.

(** [orderRepo.UpdateStatus]. *)
Definition orderRepo_UpdateStatus (orderID : Z) (status : string) : M (option error) :=
  let updates : gmap string colval := {[ "status" := ColString status ]} in
  updates ← (if String.eqb status "PAID"
             then now ← time_Now_UnixMilli;
                  mret (<["paid_at" := ColNullTime now true]> updates)
             else mret updates);
  updates ← (if String.eqb status "COMPLETED"
             then now ← time_Now_UnixMilli;
                  mret (<["completed_at" := ColNullTime now true]> updates)
             else mret updates);
  err ← db_Updates orderID updates;
  match err with
  | Some err => mret (Some err)
  | None => mret None
  end.

(** [orderRepo.CreateOrder] of the instance use case. *)
Definition orderRepo_CreateOrder (order : InstanceOrder) : M (option error) :=
  let po := {|
    po_OrderID := io_OrderID order;
    po_UserID := io_UserID order;
    po_ProductID := io_ProductID order;
    po_ReqID := io_ReqID order;
    po_Amount := io_Amount order;
    po_Status := io_Status order;
    po_CreatedAt := io_CreatedAt order;
    po_InstanceID := io_InstanceID order;
    po_PaidAt := io_PaidAt order;
    po_CompletedAt := io_CompletedAt order
  |} in
  err ← db_Create po;
  match err with
  | Some err => mret (Some err)
  | None => mret None
  end.

(** ** Package [data]: the event publisher *)

Record conf_RabbitMQ := {
  rmq_Url : string;
  rmq_Exchange : string;
  rmq_Queue : string
}.

(** [*conf.Data], of which only the RabbitMQ part is read. *)
Record conf_Data := { Rabbitmq : option conf_RabbitMQ }.

(** What the broker answers to the calls made while the publisher is
    built: [amqp.Dial], [conn.Channel], [ExchangeDeclare], [QueueDeclare]
    and [QueueBind]. *)
Record BrokerStartup := {
  dial_err : option error;
  channel_err : option error;
  exchange_declare_err : option error;
  queue_declare_err : option error;
  queue_bind_err : option error
}.

(** The two implementations of [biz.MQPublisher]. *)
Inductive MQPublisher :=
  | mqPublisher (exchange : string)
  | noopMQPublisher.

(** [NewMQPublisher]; the cleanup closure is not modelled. *)
Definition NewMQPublisher (c : option conf_Data) (broker : BrokerStartup)
  : MQPublisher * option error :=
  match c ≫= Rabbitmq with
  | None => (noopMQPublisher, None)
  | Some rmq =>
    if String.eqb (rmq_Url rmq) "" then (noopMQPublisher, None) else
    match dial_err broker with
    | Some _ => (noopMQPublisher, None)
    | None =>
    match channel_err broker with
    | Some _ => (noopMQPublisher, None)
    | None =>
    match exchange_declare_err broker with
    | Some _ => (noopMQPublisher, None)
    | None =>
    match queue_declare_err broker with
    | Some _ => (noopMQPublisher, None)
    | None =>
    match queue_bind_err broker with
    | Some _ => (noopMQPublisher, None)
    | None => (mqPublisher (rmq_Exchange rmq), None)
    end end end end end
  end.

(** [channel.PublishWithContext]. *)
Definition channel_PublishWithContext (p : Publishing) : M (option error) :=
  down ← get mq_down;
  match down with
  | Some err => mret (Some err)
  | None => sent ← get mq_delivered; set_delivered (sent ++ [p]);; mret None
  end.

Section Publisher.
Context `{Externals}.

(** The [mq.Event] literal of [mqPublisher.PublishInstanceCreated]. *)
Definition instance_created_event (spec : InstanceSpec) (timestamp : Z) : mq_Event :=
  {| ev_EventType := "INSTANCE_CREATED";
     ev_InstanceId := is_InstanceID spec;
     ev_Timestamp := timestamp;
     ev_UserId := is_UserID spec;
     ev_Name := is_Name spec;
     ev_Spec := {| mq_Cpus := is_CPU spec;
                   mq_MemoryMb := is_Memory spec;
                   mq_Gpu := is_GPU spec;
                   mq_Image := is_Image spec |} |}.

(** [PublishInstanceCreated] of both implementations. *)
Definition PublishInstanceCreated (p : MQPublisher) (spec : InstanceSpec)
  : M (option error) :=
  match p with
  | noopMQPublisher => mret None
  | mqPublisher exchange =>
      timestamp ← time_Now_UnixMilli;
      let event := instance_created_event spec timestamp in
      match proto_Marshal event with
      | inl err => mret (Some err)
      | inr body =>
          now ← time_Now_UnixMilli;
          err ← channel_PublishWithContext
                  {| pub_Exchange := exchange;
                     pub_RoutingKey := "instance.created";
                     pub_ContentType := "application/octet-stream";
                     pub_Body := body;
                     pub_DeliveryMode := amqp_Persistent;
                     pub_Timestamp := now |};
          match err with
          | Some err => mret (Some err)
          | None => mret None
          end
      end
  end.

End Publisher.

(** ** Package [biz]: the use cases *)

(** The collaborators of [OrderUsecase], each an interface in the
    source. *)
Record OrderUsecase := {
  orderRepo_create : Order -> M (option error);
  orderRepo_getByID : Z -> M (option Order * option error);
  productRepo_GetByID : Z -> M (error + Product);
  mqPublisher_publish : InstanceSpec -> M (option error);
  orderIDGen : string -> M (Z * option error);
  instanceIDGen : string -> M (Z * option error)
}.

Definition ErrSpecNotFound : error := errors_New "product spec not found".

(** [OrderUsecase.CreateOrder]. *)
Definition CreateOrder (uc : OrderUsecase) (productID : Z) (userID : string)
    (reqID : Z) : M (Z * Z * option error) :=
  '(reqID, err) ← (if reqID =? 0 then orderIDGen uc userID
                   else mret (reqID, None));
  match err with
  | Some err => mret (0, 0, Some err)
  | None =>
  product ← productRepo_GetByID uc productID;
  match product with
  | inl err => mret (0, 0, Some err)
  | inr product =>
  if negb (String.eqb (prod_Status product) "ENABLED")
  then mret (0, 0, Some ErrProductDisabled)
  else
  match prod_Spec product with
  | None => mret (0, 0, Some ErrSpecNotFound)
  | Some product_Spec =>
  '(orderID, err) ← orderIDGen uc userID;
  match err with
  | Some err => mret (0, 0, Some err)
  | None =>
  '(instanceID, err) ← instanceIDGen uc userID;
  match err with
  | Some err => mret (0, 0, Some err)
  | None =>
  now ← time_Now_UnixMilli;
  let order := {|
    o_ID := orderID;
    o_UserID := userID;
    o_ProductID := productID;
    o_ReqID := reqID;
    o_Amount := prod_Price product;
    o_InstanceID := instanceID;
    o_Status := "PAID";
    o_CreatedAt := now;
    o_PaidAt := Some now;
    o_CompletedAt := None
  |} in
  err ← orderRepo_create uc order;
  match err with
  | Some err => mret (0, 0, Some err)
  | None =>
  let spec := {|
    is_InstanceID := instanceID;
    is_UserID := userID;
    is_Name := prod_Name product;
    is_CPU := spec_CPU product_Spec;
    is_Memory := spec_Memory product_Spec;
    is_GPU := spec_GPU product_Spec;
    is_Image := spec_Image product_Spec;
    is_ConfigJSON := spec_ConfigJSON product_Spec
  |} in
  err ← mqPublisher_publish uc spec;
  match err with
  | Some err => mret (0, 0, Some err)
  | None => mret (orderID, instanceID, None)
  end end end end end end end.

(** [OrderUsecase.PurchaseProduct]. *)
Definition PurchaseProduct (uc : OrderUsecase) (userID : string) (productID : Z)
  : M (option Order * Z * option error) :=
  if String.eqb userID "" then mret (None, 0, Some ErrInvalidUserID)
  else
    '(orderID, instanceID, err) ← CreateOrder uc productID userID 0;
    match err with
    | Some err => mret (None, 0, Some err)
    | None =>
        '(order, err) ← orderRepo_getByID uc orderID;
        match err with
        | Some err => mret (None, 0, Some err)
        | None => mret (order, instanceID, None)
        end
    end.

(** [OrderUsecase.CreateOrderFromSeckill]. *)
Definition CreateOrderFromSeckill (uc : OrderUsecase) (productID : Z)
    (userID : string) (reqID : Z) : M (Z * Z * option error) :=
  CreateOrder uc productID userID reqID.

(** The collaborators of [InstanceUsecase]. *)
Record InstanceUsecase := {
  instanceRepo_GetProductByID : Z -> M (error + Product);
  orderRepo_createOrder : InstanceOrder -> M (option error);
  iu_mqPublisher_publish : InstanceSpec -> M (option error);
  idGenerator : string -> M (Z * option error)
}.

(** [InstanceUsecase.CreateInstance]. *)
Definition CreateInstance (uc : InstanceUsecase) (productID : Z)
    (userID : string) (reqID : Z) : M (option error) :=
  '(reqID, err) ← (if reqID =? 0 then idGenerator uc userID
                   else mret (reqID, None));
  match err with
  | Some err => mret (Some err)
  | None =>
  product ← instanceRepo_GetProductByID uc productID;
  match product with
  | inl err => mret (Some err)
  | inr product =>
  match prod_Spec product with
  | None => mret (Some ErrSpecNotFound)
  | Some product_Spec =>
  '(orderID, err) ← idGenerator uc userID;
  match err with
  | Some err => mret (Some err)
  | None =>
  '(instanceID, err) ← idGenerator uc userID;
  match err with
  | Some err => mret (Some err)
  | None =>
  now ← time_Now_UnixMilli;
  let order := {|
    io_OrderID := orderID;
    io_UserID := userID;
    io_ProductID := productID;
    io_ReqID := reqID;
    io_Amount := prod_Price product;
    io_InstanceID := Some instanceID;
    io_Status := "PAID";
    io_CreatedAt := now;
    io_PaidAt := Some now;
    io_CompletedAt := None
  |} in
  err ← orderRepo_createOrder uc order;
  match err with
  | Some err => mret (Some err)
  | None =>
  let spec := {|
    is_InstanceID := instanceID;
    is_UserID := userID;
    is_Name := prod_Name product;
    is_CPU := spec_CPU product_Spec;
    is_Memory := spec_Memory product_Spec;
    is_GPU := spec_GPU product_Spec;
    is_Image := spec_Image product_Spec;
    is_ConfigJSON := spec_ConfigJSON product_Spec
  |} in
  err ← iu_mqPublisher_publish uc spec;
  match err with
  | Some err => mret (Some err)
  | None => mret None
  end end end end end end end.

(** ** Package [service]: the stream handler *)

Fixpoint hashStreamID_loop (hash : Z) (streamID : string) : Z :=
  match streamID with
  | EmptyString => hash
  | String c rest =>
      hashStreamID_loop (wrap64 (wrap64 (hash * 31) + byte_of c)) rest
  end.

(** [hashStreamID]. *)
Definition hashStreamID (streamID : string) : Z :=
  let hash := hashStreamID_loop 0 streamID in
  if hash <? 0 then wrap64 (- hash) else hash.

(** [isUniqueViolationError]. *)
Definition isUniqueViolationError (err : option error) : bool :=
  match err with
  | None => false
  | Some err =>
      let errMsg := Error err in
      strings_Contains errMsg "23505"
      || strings_Contains errMsg "duplicate key"
      || strings_Contains errMsg "uq_orders_product_req"
  end.

(** [SeckillOrderService.HandleSeckillOrder] over the order use case. *)
Definition HandleSeckillOrder (orderUC : OrderUsecase) (productID : Z)
    (streamID uid : string) : M (option error) :=
  let reqID := hashStreamID streamID in
  '(_, _, err) ← CreateOrderFromSeckill orderUC productID uid reqID;
  match err with
  | Some err =>
      if isUniqueViolationError (Some err) then mret None
      else mret (Some err)
  | None => mret None
  end.

(** [SeckillOrderService.HandleSeckillOrder] over the instance use
    case. *)
Definition HandleSeckillOrder_instance (uc : InstanceUsecase) (productID : Z)
    (streamID uid : string) : M (option error) :=
  let reqID := hashStreamID streamID in
  err ← CreateInstance uc productID uid reqID;
  match err with
  | Some err => mret (Some err)
  | None => mret None
  end.

(** ** Package [server]: the stream consumer *)

(** The consumer group of the Redis stream: [stream_new] are the entries
    never delivered to the group, [pel] the tokens delivered and not yet
    acknowledged. *)
Definition redis_Nil : error := errors_New "redis: nil".

(** [XReadGroup] with start token [>]. *)
Definition XReadGroup (count : nat) : M (list (list XMessage) * option error) :=
  new ← get stream_new;
  pending ← get pel;
  match new with
  | [] => mret ([], Some redis_Nil)
  | _ =>
      let batch := take count new in
      set_stream (drop count new) (pending ++ List.map msg_ID batch);;
      mret ([batch], None)
  end.

(** [XAck]. *)
Definition XAck (id : string) : M (Z * option error) :=
  new ← get stream_new;
  pending ← get pel;
  if bool_decide (id ∈ pending)
  then set_stream new (List.filter (fun x => negb (String.eqb x id)) pending);;
       mret (1, None)
  else mret (0, None).

(** [fmt.Sprint(msg.Values["uid"])]. *)
Definition fmt_Sprint (v : option string) : string :=
  match v with
  | None => "<nil>"
  | Some s => s
  end.

Record SeckillStreamServer := {
  srv_productID : Z;
  srv_count : nat;
  srv_handler : string -> string -> M (option error)
}.

(** [NewSeckillStreamServer]; the handler is the [HandleSeckillOrder] of a
    [SeckillOrderService]. *)
Definition NewSeckillStreamServer (handler : string -> string -> M (option error))
    (productID : Z) : SeckillStreamServer :=
  {| srv_productID := productID;
     srv_count := 128;
     srv_handler := handler |}.

Fixpoint forM_ {A} (l : list A) (body : A -> M unit) : M unit :=
  match l with
  | [] => mret tt
  | x :: rest => body x;; forM_ rest body
  end.

(** The body of the inner [for] of [consumeLoop]. *)
Definition consumeMessage (s : SeckillStreamServer) (msg : XMessage) : M unit :=
  let uid := fmt_Sprint (msg_Values msg !! "uid") in
  if String.eqb uid "" || String.eqb uid "<nil>" then mret tt
  else
    err ← srv_handler s (msg_ID msg) uid;
    match err with
    | Some _ => mret tt
    | None => _ ← XAck (msg_ID msg); mret tt
    end.

(** [SeckillStreamServer.consumeLoop]; [rounds] is the number of times the
    loop goes round before the context is cancelled. *)
Fixpoint consumeLoop (s : SeckillStreamServer) (rounds : nat) : M unit :=
  match rounds with
  | O => mret tt
  | S rounds =>
      '(res, err) ← XReadGroup (srv_count s);
      match err with
      | Some _ => consumeLoop s rounds
      | None =>
          forM_ res (fun strm => forM_ strm (consumeMessage s));;
          consumeLoop s rounds
      end
  end.

(** The body of the [for] over the claimed entries in [reclaimLoop]. *)
Definition reclaimMessage (s : SeckillStreamServer) (msg : XMessage) : M unit :=
  let uid := fmt_Sprint (msg_Values msg !! "uid") in
  if String.eqb uid "" || String.eqb uid "<nil>" then mret tt
  else
    err ← srv_handler s (msg_ID msg) uid;
    match err with
    | Some _ => mret tt
    | None => _ ← XAck (msg_ID msg); mret tt
    end.

(** ** The process as it is wired *)

Section Wiring.
Context `{Externals}.

(** [ProductRepo.GetByID] and [InstanceRepo.GetProductByID]: both resolve
    a product identifier against the catalog, which the flows modelled
    here only read. *)
Definition catalog_lookup (productID : Z) : M (error + Product) :=
  cat ← get catalog; mret (cat productID).

(** [OrderUsecase] as dependency injection builds it: the repositories
    and generators of package [data] and the publisher chosen at
    startup. *)
Definition wired_OrderUsecase (p : MQPublisher) : OrderUsecase :=
  {| orderRepo_create := orderRepo_Create;
     orderRepo_getByID := orderRepo_GetByID;
     productRepo_GetByID := catalog_lookup;
     mqPublisher_publish := PublishInstanceCreated p;
     orderIDGen := orderIDGenerator_Generate;
     instanceIDGen := instanceIDGenerator_Generate |}.

(** [InstanceUsecase] as dependency injection builds it. *)
Definition wired_InstanceUsecase (p : MQPublisher) : InstanceUsecase :=
  {| instanceRepo_GetProductByID := catalog_lookup;
     orderRepo_createOrder := orderRepo_CreateOrder;
     iu_mqPublisher_publish := PublishInstanceCreated p;
     idGenerator := instanceIDGenerator_Generate |}.

End Wiring.


(** ** Instance queries *)

Record InstanceInfo := {
  ii_InstanceID : Z;
  ii_UserID : string;
  ii_OrderID : Z;
  ii_ProductID : Z;
  ii_ProductName : string;
  ii_Spec : option ProductSpec;
  ii_Status : string;
  ii_CreatedAt : Z
}.

Definition sql_ErrNoRows : error := errors_New "sql: no rows in result set".

(** The row [First] keeps among the matching ones: the statement GORM
    issues ends in [ORDER BY orders.order_id LIMIT 1]. *)
Definition first_by_pkey (r : orderPO) (rest : list orderPO) : orderPO :=
  fold_left (fun best x => if po_OrderID x <? po_OrderID best then x else best) rest r.

(** [Where(cond).First(&order)] on table [orders]. *)
Definition db_First (cond : orderPO -> bool) : M (error + orderPO) :=
  rows ← get orders;
  match List.filter cond rows with
  | [] => mret (inl ErrRecordNotFound)
  | r :: rest => mret (inr (first_by_pkey r rest))
  end.

Section InstanceQueries.
Context `{Externals}.

(** [orderRepo.buildInstanceInfo]. *)
Definition buildInstanceInfo (order : orderPO) : M (error + InstanceInfo) :=
  match po_InstanceID order with
  | None => mret (inl sql_ErrNoRows)
  | Some instanceID =>
      product ← catalog_lookup (po_ProductID order);
      match product with
      | inl err => mret (inl err)
      | inr product =>
          let status :=
            if String.eqb (po_Status order) "PAID" then "CREATING"
            else if String.eqb (po_Status order) "COMPLETED" then "RUNNING"
            else if String.eqb (po_Status order) "CANCELLED" then "DELETED"
            else "UNKNOWN" in
          mret (inr {| ii_InstanceID := instanceID;
                       ii_UserID := po_UserID order;
                       ii_OrderID := po_OrderID order;
                       ii_ProductID := po_ProductID order;
                       ii_ProductName := prod_Name product;
                       ii_Spec := prod_Spec product;
                       ii_Status := status;
                       ii_CreatedAt := po_CreatedAt order |})
      end
  end.

(** [orderRepo.GetInstanceByID]; a NULL [instance_id] matches no
    identifier. *)
Definition orderRepo_GetInstanceByID (instanceID : Z) : M (error + InstanceInfo) :=
  order ← db_First (fun r => match po_InstanceID r with
                             | Some i => i =? instanceID
                             | None => false
                             end);
  match order with
  | inl err => mret (inl err)
  | inr order => buildInstanceInfo order
  end.

(** [orderRepo.GetInstanceByOrderID]. *)
Definition orderRepo_GetInstanceByOrderID (orderID : Z) : M (error + InstanceInfo) :=
  order ← db_First (fun r => po_OrderID r =? orderID);
  match order with
  | inl err => mret (inl err)
  | inr order =>
      match po_InstanceID order with
      | None => mret (inl sql_ErrNoRows)
      | Some _ => buildInstanceInfo order
      end
  end.

End InstanceQueries.

(** ** Package [strconv] *)

Definition digit_char (d : Z) : Ascii.ascii := Ascii.ascii_of_N (Z.to_N (48 + d)).

(** The digit loop of [formatBits] in base 10: the digits of [u], most
    significant first, in front of [tail]; [fuel] bounds the number of
    digits after the first. *)
Fixpoint formatBits (fuel : nat) (u : Z) (tail : string) : string :=
  let tail := String (digit_char (u mod 10)) tail in
  match fuel with
  | O => tail
  | S fuel => if u <? 10 then tail else formatBits fuel (u / 10) tail
  end.

(** [strconv.FormatInt(i, 10)] for an [int64]; its magnitude has at most
    19 digits. *)
Definition strconv_FormatInt (i : Z) : string :=
  if i <? 0 then String (Ascii.ascii_of_N 45) (formatBits 18 (- i) "") else formatBits 18 i "".

Inductive NumErr := ErrSyntax | ErrRange.

(** The loop of [strconv.ParseUint] in base 10; [maxVal] is
    [1<<bitSize - 1]. *)
Fixpoint ParseUint_loop (s : string) (n maxVal : Z) : NumErr + Z :=
  match s with
  | EmptyString => inr n
  | String c rest =>
      let b := byte_of c in
      if (48 <=? b) && (b <=? 57) then
        if (2 ^ 64 - 1) / 10 + 1 <=? n then inl ErrRange
        else
          let n1 := n * 10 + (b - 48) in
          if maxVal <? n1 then inl ErrRange
          else ParseUint_loop rest n1 maxVal
      else inl ErrSyntax
  end.

(** [strconv.ParseUint(s, 10, bitSize)]. *)
Definition strconv_ParseUint (s : string) (bitSize : Z) : NumErr + Z :=
  match s with
  | EmptyString => inl ErrSyntax
  | _ => ParseUint_loop s 0 (2 ^ bitSize - 1)
  end.

(** [strconv.ParseInt(s, 10, bitSize)]. *)
Definition strconv_ParseInt (s : string) (bitSize : Z) : NumErr + Z :=
  match s with
  | EmptyString => inl ErrSyntax
  | String c rest =>
      let '(neg, digits) :=
        if byte_of c =? 43 then (false, rest)
        else if byte_of c =? 45 then (true, rest)
        else (false, s) in
      match strconv_ParseUint digits bitSize with
      | inl ErrSyntax => inl ErrSyntax
      | inl ErrRange => inl ErrRange
      | inr un =>
          let cutoff := 2 ^ (bitSize - 1) in
          if negb neg && (cutoff <=? un) then inl ErrRange
          else if neg && (cutoff <? un) then inl ErrRange
          else inr (if neg then - un else un)
      end
  end.


(** [NumError.Error()] of an error of [strconv.ParseInt]; [quoted] is
    [strconv.Quote] of the input. *)
Definition NumError_Error (quoted : string) (e : NumErr) : string :=
  "strconv.ParseInt: parsing " +:+ quoted +:+ ": " +:+
  match e with
  | ErrSyntax => "invalid syntax"
  | ErrRange => "value out of range"
  end.

(** Conversion of an [int64] to [int32]. *)
Definition int32_of (z : Z) : Z := (z + 2 ^ 31) mod 2 ^ 32 - 2 ^ 31.

(** ** The seckill keys in Redis *)

Inductive redis_value :=
  | RString (s : string)
  | RHash (fields : gmap string string)
  | RStream (entries : list XMessage).

(** The Redis server as the seckill repository sees it; [rds_down] is
    the error every round trip fails with while the server cannot be
    reached. *)
Record Redis := {
  rds_down : option error;
  rds_keys : gmap string redis_value
}.

Definition keyStock : string := "seckill:stock".
Definition keyReqSeq : string := "req:seq".
Definition keyUID2ReqHash : string := "uid2req".
Definition keyStreamOrders : string := "stream:orders".
Definition keyCurrentProdID : string := "seckill:product_id".

Definition redis_WrongType : error :=
  errors_New "WRONGTYPE Operation against a key holding the wrong kind of value".

Inductive redis_cmd :=
  | Del (keys : list string)
  | Set_ (key : string) (value : string).

Definition run_cmd (keys : gmap string redis_value) (c : redis_cmd)
  : gmap string redis_value :=
  match c with
  | Del ks => fold_left (fun m k => delete k m) ks keys
  | Set_ k v => <[k := RString v]> keys
  end.

(** One round trip that carries the commands [cmds] in order: a single
    command, or [Exec] of a pipeline. *)
Definition redis_Exec (cmds : list redis_cmd) (rdb : Redis) : option error * Redis :=
  match rds_down rdb with
  | Some err => (Some err, rdb)
  | None => (None, {| rds_down := None; rds_keys := fold_left run_cmd cmds (rds_keys rdb) |})
  end.

(** [Get(key).Result()]. *)
Definition redis_Get (key : string) (rdb : Redis) : error + string :=
  match rds_down rdb with
  | Some err => inl err
  | None =>
      match rds_keys rdb !! key with
      | None => inl redis_Nil
      | Some (RString s) => inr s
      | Some _ => inl redis_WrongType
      end
  end.

(** [Exists(key).Result()]. *)
Definition redis_Exists (key : string) (rdb : Redis) : error + Z :=
  match rds_down rdb with
  | Some err => inl err
  | None => inr (match rds_keys rdb !! key with Some _ => 1 | None => 0 end)
  end.

Definition ErrInvalidStock : error := errors_New "invalid stock: must be greater than 0".
Definition ErrNoActiveSeckill : error := errors_New "no active seckill".
Definition ErrRedisNotInitialized : error := errors_New "redis client is not initialized".

Section Seckill.
(** [strconv.Quote]. *)
Variable strconv_Quote : string -> string.

(** [seckillProductRepo.InitSeckill]; the argument is [r.data.redis],
    [None] for a nil client. *)
Definition seckillProductRepo_InitSeckill (productID stock : Z) (redis : option Redis)
  : option error * option Redis :=
  match redis with
  | None => (Some ErrRedisNotInitialized, None)
  | Some rdb =>
      let pipe :=
        [ Del [keyStock]; Del [keyReqSeq]; Del [keyUID2ReqHash]; Del [keyCurrentProdID];
          Set_ keyCurrentProdID (strconv_FormatInt productID);
          Set_ keyStock (strconv_FormatInt stock);
          Set_ keyReqSeq (strconv_FormatInt 0) ] in
      match redis_Exec pipe rdb with
      | (Some err, rdb) => (Some err, Some rdb)
      | (None, rdb) =>
          match redis_Exists keyStreamOrders rdb with
          | inl err => (Some err, Some rdb)
          | inr _ => (None, Some rdb)
          end
      end
  end.

(** [seckillProductRepo.GetCurrentProductID]. *)
Definition seckillProductRepo_GetCurrentProductID (redis : option Redis)
  : Z * option error :=
  match redis with
  | None => (0, Some ErrRedisNotInitialized)
  | Some rdb =>
      match redis_Get keyCurrentProdID rdb with
      | inl err =>
          if bool_decide (err = redis_Nil) then (0, Some ErrNoActiveSeckill)
          else (0, Some err)
      | inr val =>
          match strconv_ParseInt val 64 with
          | inl err =>
              (0, Some (errors_New ("invalid product_id format: "
                                    +:+ NumError_Error (strconv_Quote val) err)))
          | inr productID => (productID, None)
          end
      end
  end.

(** [seckillProductRepo.GetStock]. *)
Definition seckillProductRepo_GetStock (redis : option Redis) : Z * option error :=
  match redis with
  | None => (0, Some ErrRedisNotInitialized)
  | Some rdb =>
      match redis_Get keyStock rdb with
      | inl err =>
          if bool_decide (err = redis_Nil) then (0, None)
          else (0, Some err)
      | inr val =>
          match strconv_ParseInt val 32 with
          | inl err =>
              (0, Some (errors_New ("invalid stock format: "
                                    +:+ NumError_Error (strconv_Quote val) err)))
          | inr stock => (int32_of stock, None)
          end
      end
  end.

(** [seckillProductRepo.ClearSeckill]. *)
Definition seckillProductRepo_ClearSeckill (redis : option Redis)
  : option error * option Redis :=
  match redis with
  | None => (Some ErrRedisNotInitialized, None)
  | Some rdb =>
      let keys := [keyStock; keyReqSeq; keyUID2ReqHash; keyStreamOrders;
                   keyCurrentProdID] in
      match redis_Exec [Del keys] rdb with
      | (Some err, rdb) => (Some err, Some rdb)
      | (None, rdb) => (None, Some rdb)
      end
  end.

(** [SeckillUsecase.InitSeckill] over the repository above. *)
Definition SeckillUsecase_InitSeckill (productID stock : Z) (redis : option Redis)
  : option error * option Redis :=
  if stock <=? 0 then (Some ErrInvalidStock, redis)
  else seckillProductRepo_InitSeckill productID stock redis.

(** [SeckillUsecase.GetCurrentSeckill]. *)
Definition SeckillUsecase_GetCurrentSeckill (redis : option Redis)
  : Z * Z * option error :=
  match seckillProductRepo_GetCurrentProductID redis with
  | (_, Some err) => (0, 0, Some err)
  | (productID, None) =>
      match seckillProductRepo_GetStock redis with
      | (_, Some err) => (0, 0, Some err)
      | (stock, None) => (productID, stock, None)
      end
  end.

(** [SeckillUsecase.ClearSeckill]. *)
Definition SeckillUsecase_ClearSeckill (redis : option Redis)
  : option error * option Redis :=
  seckillProductRepo_ClearSeckill redis.

End Seckill.

(** ** Sorting and paging of the product list *)

(** [biz.ProductSortBy] and [biz.SortOrder]: [iota] constants. *)
Definition ProductSortByUnspecified : Z := 0.
Definition ProductSortByPrice : Z := 1.
Definition ProductSortByCPU : Z := 2.
Definition ProductSortByMemory : Z := 3.
Definition ProductSortByGPU : Z := 4.

Definition SortOrderUnspecified : Z := 0.
Definition SortOrderAsc : Z := 1.
Definition SortOrderDesc : Z := 2.

Record ProductFilter := {
  pf_MinPrice : option Z;
  pf_MaxPrice : option Z;
  pf_SortBy : Z;
  pf_SortOrder : Z;
  pf_Page : Z;
  pf_PageSize : Z
}.

(** [buildProductOrder] of package [data]. *)
Definition buildProductOrder (sortBy order : Z) : string * option error :=
  let column :=
    if sortBy =? ProductSortByPrice then inr "products.price"
    else if sortBy =? ProductSortByCPU then inr "product_specs.cpu"
    else if sortBy =? ProductSortByMemory then inr "product_specs.memory"
    else if sortBy =? ProductSortByGPU then inr "product_specs.gpu"
    else if sortBy =? ProductSortByUnspecified then inl ("", None)
    else inl ("", Some (errors_New "unknown sort field")) in
  match column with
  | inl early => early
  | inr column =>
      let direction :=
        if (order =? SortOrderAsc) || (order =? SortOrderUnspecified) then inr "ASC"
        else if order =? SortOrderDesc then inr "DESC"
        else inl ("", Some (errors_New "unknown sort order")) in
      match direction with
      | inl early => early
      | inr direction => (column +:+ " " +:+ direction, None)
      end
  end.

(** [v1.ListProductReq], as its getters read it. *)
Record ListProductReq := {
  req_MinPrice : Z;
  req_MaxPrice : Z;
  req_SortBy : Z;
  req_SortOrder : Z;
  req_Page : Z;
  req_PageSize : Z
}.

Section ProductListing.
(** The numbers of the generated enums [v1.SortBy] and [v1.SortOrder]. *)
Variables SortBy_SORT_BY_PRICE SortBy_SORT_BY_CPU : Z.
Variables SortBy_SORT_BY_MEMORY SortBy_SORT_BY_GPU : Z.
Variables SortOrder_ASC SortOrder_DESC : Z.

(** [mapSortBy]. *)
Definition mapSortBy (sortBy : Z) : Z :=
  if sortBy =? SortBy_SORT_BY_PRICE then ProductSortByPrice
  else if sortBy =? SortBy_SORT_BY_CPU then ProductSortByCPU
  else if sortBy =? SortBy_SORT_BY_MEMORY then ProductSortByMemory
  else if sortBy =? SortBy_SORT_BY_GPU then ProductSortByGPU
  else ProductSortByUnspecified.

(** [mapSortOrder]. *)
Definition mapSortOrder (order : Z) : Z :=
  if order =? SortOrder_ASC then SortOrderAsc
  else if order =? SortOrder_DESC then SortOrderDesc
  else SortOrderUnspecified.

(** [ProductService.buildFilter]. *)
Definition buildFilter (req : ListProductReq) : ProductFilter :=
  {| pf_SortBy := mapSortBy (req_SortBy req);
     pf_SortOrder := mapSortOrder (req_SortOrder req);
     pf_MinPrice := if 0 <? req_MinPrice req then Some (req_MinPrice req) else None;
     pf_MaxPrice := if 0 <? req_MaxPrice req then Some (req_MaxPrice req) else None;
     pf_Page := if req_Page req =? 0 then 1 else req_Page req;
     pf_PageSize := if req_PageSize req =? 0 then 20 else req_PageSize req |}.

End ProductListing.

(** ** Package [random] *)

(** A [uint64] is a [Z] reduced modulo [2^64]. *)
Definition wrapU64 (z : Z) : Z := z mod 2 ^ 64.

Record XorShift64Star := { xs_s : Z }.

(** [NewXorShift64Star]. *)
Definition NewXorShift64Star (seed : Z) : XorShift64Star :=
  {| xs_s := if seed =? 0 then 0x9e3779b97f4a7c15 else seed |}.

(** [XorShift64Star.next64]: the result and the generator after the
    call. *)
Definition next64 (r : XorShift64Star) : Z * XorShift64Star :=
  let x := xs_s r in
  let x := Z.lxor x (Z.shiftr x 12) in
  let x := Z.lxor x (wrapU64 (Z.shiftl x 25)) in
  let x := Z.lxor x (Z.shiftr x 27) in
  (wrapU64 (x * 2685821657736338717), {| xs_s := x |}).

(** [XorShift64Star.RandNBits]; [bits] is a [uint8]. *)
Definition RandNBits (bits : Z) (r : XorShift64Star) : Z * XorShift64Star :=
  if bits =? 0 then (0, r)
  else if 64 <=? bits then next64 r
  else
    let mask := wrapU64 (wrapU64 (Z.shiftl 1 bits) - 1) in
    let '(v, r) := next64 r in
    (Z.land v mask, r).

(** [XorShift64Star.Rand3Bits]. *)
Definition Rand3Bits (r : XorShift64Star) : Z * XorShift64Star :=
  let '(v, r) := next64 r in
  ((Z.land v 7) mod 2 ^ 8, r).

(** [XorShift64Star.RandRange]. *)
Definition RandRange (min max : Z) (r : XorShift64Star) : Z * XorShift64Star :=
  if max <=? min then (min, r)
  else
    let '(v, r) := next64 r in
    (wrapU64 (min + v mod (max - min)), r).

(** ** Field masks of the product list *)

Record v1_ProductSpec := {
  v1s_Cpu : Z;
  v1s_Memory : Z;
  v1s_Gpu : Z;
  v1s_Image : string;
  v1s_ConfigJson : string
}.

Record v1_Product := {
  v1p_Id : Z;
  v1p_Name : string;
  v1p_Description : string;
  v1p_Status : Z;
  v1p_Price : Z;
  v1p_Spec : option v1_ProductSpec
}.

(** [hasSpecField]. *)
Definition hasSpecField (paths : gmap string bool) : bool :=
  existsb (fun entry => String.prefix "spec." entry.1) (map_to_list paths).

(** [paths[path]] on a [map[string]bool]. *)
Definition path_set (paths : gmap string bool) (path : string) : bool :=
  default false (paths !! path).

(** [applySpecMask]. *)
Definition applySpecMask (spec : option v1_ProductSpec) (paths : gmap string bool)
  : option v1_ProductSpec :=
  match spec with
  | None => None
  | Some spec =>
      if path_set paths "spec" then Some spec
      else
        Some {| v1s_Cpu := if path_set paths "spec.cpu" then v1s_Cpu spec else 0;
                v1s_Memory := if path_set paths "spec.memory" then v1s_Memory spec else 0;
                v1s_Gpu := if path_set paths "spec.gpu" then v1s_Gpu spec else 0;
                v1s_Image := if path_set paths "spec.image" then v1s_Image spec else "";
                v1s_ConfigJson :=
                  if path_set paths "spec.config_json" then v1s_ConfigJson spec else "" |}
  end.

Section FieldMask.
(** [strings.TrimSpace]. *)
Variable strings_TrimSpace : string -> string.

(** [normalizeMaskPaths]. *)
Definition normalizeMaskPaths (paths : list string) : gmap string bool :=
  fold_left (fun result path =>
               let trimmed := strings_TrimSpace path in
               if String.eqb trimmed "" then result
               else <[trimmed := true]> result)
            paths ∅.

(** [applyProductMask]; the mask is its [Paths], [None] for a nil
    mask. *)
Definition applyProductMask (product : option v1_Product) (mask : option (list string))
  : option v1_Product :=
  match product with
  | None => None
  | Some product =>
      match mask with
      | None | Some [] => Some product
      | Some mask_Paths =>
          let paths := normalizeMaskPaths mask_Paths in
          let allowed := path_set paths in
          Some {| v1p_Id := if allowed "id" then v1p_Id product else 0;
                  v1p_Name := if allowed "name" then v1p_Name product else "";
                  v1p_Description :=
                    if allowed "description" then v1p_Description product else "";
                  v1p_Status := if allowed "status" then v1p_Status product else 0;
                  v1p_Price := if allowed "price" then v1p_Price product else 0;
                  v1p_Spec :=
                    if allowed "spec" || hasSpecField paths
                    then applySpecMask (v1p_Spec product) paths
                    else None |}
      end
  end.

End FieldMask.

(** * Vocabulary of the statements *)

(** ** Worlds and runs *)

Definition tick_once (w : World) : World := (time_Now_UnixMilli w).2.

Definition frozen_at (t : Z) (w : World) : World :=
  {| clock := fun _ => t; tick := tick w; catalog := catalog w;
     orders := orders w; mq_down := mq_down w;
     mq_delivered := mq_delivered w; stream_new := stream_new w;
     pel := pel w |}.

(** [n] successive calls of [c], results in call order. *)
Fixpoint calls {A} (n : nat) (c : M A) : M (list A) :=
  match n with
  | O => mret []
  | S n => a ← c; rest ← calls n c; mret (a :: rest)
  end.

Definition add_order (po : orderPO) (w : World) : World :=
  (set_orders (orders w ++ [po]) w).2.

(** The rows stored for one [(product_id, req_id)] pair. *)
Definition rows_for (productID reqID : Z) (rows : list orderPO) : list orderPO :=
  List.filter (fun r => (po_ProductID r =? productID) && (po_ReqID r =? reqID)) rows.

(** What a call of the publisher may change: the clock advances by at
    most two readings and at most one message is handed to the
    exchange. *)
Record publish_step (w w' : World) : Prop := {
  ps_clock : clock w' = clock w;
  ps_tick : (tick w <= tick w' <= tick w + 2)%nat;
  ps_catalog : catalog w' = catalog w;
  ps_orders : orders w' = orders w;
  ps_down : mq_down w' = mq_down w;
  ps_stream : stream_new w' = stream_new w;
  ps_pel : pel w' = pel w
}.

(** The world at step 2 of [CreateOrder]: one clock reading was spent if
    the request number had to be minted. *)
Definition after_req (reqID : Z) (w : World) : World :=
  if reqID =? 0 then tick_once w else w.

(** ** The values a commit mints *)

Section Minting.
Context `{Externals}.

Definition order_id_at (nowMs : Z) (userID : string) : Z :=
  Z.lor (shl64 (Z.land (wrap64 (nowMs - EpochMsStart)) 0x3FFFFFFFFFFF) 15)
        (wrap64 (Z.land (xxhash_Sum64String userID) 0x7FFF)).

Definition instance_id_at (nowMs : Z) (uuid : string) : Z :=
  Z.lor (Z.lor (shl64 (wrap64 (Z.land (xxhash_Sum64String uuid) 0x7FFF)) 48)
               (shl64 (wrap64 (nowMs - EpochMsStart)) 3))
        0.

(** The request number the order is stored under. *)
Definition stored_req (reqID : Z) (userID : string) (w : World) : Z :=
  if reqID =? 0 then order_id_at (clock w (tick w)) userID else reqID.

(** The row [CreateOrder] hands to the repository. *)
Definition order_row (productID : Z) (userID : string) (reqID : Z)
    (product : Product) (w : World) : orderPO :=
  let w0 := after_req reqID w in
  let instanceID := instance_id_at (clock w (S (tick w0))) userID in
  {| po_OrderID := order_id_at (clock w (tick w0)) userID;
     po_ProductID := productID;
     po_Amount := prod_Price product;
     po_InstanceID := if instanceID =? 0 then None else Some instanceID;
     po_Status := "PAID";
     po_CreatedAt := clock w (S (S (tick w0)));
     po_PaidAt := Some (clock w (S (S (tick w0))));
     po_CompletedAt := None;
     po_UserID := userID;
     po_ReqID := stored_req reqID userID w |}.

(** The message [CreateOrder] hands to the publisher. *)
Definition order_spec (userID : string) (reqID : Z) (product : Product)
    (product_Spec : ProductSpec) (w : World) : InstanceSpec :=
  {| is_InstanceID := instance_id_at (clock w (S (tick (after_req reqID w)))) userID;
     is_UserID := userID;
     is_Name := prod_Name product;
     is_CPU := spec_CPU product_Spec;
     is_Memory := spec_Memory product_Spec;
     is_GPU := spec_GPU product_Spec;
     is_Image := spec_Image product_Spec;
     is_ConfigJSON := spec_ConfigJSON product_Spec |}.

End Minting.

(** ** Conditions on the environment *)

(** The entries [consumeLoop] refuses: no [uid] field, an empty one, or
    one that prints as [<nil>]. *)
Definition uid_missing (msg : XMessage) : Prop :=
  msg_Values msg !! "uid" = None
  \/ msg_Values msg !! "uid" = Some ""
  \/ msg_Values msg !! "uid" = Some "<nil>".

(** The startups after which [NewMQPublisher] gives up on the broker:
    no configuration or no URL, or a failure of one of the five calls. *)
Definition startup_degraded (c : option conf_Data) (broker : BrokerStartup) : Prop :=
  c ≫= Rabbitmq = None
  \/ (exists rmq, c ≫= Rabbitmq = Some rmq /\ rmq_Url rmq = "")
  \/ is_Some (dial_err broker)
  \/ is_Some (channel_err broker)
  \/ is_Some (exchange_declare_err broker)
  \/ is_Some (queue_declare_err broker)
  \/ is_Some (queue_bind_err broker).

(** The clock never runs backwards, is inside the 46-bit window of the
    order-identifier generator for the readings two commits can take, and
    has moved on by the time the first commit has stored its row. *)
Definition clock_moves_on (w : World) : Prop :=
  (forall i j, (i <= j)%nat -> clock w i <= clock w j)
  /\ EpochMsStart <= clock w (tick w)
  /\ clock w (tick w + 7) < EpochMsStart + 2 ^ 46
  /\ clock w (tick w + 3) < clock w (tick w + 4).

(** A stored row that cannot clash with identifiers minted from [bound]
    on. *)
Definition predates (productID bound : Z) (r : orderPO) : Prop :=
  po_OrderID r < bound /\ (po_ProductID r = productID -> po_ReqID r < bound).

(** ** A concrete deployment

    A library instance and a world on which the operations can be run:
    product 1001 is on sale at 9900 with 2 CPUs and 4096 MB, product 2002
    is withdrawn, the clock starts one second after the generators'
    epoch and advances by one millisecond per reading. *)

Definition string_bytes (s : string) : list Z :=
  List.map byte_of (String.list_ascii_of_string s).

(** A stand-in encoder that writes every field of the event. *)
Definition sample_Marshal (ev : mq_Event) : error + list Z :=
  inr (string_bytes (ev_EventType ev)
       ++ [ev_InstanceId ev; ev_Timestamp ev]
       ++ string_bytes (ev_UserId ev) ++ [0]
       ++ string_bytes (ev_Name ev) ++ [0]
       ++ [mq_Cpus (ev_Spec ev); mq_MemoryMb (ev_Spec ev); mq_Gpu (ev_Spec ev)]
       ++ string_bytes (mq_Image (ev_Spec ev))).

Definition sample_libs : Externals :=
  {| xxhash_Sum64String := fun s => hashStreamID_loop 7 s;
     proto_Marshal := sample_Marshal |}.

Definition sample_spec (config : list Z) : ProductSpec :=
  {| spec_ID := 1; spec_CPU := 2; spec_Memory := 4096; spec_GPU := 0;
     spec_Image := "ubuntu:22.04"; spec_ConfigJSON := config;
     spec_CreatedAt := 0 |}.

Definition sample_product (id : Z) (status : string) (config : list Z) : Product :=
  {| prod_ID := id; prod_Name := "basic"; prod_Description := "";
     prod_Status := status; prod_Price := 9900; prod_SpecID := 1;
     prod_Spec := Some (sample_spec config);
     prod_CreatedAt := 0; prod_UpdatedAt := 0 |}.

Definition sample_catalog (config : list Z) (id : Z) : error + Product :=
  if id =? 1001 then inr (sample_product 1001 "ENABLED" config)
  else if id =? 2002 then inr (sample_product 2002 "DISABLED" config)
  else inl ErrProductNotFound.

Definition sample_world (config : list Z) : World :=
  {| clock := fun n => Z.of_nat n + (EpochMsStart + 1000);
     tick := 0;
     catalog := sample_catalog config;
     orders := [];
     mq_down := None;
     mq_delivered := [];
     stream_new := [];
     pel := [] |}.

Definition sample_exchange : string := "resource.events".

Definition entry_without_uid : XMessage :=
  {| msg_ID := "1768665601000-0";
     msg_Values := {[ "ts" := "1768665601000" ]} |}.

Definition entry_with_uid : XMessage :=
  {| msg_ID := "1768665601000-1";
     msg_Values := {[ "uid" := "user-a" ]} |}.

(** The sample deployment with the broker refusing every message. *)
Definition broker_down : error := errors_New "Exception (504) Reason: channel/connection is not open".

Definition sample_world_broker_down : World :=
  {| clock := clock (sample_world []);
     tick := 0;
     catalog := catalog (sample_world []);
     orders := [];
     mq_down := Some broker_down;
     mq_delivered := [];
     stream_new := [];
     pel := [] |}.

(** ** Conditions on the order table *)

(** The two uniqueness constraints of table [orders]. *)
Definition table_ok (rows : list orderPO) : Prop :=
  NoDup (po_OrderID <$> rows)
  /\ NoDup ((fun r => (po_ProductID r, po_ReqID r)) <$> rows).

(** No stored row has the identifier or the [(product, request)] pair of
    [order]. *)
Definition no_conflict (order : Order) (rows : list orderPO) : Prop :=
  Forall (fun r => po_OrderID r <> o_ID order
                   /\ (po_ProductID r <> o_ProductID order
                       \/ po_ReqID r <> o_ReqID order)) rows.

(** The row [orderRepo.Create] builds from an order. *)
Definition row_of_order (order : Order) : orderPO :=
  {| po_OrderID := o_ID order;
     po_ProductID := o_ProductID order;
     po_Amount := o_Amount order;
     po_InstanceID :=
       if o_InstanceID order =? 0 then None else Some (o_InstanceID order);
     po_Status := o_Status order;
     po_CreatedAt := o_CreatedAt order;
     po_PaidAt := o_PaidAt order;
     po_CompletedAt := o_CompletedAt order;
     po_UserID := o_UserID order;
     po_ReqID := o_ReqID order |}.

(** The order [orderRepo.GetByID] builds from a row. *)
Definition order_of_row (po : orderPO) : Order :=
  {| o_ID := po_OrderID po;
     o_UserID := po_UserID po;
     o_ProductID := po_ProductID po;
     o_ReqID := po_ReqID po;
     o_Amount := po_Amount po;
     o_InstanceID := default 0 (po_InstanceID po);
     o_Status := po_Status po;
     o_CreatedAt := po_CreatedAt po;
     o_PaidAt := po_PaidAt po;
     o_CompletedAt := po_CompletedAt po |}.

(** An operation that keeps the uniqueness constraints of the table. *)
Definition keeps_table {A} (c : M A) : Prop :=
  forall w, table_ok (orders w) -> table_ok (orders (c w).2).

(** The [updates] map [orderRepo.UpdateStatus] builds at time [now]. *)
Definition status_updates (status : string) (now : Z) : gmap string colval :=
  let updates : gmap string colval := {[ "status" := ColString status ]} in
  let updates := if String.eqb status "PAID"
                 then <["paid_at" := ColNullTime now true]> updates else updates in
  if String.eqb status "COMPLETED"
  then <["completed_at" := ColNullTime now true]> updates else updates.

(** An order after its status was set to [status] at time [now]. *)
Definition order_after_update (order : Order) (status : string) (now : Z) : Order :=
  {| o_ID := o_ID order;
     o_UserID := o_UserID order;
     o_ProductID := o_ProductID order;
     o_ReqID := o_ReqID order;
     o_Amount := o_Amount order;
     o_InstanceID := o_InstanceID order;
     o_Status := status;
     o_CreatedAt := o_CreatedAt order;
     o_PaidAt := if String.eqb status "PAID" then Some now else o_PaidAt order;
     o_CompletedAt :=
       if String.eqb status "COMPLETED" then Some now else o_CompletedAt order |}.

(** The row [CreateInstance] hands to the repository. *)
Definition instance_row `{Externals} (productID : Z) (userID : string) (reqID : Z)
    (product : Product) (w : World) : orderPO :=
  let w0 := after_req reqID w in
  {| po_OrderID := instance_id_at (clock w (tick w0)) userID;
     po_ProductID := productID;
     po_Amount := prod_Price product;
     po_InstanceID := Some (instance_id_at (clock w (S (tick w0))) userID);
     po_Status := "PAID";
     po_CreatedAt := clock w (S (S (tick w0)));
     po_PaidAt := Some (clock w (S (S (tick w0))));
     po_CompletedAt := None;
     po_UserID := userID;
     po_ReqID := if reqID =? 0 then instance_id_at (clock w (tick w)) userID
                 else reqID |}.

(** A usable [uid] field. *)
Definition uid_present (msg : XMessage) (uid : string) : Prop :=
  msg_Values msg !! "uid" = Some uid /\ uid <> "" /\ uid <> "<nil>".

(** The pending list without the token [id]. *)
Definition without (id : string) (pending : list string) : list string :=
  List.filter (fun x => negb (String.eqb x id)) pending.

(** The instance state [buildInstanceInfo] derives from an order status. *)
Definition instance_status (order_status : string) : string :=
  if String.eqb order_status "PAID" then "CREATING"
  else if String.eqb order_status "COMPLETED" then "RUNNING"
  else if String.eqb order_status "CANCELLED" then "DELETED"
  else "UNKNOWN".

(** An instance record with another state. *)
Definition with_status (info : InstanceInfo) (status : string) : InstanceInfo :=
  {| ii_InstanceID := ii_InstanceID info;
     ii_UserID := ii_UserID info;
     ii_OrderID := ii_OrderID info;
     ii_ProductID := ii_ProductID info;
     ii_ProductName := ii_ProductName info;
     ii_Spec := ii_Spec info;
     ii_Status := status;
     ii_CreatedAt := ii_CreatedAt info |}.

(** ** Conditions on the seckill keys *)

(** The keys that belong to one sale; [InitSeckill] rewrites them. *)
Definition sale_keys : list string :=
  [keyStock; keyReqSeq; keyUID2ReqHash; keyCurrentProdID].

(** A sample Redis server in the middle of a sale. *)
Definition sample_redis : Redis :=
  {| rds_down := None;
     rds_keys := {[ keyCurrentProdID := RString "1001";
                    keyStock := RString "3";
                    keyReqSeq := RString "17";
                    keyUID2ReqHash := RHash {[ "user-a" := "17" ]};
                    keyStreamOrders := RStream [entry_with_uid] ]} |}.

(** The columns the product list can be sorted by. *)
Definition sort_columns : list string :=
  ["products.price"; "product_specs.cpu"; "product_specs.memory"; "product_specs.gpu"].

(** The generator after [n] calls of [next64]. *)
Fixpoint after_draws (n : nat) (r : XorShift64Star) : XorShift64Star :=
  match n with
  | O => r
  | S n => (next64 (after_draws n r)).2
  end.

(** The zero value of [v1.Product]. *)
Definition empty_product : v1_Product :=
  {| v1p_Id := 0; v1p_Name := ""; v1p_Description := ""; v1p_Status := 0;
     v1p_Price := 0; v1p_Spec := None |}.

(** A stand-in for [strings.TrimSpace] that strips blanks at the front. *)
Fixpoint trim_front (s : string) : string :=
  match s with
  | String c rest => if byte_of c =? 32 then trim_front rest else s
  | EmptyString => EmptyString
  end.

Definition sample_v1_product : v1_Product :=
  {| v1p_Id := 1001; v1p_Name := "basic"; v1p_Description := "entry level";
     v1p_Status := 1; v1p_Price := 9900;
     v1p_Spec := Some {| v1s_Cpu := 2; v1s_Memory := 4096; v1s_Gpu := 0;
                         v1s_Image := "ubuntu:22.04"; v1s_ConfigJson := "" |} |}.

(** * Properties *)

(** ** Machine integers *)

Lemma wrap64_range z : - 2 ^ 63 <= wrap64 z < 2 ^ 63.
Proof.
  unfold wrap64.
  pose proof (Z.mod_pos_bound (z + 2 ^ 63) (2 ^ 64) ltac:(lia)). lia.
Qed.

Lemma wrap64_small z : - 2 ^ 63 <= z < 2 ^ 63 -> wrap64 z = z.
Proof.
  intros Hz. unfold wrap64. rewrite Z.mod_small; lia.
Qed.

Lemma land_ones_range a k : 0 <= k -> 0 <= Z.land a (Z.ones k) < 2 ^ k.
Proof.
  intros Hk. rewrite Z.land_ones by lia. apply Z.mod_pos_bound. lia.
Qed.

Lemma shiftr_lor_low a h k :
  0 <= k -> 0 <= a -> 0 <= h < 2 ^ k ->
  Z.shiftr (Z.lor (Z.shiftl a k) h) k = a.
Proof.
  intros Hk Ha Hh.
  rewrite Z.shiftr_lor, Z.shiftr_shiftl_l, Z.sub_diag, Z.shiftl_0_r by lia.
  rewrite (Z.shiftr_div_pow2 h) by lia.
  rewrite Z.div_small by lia. apply Z.lor_0_r.
Qed.

(** ** The generators as functions of the clock reading *)

Section GeneratorFacts.
Context `{Externals}.

Lemma RandomBit3_run w : RandomBit3 w = (0, w).
Proof. reflexivity. Qed.

Lemma orderIDGenerator_Generate_run userID w :
  orderIDGenerator_Generate userID w =
  ((order_id_at (clock w (tick w)) userID, None), tick_once w).
Proof. reflexivity. Qed.

Lemma instanceIDGenerator_Generate_run uuid w :
  instanceIDGenerator_Generate uuid w =
  ((instance_id_at (clock w (tick w)) uuid, None), tick_once w).
Proof. reflexivity. Qed.

Lemma uid_hash_range s :
  0 <= wrap64 (Z.land (xxhash_Sum64String s) 0x7FFF) < 2 ^ 15.
Proof.
  pose proof (land_ones_range (xxhash_Sum64String s) 15 ltac:(lia)) as Hr.
  change (Z.ones 15) with 0x7FFF in Hr.
  rewrite wrap64_small; lia.
Qed.

Lemma relative_time_range x :
  0 <= Z.land x 0x3FFFFFFFFFFF < 2 ^ 46.
Proof.
  pose proof (land_ones_range x 46 ltac:(lia)) as Hr.
  change (Z.ones 46) with 0x3FFFFFFFFFFF in Hr. lia.
Qed.

Lemma order_id_at_nonneg nowMs userID : 0 <= order_id_at nowMs userID < 2 ^ 63.
Proof.
  unfold order_id_at, shl64.
  pose proof (relative_time_range (wrap64 (nowMs - EpochMsStart))) as Hr.
  pose proof (uid_hash_range userID) as Hh.
  set (r := Z.land _ 0x3FFFFFFFFFFF) in *.
  set (h := wrap64 (Z.land _ 0x7FFF)) in *.
  rewrite Z.shiftl_mul_pow2 by lia.
  rewrite wrap64_small by lia.
  split.
  - apply Z.lor_nonneg. lia.
  - destruct (Z.eq_dec (Z.lor (r * 2 ^ 15) h) 0) as [->|Hne]; [lia|].
    assert (0 <= Z.lor (r * 2 ^ 15) h) by (apply Z.lor_nonneg; lia).
    apply Z.log2_lt_pow2; [lia|].
    rewrite Z.log2_lor by lia.
    assert (Z.log2 (r * 2 ^ 15) < 63).
    { destruct (Z.eq_dec r 0) as [->|]; [simpl; lia|].
      apply Z.log2_lt_pow2; lia. }
    assert (Z.log2 h < 63).
    { destruct (Z.eq_dec h 0) as [->|]; [simpl; lia|].
      apply Z.log2_lt_pow2; lia. }
    lia.
Qed.

(** Inside the 46-bit window the timestamp can be read back from the
    identifier. *)
Lemma order_id_at_time nowMs userID :
  EpochMsStart <= nowMs < EpochMsStart + 2 ^ 46 ->
  Z.shiftr (order_id_at nowMs userID) 15 = nowMs - EpochMsStart.
Proof.
  intros Hw. unfold order_id_at, shl64.
  pose proof (uid_hash_range userID) as Hh.
  rewrite (wrap64_small (nowMs - EpochMsStart)) by lia.
  change 0x3FFFFFFFFFFF with (Z.ones 46).
  rewrite Z.land_ones, Z.mod_small by lia.
  rewrite wrap64_small.
  - apply shiftr_lor_low; lia.
  - rewrite Z.shiftl_mul_pow2 by lia. lia.
Qed.

Lemma order_id_at_inj t t' userID :
  EpochMsStart <= t < EpochMsStart + 2 ^ 46 ->
  EpochMsStart <= t' < EpochMsStart + 2 ^ 46 ->
  order_id_at t userID = order_id_at t' userID -> t = t'.
Proof.
  intros Ht Ht' Heq.
  apply (f_equal (fun z => Z.shiftr z 15)) in Heq.
  rewrite !order_id_at_time in Heq by assumption. lia.
Qed.

Lemma instance_id_at_negative nowMs uuid :
  - 2 ^ 60 <= nowMs - EpochMsStart < 0 -> instance_id_at nowMs uuid < 0.
Proof.
  intros Hw. unfold instance_id_at, shl64.
  rewrite (wrap64_small (nowMs - EpochMsStart)) by lia.
  rewrite (Z.shiftl_mul_pow2 (nowMs - EpochMsStart)) by lia.
  rewrite (wrap64_small ((nowMs - EpochMsStart) * 2 ^ 3)) by lia.
  rewrite Z.lor_0_r. apply Z.lor_neg. right. lia.
Qed.

Lemma instance_id_at_nonneg nowMs uuid :
  0 <= nowMs - EpochMsStart < 2 ^ 60 -> 0 <= instance_id_at nowMs uuid.
Proof.
  intros Hw. unfold instance_id_at, shl64.
  pose proof (uid_hash_range uuid) as Hh.
  set (h := wrap64 (Z.land _ 0x7FFF)) in *.
  rewrite (wrap64_small (nowMs - EpochMsStart)) by lia.
  rewrite !Z.shiftl_mul_pow2 by lia.
  rewrite !wrap64_small by lia.
  rewrite Z.lor_0_r. apply Z.lor_nonneg. lia.
Qed.

End GeneratorFacts.

(** ** The order table *)

Lemma db_Create_accepted po w :
  existsb (same_pkey po) (orders w) = false ->
  existsb (same_product_req po) (orders w) = false ->
  db_Create po w = (None, add_order po w).
Proof.
  intros Hpk Huq. unfold db_Create, mbind, M_bind, get. simpl.
  rewrite Hpk, Huq. reflexivity.
Qed.

Lemma db_Create_refused po w :
  existsb (same_pkey po) (orders w) || existsb (same_product_req po) (orders w) = true ->
  exists err, db_Create po w = (Some err, w)
              /\ isUniqueViolationError (Some err) = true.
Proof.
  intros Hc. unfold db_Create, mbind, M_bind, get. simpl.
  destruct (existsb (same_pkey po) (orders w)).
  - exists pkey_violation. split; reflexivity.
  - simpl in Hc. rewrite Hc. exists unique_violation. split; reflexivity.
Qed.

(** Whatever the outcome, an insert never removes or rewrites a row. *)
Lemma db_Create_cases po w :
  (db_Create po w = (None, add_order po w)
   /\ existsb (same_pkey po) (orders w) = false
   /\ existsb (same_product_req po) (orders w) = false)
  \/ (exists err, db_Create po w = (Some err, w)
                  /\ isUniqueViolationError (Some err) = true).
Proof.
  destruct (existsb (same_pkey po) (orders w)) eqn:Hpk.
  - right. apply db_Create_refused. rewrite Hpk. reflexivity.
  - destruct (existsb (same_product_req po) (orders w)) eqn:Huq.
    + right. apply db_Create_refused. rewrite Hpk, Huq. reflexivity.
    + left. split; [|split]; try reflexivity. apply db_Create_accepted; assumption.
Qed.

Lemma rows_for_none productID reqID rows :
  existsb (fun r => (po_ProductID r =? productID) && (po_ReqID r =? reqID)) rows = false ->
  rows_for productID reqID rows = [].
Proof.
  unfold rows_for. induction rows as [|r rows IH]; simpl; [reflexivity|].
  intros Hx. apply orb_false_iff in Hx as [Hr Hrest].
  rewrite Hr. apply IH, Hrest.
Qed.

Lemma rows_for_app productID reqID rows rows' :
  rows_for productID reqID (rows ++ rows') =
  rows_for productID reqID rows ++ rows_for productID reqID rows'.
Proof. unfold rows_for. induction rows; simpl; [reflexivity|]. destruct (_ && _); simpl; congruence. Qed.

(** ** The publisher *)

Section PublisherFacts.
Context `{Externals}.

Lemma PublishInstanceCreated_noop spec w :
  PublishInstanceCreated noopMQPublisher spec w = (None, w).
Proof. reflexivity. Qed.

Lemma PublishInstanceCreated_step p spec w :
  publish_step w (PublishInstanceCreated p spec w).2.
Proof.
  destruct p as [exchange|]; simpl.
  - unfold mbind, M_bind. simpl.
    destruct (proto_Marshal _) as [err|body]; simpl.
    + split; simpl; try reflexivity; lia.
    + unfold channel_PublishWithContext, mbind, M_bind, get. simpl.
      destruct (mq_down w) eqn:Hdown; simpl; split; simpl;
        try reflexivity; try lia; symmetry; assumption.
  - split; simpl; try reflexivity; lia.
Qed.

(** The real publisher, spelled out. *)
Lemma PublishInstanceCreated_real exchange spec w :
  let event := instance_created_event spec (clock w (tick w)) in
  PublishInstanceCreated (mqPublisher exchange) spec w =
  match proto_Marshal event with
  | inl err => (Some err, tick_once w)
  | inr body =>
      match mq_down w with
      | Some err => (Some err, tick_once (tick_once w))
      | None =>
          (None,
           (set_delivered
              (mq_delivered w ++
                 [{| pub_Exchange := exchange;
                     pub_RoutingKey := "instance.created";
                     pub_ContentType := "application/octet-stream";
                     pub_Body := body;
                     pub_DeliveryMode := amqp_Persistent;
                     pub_Timestamp := clock w (S (tick w)) |}])
              (tick_once (tick_once w))).2)
      end
  end.
Proof.
  simpl. unfold mbind, M_bind. simpl.
  destruct (proto_Marshal _) as [err|body]; [reflexivity|].
  unfold channel_PublishWithContext, mbind, M_bind, get. simpl.
  destruct (mq_down w) eqn:Hdown; simpl; rewrite <- ?Hdown; reflexivity.
Qed.

End PublisherFacts.

(** ** The commit operation *)

(** Both ways into step 2: with a request number given, or minted. *)
Ltac req_cases reqID := unfold after_req; destruct (reqID =? 0).

Section CommitFacts.
Context `{Externals}.

Lemma CreateOrder_lookup_failed p productID userID reqID w err :
  catalog w productID = inl err ->
  CreateOrder (wired_OrderUsecase p) productID userID reqID w =
  ((0, 0, Some err), after_req reqID w).
Proof.
  intros Hc. unfold CreateOrder, after_req, mbind, M_bind. simpl.
  destruct (reqID =? 0); simpl; unfold mbind, M_bind; simpl;
    rewrite Hc; reflexivity.
Qed.

Lemma CreateOrder_disabled p productID userID reqID w product :
  catalog w productID = inr product ->
  prod_Status product <> "ENABLED" ->
  CreateOrder (wired_OrderUsecase p) productID userID reqID w =
  ((0, 0, Some ErrProductDisabled), after_req reqID w).
Proof.
  intros Hc Hs. apply String.eqb_neq in Hs.
  unfold CreateOrder, after_req, mbind, M_bind. simpl.
  destruct (reqID =? 0); simpl; unfold mbind, M_bind; simpl;
    rewrite Hc, Hs; reflexivity.
Qed.

Lemma CreateOrder_no_spec p productID userID reqID w product :
  catalog w productID = inr product ->
  prod_Status product = "ENABLED" ->
  prod_Spec product = None ->
  CreateOrder (wired_OrderUsecase p) productID userID reqID w =
  ((0, 0, Some ErrSpecNotFound), after_req reqID w).
Proof.
  intros Hc Hs Hn. apply String.eqb_eq in Hs.
  unfold CreateOrder, after_req, mbind, M_bind. simpl.
  destruct (reqID =? 0); simpl; unfold mbind, M_bind; simpl;
    rewrite Hc, Hs, Hn; reflexivity.
Qed.

(** Steps 3 to 6 for a sellable product. *)
Lemma CreateOrder_enabled p productID userID reqID w product product_Spec :
  catalog w productID = inr product ->
  prod_Status product = "ENABLED" ->
  prod_Spec product = Some product_Spec ->
  let w3 := tick_once (tick_once (tick_once (after_req reqID w))) in
  let row := order_row productID userID reqID product w in
  CreateOrder (wired_OrderUsecase p) productID userID reqID w =
  match db_Create row w3 with
  | (Some err, w4) => ((0, 0, Some err), w4)
  | (None, w4) =>
      match PublishInstanceCreated p (order_spec userID reqID product product_Spec w) w4 with
      | (Some err, w5) => ((0, 0, Some err), w5)
      | (None, w5) => ((po_OrderID row, is_InstanceID
                          (order_spec userID reqID product product_Spec w), None), w5)
      end
  end.
Proof.
  intros Hc Hs Hsp. apply String.eqb_eq in Hs.
  unfold CreateOrder, after_req, order_row, order_spec, stored_req, after_req,
    mbind, M_bind.
  simpl.
  destruct (reqID =? 0); simpl; unfold mbind, M_bind; simpl;
    rewrite Hc, Hs, Hsp; simpl;
    unfold orderRepo_Create, mbind, M_bind; simpl.
  - destruct (db_Create _ _) as [[err|] w4]; simpl; [reflexivity|].
    destruct (PublishInstanceCreated _ _ _) as [[err|] w5]; reflexivity.
  - destruct (db_Create _ _) as [[err|] w4]; simpl; [reflexivity|].
    destruct (PublishInstanceCreated _ _ _) as [[err|] w5]; reflexivity.
Qed.

End CommitFacts.

(** ** Committing the same request twice *)

Section Idempotency.
Context `{Externals}.

Lemma after_req_nonzero reqID w : reqID <> 0 -> after_req reqID w = w.
Proof. intros Hr. unfold after_req. apply Z.eqb_neq in Hr. rewrite Hr. reflexivity. Qed.

Lemma stored_req_nonzero reqID userID w :
  reqID <> 0 -> stored_req reqID userID w = reqID.
Proof. intros Hr. unfold stored_req. apply Z.eqb_neq in Hr. rewrite Hr. reflexivity. Qed.

(** A successful commit: the product was on sale, the row was appended
    to the table and nothing else of the table changed. *)
Lemma CreateOrder_success_inv p productID userID reqID w orderID instanceID w1 :
  CreateOrder (wired_OrderUsecase p) productID userID reqID w
    = ((orderID, instanceID, None), w1) ->
  exists product product_Spec,
    catalog w productID = inr product
    /\ prod_Status product = "ENABLED"
    /\ prod_Spec product = Some product_Spec
    /\ let row := order_row productID userID reqID product w in
       let w4 := add_order row (tick_once (tick_once (tick_once (after_req reqID w)))) in
       existsb (same_product_req row) (orders w) = false
       /\ PublishInstanceCreated p (order_spec userID reqID product product_Spec w) w4
          = (None, w1)
       /\ orderID = po_OrderID row
       /\ instanceID = is_InstanceID (order_spec userID reqID product product_Spec w)
       /\ orders w1 = orders w ++ [row]
       /\ catalog w1 = catalog w.
Proof.
  intros Hrun.
  destruct (catalog w productID) as [err|product] eqn:Hc.
  { rewrite (CreateOrder_lookup_failed _ _ _ _ _ _ Hc) in Hrun. discriminate. }
  destruct (decide (prod_Status product = "ENABLED")) as [Hs|Hs];
    [|rewrite (CreateOrder_disabled _ _ _ _ _ _ Hc Hs) in Hrun; discriminate].
  destruct (prod_Spec product) as [product_Spec|] eqn:Hsp;
    [|rewrite (CreateOrder_no_spec _ _ _ _ _ _ Hc Hs Hsp) in Hrun; discriminate].
  exists product, product_Spec. repeat split; try assumption.
  all: rewrite (CreateOrder_enabled _ _ _ _ _ _ _ Hc Hs Hsp) in Hrun; cbv zeta in Hrun.
  all: destruct (db_Create_cases (order_row productID userID reqID product w)
         (tick_once (tick_once (tick_once (after_req reqID w)))))
         as [(Hdb & Hpk & Huq)|(err & Hdb & _)];
       rewrite Hdb in Hrun; [|discriminate].
  all: destruct (PublishInstanceCreated p _ _) as [[err|] w5] eqn:Hpub;
       [discriminate|]; inversion Hrun; subst; clear Hrun.
  all: pose proof (PublishInstanceCreated_step p
         (order_spec userID reqID product product_Spec w)
         (add_order (order_row productID userID reqID product w)
            (tick_once (tick_once (tick_once (after_req reqID w)))))) as Hstep;
       rewrite Hpub in Hstep; simpl in Hstep;
       destruct Hstep as [_ _ Hcat Hord _ _ _].
  - unfold after_req in Huq. destruct (reqID =? 0); exact Huq.
  - reflexivity.
  - reflexivity.
  - reflexivity.
  - rewrite Hord. req_cases reqID; reflexivity.
  - rewrite Hcat. req_cases reqID; reflexivity.
Qed.

(** A commit for a sellable product whose key is already stored is
    refused by the table and changes no row. *)
Lemma CreateOrder_duplicate p productID userID reqID w product product_Spec :
  catalog w productID = inr product ->
  prod_Status product = "ENABLED" ->
  prod_Spec product = Some product_Spec ->
  existsb (same_product_req (order_row productID userID reqID product w)) (orders w)
    = true ->
  exists err w2,
    CreateOrder (wired_OrderUsecase p) productID userID reqID w = ((0, 0, Some err), w2)
    /\ isUniqueViolationError (Some err) = true
    /\ orders w2 = orders w
    /\ mq_delivered w2 = mq_delivered w.
Proof.
  intros Hc Hs Hsp Hdup.
  rewrite (CreateOrder_enabled _ _ _ _ _ _ _ Hc Hs Hsp). cbv zeta.
  destruct (db_Create_refused (order_row productID userID reqID product w)
              (tick_once (tick_once (tick_once (after_req reqID w)))))
    as (err & Hdb & Herr).
  { apply orb_true_iff. right.
    req_cases reqID; exact Hdup. }
  rewrite Hdb. exists err, (tick_once (tick_once (tick_once (after_req reqID w)))).
  repeat split; try assumption; req_cases reqID; reflexivity.
Qed.

(** C1 (as the code has it).  When [CreateOrder] has succeeded for
    [(productID, userID, reqID)] with [reqID <> 0], a second call with the
    same inputs does not read the stored order back: it returns
    [(0, 0, err)] where [err] is the table's duplicate-key error, and the
    table keeps exactly one row for [(productID, reqID)].  It is the
    stream handler that turns this error into success: for an entry token
    hashing to [reqID], [HandleSeckillOrder] returns [nil] and leaves the
    table as it is. *)
Theorem CreateOrder_repeat_is_refused p productID userID reqID w orderID instanceID w1 :
  reqID <> 0 ->
  CreateOrder (wired_OrderUsecase p) productID userID reqID w
    = ((orderID, instanceID, None), w1) ->
  (exists err w2,
     CreateOrder (wired_OrderUsecase p) productID userID reqID w1 = ((0, 0, Some err), w2)
     /\ isUniqueViolationError (Some err) = true
     /\ orders w2 = orders w1
     /\ length (rows_for productID reqID (orders w2)) = 1%nat)
  /\ (forall streamID, hashStreamID streamID = reqID ->
      exists w3,
        HandleSeckillOrder (wired_OrderUsecase p) productID streamID userID w1 = (None, w3)
        /\ orders w3 = orders w1).
Proof.
  intros Hreq Hrun.
  destruct (CreateOrder_success_inv _ _ _ _ _ _ _ _ Hrun)
    as (product & product_Spec & Hc & Hs & Hsp & Hfresh & _ & _ & _ & Hord & Hcat).
  assert (Hkey : forall w', po_ProductID (order_row productID userID reqID product w') = productID
                 /\ po_ReqID (order_row productID userID reqID product w') = reqID).
  { intros w'. split; [reflexivity|]. simpl. apply stored_req_nonzero, Hreq. }
  assert (Hdup : existsb (same_product_req (order_row productID userID reqID product w1))
                   (orders w1) = true).
  { rewrite Hord, existsb_app. apply orb_true_iff. right. cbn [existsb].
    unfold same_product_req.
    destruct (Hkey w) as [-> ->]. destruct (Hkey w1) as [-> ->].
    rewrite !Z.eqb_refl. reflexivity. }
  assert (Hc1 : catalog w1 productID = inr product) by (rewrite Hcat; exact Hc).
  destruct (CreateOrder_duplicate p _ _ _ _ _ _ Hc1 Hs Hsp Hdup)
    as (err & w2 & Hrun2 & Herr & Hord2 & _).
  split.
  - exists err, w2. repeat split; try assumption.
    rewrite Hord2, Hord, rows_for_app.
    rewrite (rows_for_none productID reqID (orders w)).
    + unfold rows_for. cbn [List.filter].
      destruct (Hkey w) as [-> ->]. rewrite !Z.eqb_refl. reflexivity.
    + rewrite <- Hfresh. unfold same_product_req.
      destruct (Hkey w) as [-> ->]. reflexivity.
  - intros streamID Hhash. exists w2.
    unfold HandleSeckillOrder, CreateOrderFromSeckill, mbind, M_bind.
    rewrite Hhash, Hrun2, Herr. split; [reflexivity|assumption].
Qed.

End Idempotency.

(** C1, counterexample to the property as the specification states it:
    on the sample deployment the second
    commit of request 7 for product 1001 returns [(0, 0, err)] and not the
    identifiers of the first commit. *)
Lemma CreateOrder_repeat_counterexample :
  let uc := @wired_OrderUsecase sample_libs (mqPublisher sample_exchange) in
  let '(r1, w1) := CreateOrder uc 1001 "user-a" 7 (sample_world []) in
  let '(r2, w2) := CreateOrder uc 1001 "user-a" 7 w1 in
  r1 = (32786854, 5306929210902716232, None)
  /\ r2 = (0, 0, Some unique_violation)
  /\ r2 <> r1
  /\ length (orders w2) = 1%nat.
Proof. vm_compute. repeat split. discriminate. Qed.

(** The theorem at work on the sample deployment. *)
Lemma CreateOrder_repeat_is_refused_witness :
  let uc := @wired_OrderUsecase sample_libs (mqPublisher sample_exchange) in
  let w1 := (CreateOrder uc 1001 "user-a" 7 (sample_world [])).2 in
  7 <> 0
  /\ exists err w2,
       CreateOrder uc 1001 "user-a" 7 w1 = ((0, 0, Some err), w2)
       /\ isUniqueViolationError (Some err) = true
       /\ orders w2 = orders w1
       /\ length (rows_for 1001 7 (orders w2)) = 1%nat.
Proof.
  intros uc w1. split; [lia|].
  apply (@CreateOrder_repeat_is_refused sample_libs (mqPublisher sample_exchange)
           1001 "user-a" 7 (sample_world []) 32786854 5306929210902716232 w1).
  - lia.
  - vm_compute. reflexivity.
Defined.

(** ** Entries without a user identifier *)

Lemma consumeMessage_skip s msg w :
  uid_missing msg -> consumeMessage s msg w = (tt, w).
Proof.
  unfold consumeMessage. intros [Hu|[Hu|Hu]]; rewrite Hu; reflexivity.
Qed.

Lemma reclaimMessage_skip s msg w :
  uid_missing msg -> reclaimMessage s msg w = (tt, w).
Proof.
  unfold reclaimMessage. intros [Hu|[Hu|Hu]]; rewrite Hu; reflexivity.
Qed.

(** When the handler fails, the entry is not acknowledged either: the
    world the consumer goes on with is the one the handler left. *)
Lemma consumeMessage_handler_error s msg w uid err w' :
  msg_Values msg !! "uid" = Some uid ->
  uid <> "" -> uid <> "<nil>" ->
  srv_handler s (msg_ID msg) uid w = (Some err, w') ->
  consumeMessage s msg w = (tt, w').
Proof.
  intros Hu Hne Hnil Hrun. unfold consumeMessage, mbind, M_bind.
  rewrite Hu. simpl.
  apply String.eqb_neq in Hne, Hnil. rewrite Hne, Hnil. simpl.
  rewrite Hrun. reflexivity.
Qed.

(** C2 (as the code has it).  An entry whose [uid] field is missing,
    empty or [<nil>] is skipped by the consume loop (and by the reclaim
    loop): the handler is not called, whatever it is, and no [XAck] is
    issued.  After the round that read it from the stream the entry is in
    the pending list, and orders and published messages are as before. *)
Theorem consumeLoop_skips_entry_without_uid s msg :
  uid_missing msg ->
  (forall w, consumeMessage s msg w = (tt, w) /\ reclaimMessage s msg w = (tt, w))
  /\ (forall w, stream_new w = [msg] -> (0 < srv_count s)%nat ->
        let w' := (consumeLoop s 1 w).2 in
        pel w' = pel w ++ [msg_ID msg]
        /\ stream_new w' = []
        /\ orders w' = orders w
        /\ mq_delivered w' = mq_delivered w).
Proof.
  intros Hu. split.
  - intros w. split; [apply consumeMessage_skip | apply reclaimMessage_skip]; exact Hu.
  - intros w Hnew Hcount.
    destruct (srv_count s) as [|n] eqn:Hn; [lia|].
    unfold consumeLoop, XReadGroup, mbind, M_bind, get. simpl.
    rewrite Hnew, Hn. simpl. rewrite take_nil, drop_nil. simpl.
    unfold mbind, M_bind. rewrite consumeMessage_skip by exact Hu.
    simpl. repeat split.
Qed.

(** ** The rotating counter *)

(** C3 (code defect).  [RandomBit3] declares its counter inside the
    function, so every call starts from zero: [n] successive calls all
    return 0 instead of [0, 1, 2, ...], and two instance identifiers
    minted for the same key within one millisecond are equal. *)
Theorem RandomBit3_never_rotates `{Externals} :
  (forall n w, (calls n RandomBit3 w).1 = replicate n 0)
  /\ (forall w, (calls 2 RandomBit3 w).1 = [0; 0])
  /\ (forall uuid t w,
        let '(a, w1) := instanceIDGenerator_Generate uuid (frozen_at t w) in
        let '(b, _) := instanceIDGenerator_Generate uuid w1 in
        a = b).
Proof.
  split; [|split].
  - induction n as [|n IH]; intros w; [reflexivity|].
    simpl. unfold mbind, M_bind. rewrite RandomBit3_run.
    specialize (IH w). destruct (calls n RandomBit3 w) as [rest w'].
    simpl in *. rewrite IH. reflexivity.
  - intros w. reflexivity.
  - intros uuid t w. rewrite !instanceIDGenerator_Generate_run. reflexivity.
Qed.

(** ** Sign of the identifiers *)

(** C4 (code defect).  The order-identifier generator masks the
    timestamp to 46 bits and is non-negative for every key and every
    clock reading.  The instance-identifier generator shifts the
    unmasked difference to the epoch: with the clock at 0, that is before
    [EpochMsStart], the identifier is negative for every key. *)
Theorem instance_id_negative_before_epoch `{Externals} :
  (forall userID w, 0 <= (orderIDGenerator_Generate userID w).1.1)
  /\ (forall uuid w, (instanceIDGenerator_Generate uuid (frozen_at 0 w)).1.1 < 0).
Proof.
  split.
  - intros userID w. rewrite orderIDGenerator_Generate_run. simpl.
    apply order_id_at_nonneg.
  - intros uuid w. rewrite instanceIDGenerator_Generate_run. simpl.
    apply instance_id_at_negative. unfold EpochMsStart. lia.
Qed.

(** ** Status updates *)

Lemma apply_updates_status (updates : gmap string colval) status r :
  updates !! "status" = Some (ColString status) ->
  po_Status (apply_updates updates r) = status.
Proof. intros Hu. simpl. rewrite Hu. reflexivity. Qed.

(** The status column after [Updates] with a map that sets it. *)
Lemma db_Updates_status orderID (updates : gmap string colval) status w :
  updates !! "status" = Some (ColString status) ->
  db_Updates orderID updates w =
  (None, (set_orders
            (List.map (fun r => if po_OrderID r =? orderID
                                then apply_updates updates r else r) (orders w)) w).2)
  /\ List.map po_Status (orders (db_Updates orderID updates w).2) =
     List.map (fun r => if po_OrderID r =? orderID then status else po_Status r)
       (orders w)
  /\ List.map po_OrderID (orders (db_Updates orderID updates w).2) =
     List.map po_OrderID (orders w).
Proof.
  intros Hu. split; [reflexivity|]. simpl. rewrite !List.map_map. split.
  - apply List.map_ext. intros r.
    destruct (po_OrderID r =? orderID); [apply apply_updates_status, Hu|reflexivity].
  - apply List.map_ext. intros r.
    destruct (po_OrderID r =? orderID); reflexivity.
Qed.



(** ** Running the consumer on the sample deployment *)

(** C2, counterexample to the property as the specification states it:
    after one round over a stream
    holding an entry without [uid] followed by a well-formed one, the
    well-formed entry has produced an order and has been acknowledged,
    while the entry without [uid] is still pending. *)
Lemma consumeLoop_leaves_entry_pending_counterexample :
  let uc := @wired_OrderUsecase sample_libs (mqPublisher sample_exchange) in
  let s := NewSeckillStreamServer (HandleSeckillOrder uc 1001) 1001 in
  let w := (set_stream [entry_without_uid; entry_with_uid] [] (sample_world [])).2 in
  let w' := (consumeLoop s 1 w).2 in
  pel w' = ["1768665601000-0"] /\ List.map po_UserID (orders w') = ["user-a"].
Proof. vm_compute. split; reflexivity. Qed.

(** The theorem at work on a stream holding only the entry without
    [uid]. *)
Lemma consumeLoop_skips_entry_without_uid_witness :
  let uc := @wired_OrderUsecase sample_libs (mqPublisher sample_exchange) in
  let s := NewSeckillStreamServer (HandleSeckillOrder uc 1001) 1001 in
  let w := (set_stream [entry_without_uid] [] (sample_world [])).2 in
  uid_missing entry_without_uid
  /\ pel (consumeLoop s 1 w).2 = pel w ++ [msg_ID entry_without_uid].
Proof.
  intros uc s w.
  assert (Hu : uid_missing entry_without_uid) by (left; vm_compute; reflexivity).
  split; [exact Hu|].
  destruct (consumeLoop_skips_entry_without_uid s entry_without_uid Hu) as [_ Hloop].
  apply (Hloop w); [reflexivity | simpl; lia].
Defined.

(** ** A failing publish step *)

Section PublishFailure.
Context `{Externals}.

(** A product that is not on sale stops the commit before anything is
    stored or published. *)
Lemma CreateOrder_rejects_disabled p productID userID reqID w product :
  catalog w productID = inr product ->
  prod_Status product <> "ENABLED" ->
  exists w',
    CreateOrder (wired_OrderUsecase p) productID userID reqID w
      = ((0, 0, Some ErrProductDisabled), w')
    /\ orders w' = orders w
    /\ mq_delivered w' = mq_delivered w.
Proof.
  intros Hc Hs. exists (after_req reqID w).
  rewrite (CreateOrder_disabled _ _ _ _ _ _ Hc Hs).
  req_cases reqID; repeat split.
Qed.

(** C5.  When the row of a commit has been stored and the publish step
    then returns an error, [CreateOrder] returns [(0, 0, err)] with that
    very error, and the table is the old table followed by the new row,
    in status PAID: nothing is rolled back. *)
Theorem CreateOrder_publish_error_keeps_order
    p productID userID reqID w product product_Spec err :
  catalog w productID = inr product ->
  prod_Status product = "ENABLED" ->
  prod_Spec product = Some product_Spec ->
  let row := order_row productID userID reqID product w in
  let stored := add_order row (tick_once (tick_once (tick_once (after_req reqID w)))) in
  let publish := PublishInstanceCreated p
                   (order_spec userID reqID product product_Spec w) stored in
  existsb (same_pkey row) (orders w) = false ->
  existsb (same_product_req row) (orders w) = false ->
  publish.1 = Some err ->
  CreateOrder (wired_OrderUsecase p) productID userID reqID w = ((0, 0, Some err), publish.2)
  /\ orders publish.2 = orders w ++ [row]
  /\ po_Status row = "PAID"
  /\ po_ProductID row = productID
  /\ po_UserID row = userID.
Proof.
  intros Hc Hs Hsp row stored publish Hpk Huq Hpub.
  assert (Hstore : orders stored = orders w ++ [row]).
  { unfold stored, add_order, after_req. destruct (reqID =? 0); reflexivity. }
  split; [|split; [|repeat split]].
  - rewrite (CreateOrder_enabled _ _ _ _ _ _ _ Hc Hs Hsp). cbv zeta.
    rewrite db_Create_accepted.
    + fold row. fold stored. fold publish.
      destruct publish as [[e|] w5]; simpl in *; [congruence|discriminate].
    + req_cases reqID; exact Hpk.
    + req_cases reqID; exact Huq.
  - pose proof (PublishInstanceCreated_step p
                  (order_spec userID reqID product product_Spec w) stored) as Hstep.
    fold publish in Hstep. destruct Hstep as [_ _ _ Hord _ _ _].
    rewrite Hord. exact Hstore.
Qed.

End PublishFailure.

(** The theorem at work: request 7 for product 1001 while the broker
    refuses every message. *)
Lemma CreateOrder_publish_error_keeps_order_witness :
  let uc := @wired_OrderUsecase sample_libs (mqPublisher sample_exchange) in
  let '(r, w') := CreateOrder uc 1001 "user-a" 7 sample_world_broker_down in
  r = (0, 0, Some broker_down)
  /\ List.map po_Status (orders w') = ["PAID"].
Proof.
  pose proof (@CreateOrder_publish_error_keeps_order sample_libs
                (mqPublisher sample_exchange) 1001 "user-a" 7 sample_world_broker_down
                (sample_product 1001 "ENABLED" []) (sample_spec []) broker_down
                eq_refl eq_refl eq_refl eq_refl eq_refl eq_refl) as (Hrun & Hord & _).
  cbv zeta. rewrite Hrun. split; [reflexivity|].
  rewrite Hord. reflexivity.
Defined.

(** ** Products that are not on sale *)

(** C7 (code defect).  [CreateOrder] checks the product status and
    rejects the withdrawn product 2002 with [ErrProductDisabled], storing
    and publishing nothing.  [CreateInstance] has no such check: for the
    same product it returns [nil], stores a PAID order and publishes the
    event. *)
Theorem CreateInstance_sells_disabled_product :
  let p := mqPublisher sample_exchange in
  let '(r, w) := CreateOrder (@wired_OrderUsecase sample_libs p) 2002 "user-a" 7
                   (sample_world []) in
  let '(err', w') := CreateInstance (@wired_InstanceUsecase sample_libs p) 2002 "user-a" 7
                       (sample_world []) in
  (r = (0, 0, Some ErrProductDisabled)
   /\ orders w = [] /\ mq_delivered w = [])
  /\ (err' = None
      /\ List.map po_ProductID (orders w') = [2002]
      /\ List.map po_Status (orders w') = ["PAID"]
      /\ List.map pub_RoutingKey (mq_delivered w') = ["instance.created"]).
Proof. vm_compute. repeat split. Qed.

(** ** What the event carries *)

Section EventContents.
Context `{Externals}.

(** C8 (as the code has it).  The message published for a successful
    commit is the encoding of an event made of the type tag, the returned
    instance identifier, the user, the product name, the CPU, memory and
    GPU counts and the image of the product's specification, and a clock
    reading; it is sent persistent under the routing key
    [instance.created].  The extension payload [ConfigJSON] is not part of
    the event. *)
Theorem CreateOrder_event_contents
    exchange productID userID reqID w orderID instanceID w1 product product_Spec :
  catalog w productID = inr product ->
  prod_Spec product = Some product_Spec ->
  CreateOrder (wired_OrderUsecase (mqPublisher exchange)) productID userID reqID w
    = ((orderID, instanceID, None), w1) ->
  exists timestamp body sent_at,
    proto_Marshal
      {| ev_EventType := "INSTANCE_CREATED";
         ev_InstanceId := instanceID;
         ev_Timestamp := timestamp;
         ev_UserId := userID;
         ev_Name := prod_Name product;
         ev_Spec := {| mq_Cpus := spec_CPU product_Spec;
                       mq_MemoryMb := spec_Memory product_Spec;
                       mq_Gpu := spec_GPU product_Spec;
                       mq_Image := spec_Image product_Spec |} |} = inr body
    /\ mq_delivered w1 =
       mq_delivered w ++
         [{| pub_Exchange := exchange;
             pub_RoutingKey := "instance.created";
             pub_ContentType := "application/octet-stream";
             pub_Body := body;
             pub_DeliveryMode := amqp_Persistent;
             pub_Timestamp := sent_at |}].
Proof.
  intros Hc Hsp Hrun.
  destruct (CreateOrder_success_inv _ _ _ _ _ _ _ _ Hrun)
    as (product' & product_Spec' & Hc' & _ & Hsp' & _ & Hpub & _ & Hinst & _ & _).
  rewrite Hc in Hc'. injection Hc' as <-.
  rewrite Hsp in Hsp'. injection Hsp' as <-.
  rewrite PublishInstanceCreated_real in Hpub. cbv zeta in Hpub.
  destruct (proto_Marshal _) as [e|body] eqn:Hm; [discriminate|].
  match type of Hpub with
  | match mq_down ?w4 with _ => _ end = _ =>
      destruct (mq_down w4) eqn:Hdown; [discriminate|]
  end.
  injection Hpub as <-. subst instanceID.
  unfold after_req in *.
  destruct (reqID =? 0); eexists _, body, _; (split; [exact Hm|reflexivity]).
Qed.

End EventContents.

(** C8, counterexample to the property as the specification states it:
    two deployments whose product
    specifications differ only in [ConfigJSON] publish identical
    messages for the same commit. *)
Lemma event_omits_config_counterexample :
  let uc := @wired_OrderUsecase sample_libs (mqPublisher sample_exchange) in
  let wa := (CreateOrder uc 1001 "user-a" 7 (sample_world [123; 125])).2 in
  let wb := (CreateOrder uc 1001 "user-a" 7 (sample_world [])).2 in
  spec_ConfigJSON (sample_spec [123; 125]) <> spec_ConfigJSON (sample_spec [])
  /\ mq_delivered wa = mq_delivered wb
  /\ length (mq_delivered wa) = 1%nat.
Proof. vm_compute. repeat split. discriminate. Qed.

(** The theorem at work on the sample deployment. *)
Lemma CreateOrder_event_contents_witness :
  let uc := @wired_OrderUsecase sample_libs (mqPublisher sample_exchange) in
  let w1 := (CreateOrder uc 1001 "user-a" 7 (sample_world [123; 125])).2 in
  exists body sent_at,
    mq_delivered w1 =
      [{| pub_Exchange := sample_exchange;
          pub_RoutingKey := "instance.created";
          pub_ContentType := "application/octet-stream";
          pub_Body := body;
          pub_DeliveryMode := amqp_Persistent;
          pub_Timestamp := sent_at |}].
Proof.
  intros uc w1.
  destruct (@CreateOrder_event_contents sample_libs sample_exchange 1001 "user-a" 7
              (sample_world [123; 125]) 32786854 5306929210902716232 w1
              (sample_product 1001 "ENABLED" [123; 125]) (sample_spec [123; 125]))
    as (timestamp & body & sent_at & _ & Hsent).
  - reflexivity.
  - reflexivity.
  - vm_compute. reflexivity.
  - exists body, sent_at. exact Hsent.
Defined.

(** ** The degraded publisher *)

(** C9.  A publisher built while the broker is unconfigured or
    unreachable is the no-op publisher, and the no-op publisher returns
    [nil] for every event and touches nothing. *)
Theorem degraded_publisher_returns_nil `{Externals} c broker :
  startup_degraded c broker ->
  NewMQPublisher c broker = (noopMQPublisher, None)
  /\ forall spec w,
       PublishInstanceCreated (NewMQPublisher c broker).1 spec w = (None, w).
Proof.
  intros Hd.
  assert (Hnoop : NewMQPublisher c broker = (noopMQPublisher, None)).
  { unfold NewMQPublisher.
    destruct (c ≫= Rabbitmq) as [rmq|] eqn:Hc; [|reflexivity].
    destruct (String.eqb_spec (rmq_Url rmq) "") as [Hurl|Hurl]; [reflexivity|].
    destruct (dial_err broker) eqn:H1; [reflexivity|].
    destruct (channel_err broker) eqn:H2; [reflexivity|].
    destruct (exchange_declare_err broker) eqn:H3; [reflexivity|].
    destruct (queue_declare_err broker) eqn:H4; [reflexivity|].
    destruct (queue_bind_err broker) eqn:H5; [reflexivity|].
    destruct Hd as [Hd|[(rmq' & Hd & Hu)|[Hd|[Hd|[Hd|[Hd|Hd]]]]]];
      try congruence; destruct Hd; congruence. }
  split; [exact Hnoop|].
  intros spec w. rewrite Hnoop. reflexivity.
Qed.

(** The theorem at work: the broker refuses the connection. *)
Lemma degraded_publisher_returns_nil_witness :
  let broker := {| dial_err := Some (errors_New "dial tcp: connection refused");
                   channel_err := None; exchange_declare_err := None;
                   queue_declare_err := None; queue_bind_err := None |} in
  let c := Some {| Rabbitmq := Some {| rmq_Url := "amqp://guest:guest@mq:5672/";
                                       rmq_Exchange := sample_exchange;
                                       rmq_Queue := "resource.instance.created" |} |} in
  startup_degraded c broker
  /\ NewMQPublisher c broker = (noopMQPublisher, None).
Proof.
  intros broker c.
  assert (Hd : startup_degraded c broker).
  { right. right. left. simpl. eexists. reflexivity. }
  split; [exact Hd|].
  apply (@degraded_publisher_returns_nil sample_libs c broker Hd).
Defined.

(** ** Entry tokens whose hash is zero *)

Lemma predates_no_clash productID bound rows row :
  Forall (predates productID bound) rows ->
  po_ProductID row = productID ->
  bound <= po_OrderID row ->
  bound <= po_ReqID row ->
  existsb (same_pkey row) rows = false
  /\ existsb (same_product_req row) rows = false.
Proof.
  intros Hall Hp Ho Hr.
  induction Hall as [|r rows [Hro Hrr] _ [IHpk IHuq]]; [split; reflexivity|].
  simpl. rewrite IHpk, IHuq, !orb_false_r. unfold same_pkey, same_product_req.
  split.
  - apply Z.eqb_neq. lia.
  - apply andb_false_iff.
    destruct (Z.eq_dec (po_ProductID r) productID) as [Heq|Hne].
    + right. apply Z.eqb_neq. specialize (Hrr Heq). lia.
    + left. apply Z.eqb_neq. congruence.
Qed.

Section ZeroSequence.
Context `{Externals}.

Lemma order_id_at_lower t userID :
  EpochMsStart <= t < EpochMsStart + 2 ^ 46 ->
  (t - EpochMsStart) * 2 ^ 15 <= order_id_at t userID.
Proof.
  intros Ht. pose proof (order_id_at_time t userID Ht) as Hs.
  rewrite Z.shiftr_div_pow2 in Hs by lia.
  pose proof (Z.mul_div_le (order_id_at t userID) (2 ^ 15) ltac:(lia)). lia.
Qed.

Lemma HandleSeckillOrder_world uc productID streamID uid w :
  (HandleSeckillOrder uc productID streamID uid w).2 =
  (CreateOrder uc productID uid (hashStreamID streamID) w).2.
Proof.
  unfold HandleSeckillOrder, CreateOrderFromSeckill, mbind, M_bind.
  destruct (CreateOrder _ _ _ _ _) as [[[a b] [e|]] w']; simpl;
    [destruct (_ || _)|]; reflexivity.
Qed.

(** Once the table has accepted the row, it is there when [CreateOrder]
    returns, whatever the publisher did. *)
Lemma CreateOrder_persists p productID userID reqID w product product_Spec :
  catalog w productID = inr product ->
  prod_Status product = "ENABLED" ->
  prod_Spec product = Some product_Spec ->
  let row := order_row productID userID reqID product w in
  existsb (same_pkey row) (orders w) = false ->
  existsb (same_product_req row) (orders w) = false ->
  let w' := (CreateOrder (wired_OrderUsecase p) productID userID reqID w).2 in
  orders w' = orders w ++ [row]
  /\ clock w' = clock w
  /\ catalog w' = catalog w
  /\ (tick (after_req reqID w) + 3 <= tick w' <= tick (after_req reqID w) + 5)%nat.
Proof.
  intros Hc Hs Hsp row Hpk Huq.
  rewrite (CreateOrder_enabled _ _ _ _ _ _ _ Hc Hs Hsp). cbv zeta.
  rewrite db_Create_accepted;
    [|req_cases reqID; assumption ..].
  pose proof (PublishInstanceCreated_step p
                (order_spec userID reqID product product_Spec w)
                (add_order (order_row productID userID reqID product w)
                   (tick_once (tick_once (tick_once (after_req reqID w))))))
    as [Hclock Htick Hcat Hord _ _ _].
  destruct (PublishInstanceCreated p _ _) as [[e|] w5]; simpl in *;
    rewrite Hord, Hclock, Hcat;
    (repeat split; [| | |lia..]);
    req_cases reqID; reflexivity.
Qed.


End ZeroSequence.


(** * Further properties of the code *)

(** ** Layout of the identifiers *)

Lemma wrap64_mod z k : 0 <= k <= 64 -> wrap64 z mod 2 ^ k = z mod 2 ^ k.
Proof.
  intros Hk. unfold wrap64.
  pose proof (Z.div_mod (z + 2 ^ 63) (2 ^ 64) ltac:(lia)) as Hdm.
  replace ((z + 2 ^ 63) mod 2 ^ 64 - 2 ^ 63)
    with (z + (- ((z + 2 ^ 63) / 2 ^ 64) * 2 ^ (64 - k)) * 2 ^ k).
  - apply Z.mod_add. lia.
  - rewrite <- Z.mul_assoc, <- Z.pow_add_r by lia.
    replace (64 - k + k) with 64 by lia. lia.
Qed.

Lemma land_lor_low a h k :
  0 <= k -> 0 <= h < 2 ^ k ->
  Z.land (Z.lor (Z.shiftl a k) h) (Z.ones k) = h.
Proof.
  intros Hk Hh.
  rewrite Z.land_lor_distr_l, !Z.land_ones by lia.
  rewrite Z.shiftl_mul_pow2, Z.mod_mul, Z.lor_0_l by lia.
  apply Z.mod_small. lia.
Qed.

Section IdentifierLayout.
Context `{Externals}.

(** X1.  The order identifier can be taken apart again, for every key
    and every clock reading: the bits above the low 15 are the
    milliseconds since the epoch modulo [2^46], the low 15 bits are the
    low 15 bits of the key's hash. *)
Theorem orderID_fields userID w :
  let id := (orderIDGenerator_Generate userID w).1.1 in
  Z.shiftr id 15 = (clock w (tick w) - EpochMsStart) mod 2 ^ 46
  /\ Z.land id 0x7FFF = xxhash_Sum64String userID mod 2 ^ 15.
Proof.
  rewrite orderIDGenerator_Generate_run. cbn [fst]. unfold order_id_at, shl64.
  pose proof (uid_hash_range userID) as Hh.
  pose proof (relative_time_range (wrap64 (clock w (tick w) - EpochMsStart))) as Hr.
  assert (Hrel : Z.land (wrap64 (clock w (tick w) - EpochMsStart)) 0x3FFFFFFFFFFF
                 = (clock w (tick w) - EpochMsStart) mod 2 ^ 46).
  { change 0x3FFFFFFFFFFF with (Z.ones 46).
    rewrite Z.land_ones by lia. apply wrap64_mod. lia. }
  assert (Hhash : wrap64 (Z.land (xxhash_Sum64String userID) 0x7FFF)
                  = xxhash_Sum64String userID mod 2 ^ 15).
  { change 0x7FFF with (Z.ones 15). rewrite Z.land_ones by lia.
    apply wrap64_small.
    pose proof (Z.mod_pos_bound (xxhash_Sum64String userID) (2 ^ 15) ltac:(lia)). lia. }
  rewrite (wrap64_small (Z.shiftl _ 15))
    by (rewrite Z.shiftl_mul_pow2 by lia; lia).
  split.
  - rewrite shiftr_lor_low by lia. exact Hrel.
  - change 0x7FFF with (Z.ones 15) at 2.
    rewrite land_lor_low by lia. exact Hhash.
Qed.

Lemma order_id_at_upper t userID :
  EpochMsStart <= t < EpochMsStart + 2 ^ 46 ->
  order_id_at t userID < (t - EpochMsStart + 1) * 2 ^ 15.
Proof.
  intros Ht. pose proof (order_id_at_time t userID Ht) as Hs.
  rewrite Z.shiftr_div_pow2 in Hs by lia.
  pose proof (Z.div_mod (order_id_at t userID) (2 ^ 15) ltac:(lia)).
  pose proof (Z.mod_pos_bound (order_id_at t userID) (2 ^ 15) ltac:(lia)). lia.
Qed.

(** X2.  Inside the 46-bit window, order identifiers sort by the
    millisecond they were minted in, whoever the users are: a later
    reading of the clock gives a strictly larger identifier. *)
Theorem order_ids_sort_by_millisecond userID userID' w w' :
  EpochMsStart <= clock w (tick w) ->
  clock w (tick w) < clock w' (tick w') ->
  clock w' (tick w') < EpochMsStart + 2 ^ 46 ->
  (orderIDGenerator_Generate userID w).1.1
  < (orderIDGenerator_Generate userID' w').1.1.
Proof.
  intros Hlo Hlt Hhi. rewrite !orderIDGenerator_Generate_run. cbn [fst].
  pose proof (order_id_at_upper (clock w (tick w)) userID ltac:(lia)).
  pose proof (order_id_at_lower (clock w' (tick w')) userID' ltac:(lia)).
  nia.
Qed.

(** X3.  For the first [2^45] milliseconds after the epoch the fields of
    an instance identifier do not overlap: bits 48 and up are the low 15
    bits of the key's hash, and the low 48 bits are the milliseconds since
    the epoch times 8, the three counter bits being 0. *)
Theorem instanceID_fields uuid w :
  EpochMsStart <= clock w (tick w) < EpochMsStart + 2 ^ 45 ->
  let id := (instanceIDGenerator_Generate uuid w).1.1 in
  Z.shiftr id 48 = xxhash_Sum64String uuid mod 2 ^ 15
  /\ Z.land id (Z.ones 48) = (clock w (tick w) - EpochMsStart) * 8
  /\ 0 <= id.
Proof.
  intros Ht. rewrite instanceIDGenerator_Generate_run. cbn [fst].
  pose proof (instance_id_at_nonneg (clock w (tick w)) uuid ltac:(lia)) as Hpos.
  unfold instance_id_at, shl64 in *.
  pose proof (uid_hash_range uuid) as Hh.
  assert (Hhash : wrap64 (Z.land (xxhash_Sum64String uuid) 0x7FFF)
                  = xxhash_Sum64String uuid mod 2 ^ 15).
  { change 0x7FFF with (Z.ones 15). rewrite Z.land_ones by lia.
    apply wrap64_small.
    pose proof (Z.mod_pos_bound (xxhash_Sum64String uuid) (2 ^ 15) ltac:(lia)). lia. }
  set (h := wrap64 (Z.land _ 0x7FFF)) in *.
  rewrite (wrap64_small (clock w (tick w) - EpochMsStart)) in * by lia.
  rewrite (Z.shiftl_mul_pow2 (clock w (tick w) - EpochMsStart)) in * by lia.
  rewrite (wrap64_small ((clock w (tick w) - EpochMsStart) * 2 ^ 3)) in * by lia.
  rewrite (wrap64_small (Z.shiftl h 48)) in *
    by (rewrite Z.shiftl_mul_pow2 by lia; lia).
  rewrite Z.lor_0_r in *.
  split; [|split].
  - rewrite shiftr_lor_low by lia. exact Hhash.
  - rewrite land_lor_low by lia. lia.
  - exact Hpos.
Qed.

End IdentifierLayout.

(** The theorem at work: two users, one millisecond apart. *)
Lemma order_ids_sort_by_millisecond_witness :
  (@orderIDGenerator_Generate sample_libs "user-b" (sample_world [])).1.1
  < (@orderIDGenerator_Generate sample_libs "user-a"
       (tick_once (sample_world []))).1.1.
Proof.
  apply (@order_ids_sort_by_millisecond sample_libs "user-b" "user-a"
           (sample_world []) (tick_once (sample_world [])));
    vm_compute; first [reflexivity | intros Hc; discriminate Hc].
Defined.

(** The theorem at work on the sample deployment. *)
Lemma instanceID_fields_witness :
  let id := (@instanceIDGenerator_Generate sample_libs "user-a" (sample_world [])).1.1 in
  Z.land id (Z.ones 48) = 1000 * 8.
Proof.
  destruct (@instanceID_fields sample_libs "user-a" (sample_world []))
    as (_ & Hlow & _).
  - split; vm_compute; first [reflexivity | intros Hc; discriminate Hc].
  - cbv zeta. rewrite Hlow. reflexivity.
Defined.

(** ** The hash of an entry token *)

Lemma hashStreamID_loop_range s h :
  - 2 ^ 63 <= h < 2 ^ 63 -> - 2 ^ 63 <= hashStreamID_loop h s < 2 ^ 63.
Proof.
  revert h. induction s as [|c s IH]; intros h Hh; simpl; [exact Hh|].
  apply IH, wrap64_range.
Qed.

(** X4.  [hashStreamID] returns an [int64] that is never negative, with
    one exception: when the accumulated hash is exactly [-2^63], negating
    it overflows and the result is [-2^63] itself. *)
Theorem hashStreamID_sign streamID :
  0 <= hashStreamID streamID < 2 ^ 63
  \/ (hashStreamID_loop 0 streamID = - 2 ^ 63 /\ hashStreamID streamID = - 2 ^ 63).
Proof.
  unfold hashStreamID.
  pose proof (hashStreamID_loop_range streamID 0 ltac:(lia)) as Hr.
  destruct (Z.ltb_spec (hashStreamID_loop 0 streamID) 0) as [Hneg|Hpos].
  - destruct (Z.eq_dec (hashStreamID_loop 0 streamID) (- 2 ^ 63)) as [Hmin|Hne].
    + right. rewrite Hmin. split; reflexivity.
    + left. rewrite wrap64_small; lia.
  - left. lia.
Qed.

(** ** Round trips through the order table *)

Lemma existsb_false_Forall {A} (f : A -> bool) l :
  existsb f l = false <-> Forall (fun x => f x = false) l.
Proof.
  induction l as [|x l IH]; simpl.
  - split; [constructor|reflexivity].
  - rewrite orb_false_iff, IH, Forall_cons. reflexivity.
Qed.

Lemma no_conflict_accepts order rows :
  no_conflict order rows ->
  existsb (same_pkey (row_of_order order)) rows = false
  /\ existsb (same_product_req (row_of_order order)) rows = false.
Proof.
  intros Hall. rewrite !existsb_false_Forall. unfold no_conflict in Hall.
  split; eapply Forall_impl; try exact Hall; intros r [Hid Hkey];
    unfold same_pkey, same_product_req; simpl.
  - apply Z.eqb_neq. exact Hid.
  - apply andb_false_iff. destruct Hkey; [left|right]; apply Z.eqb_neq; assumption.
Qed.

Lemma orderRepo_Create_run order w :
  orderRepo_Create order w = db_Create (row_of_order order) w.
Proof.
  unfold orderRepo_Create, mbind, M_bind. fold (row_of_order order).
  destruct (db_Create _ w) as [[e|] w']; reflexivity.
Qed.

Lemma find_snoc_fresh {A} (f : A -> bool) l x :
  existsb f l = false -> f x = true -> List.find f (l ++ [x]) = Some x.
Proof.
  induction l as [|y l IH]; simpl; intros Hl Hx.
  - rewrite Hx. reflexivity.
  - apply orb_false_iff in Hl as [Hy Hl]. rewrite Hy. apply IH; assumption.
Qed.



(** ** The uniqueness constraints as an invariant *)

Lemma keeps_ret {A} (a : A) : keeps_table (mret a).
Proof. intros w Hok. exact Hok. Qed.

Lemma keeps_bind {A B} (c : M A) (k : A -> M B) :
  keeps_table c -> (forall a, keeps_table (k a)) -> keeps_table (c ≫= k).
Proof.
  intros Hc Hk w Hok. unfold mbind, M_bind.
  specialize (Hc w Hok). destruct (c w) as [a w']. apply Hk, Hc.
Qed.

Lemma keeps_get {A} (f : World -> A) : keeps_table (get f).
Proof. intros w Hok. exact Hok. Qed.

Lemma keeps_time : keeps_table time_Now_UnixMilli.
Proof. intros w Hok. exact Hok. Qed.

Lemma keeps_set_delivered ds : keeps_table (set_delivered ds).
Proof. intros w Hok. exact Hok. Qed.

Lemma keeps_set_stream new pending : keeps_table (set_stream new pending).
Proof. intros w Hok. exact Hok. Qed.

Lemma table_ok_snoc rows po :
  table_ok rows ->
  existsb (same_pkey po) rows = false ->
  existsb (same_product_req po) rows = false ->
  table_ok (rows ++ [po]).
Proof.
  intros [Hid Hkey] Hpk Huq. rewrite existsb_false_Forall, Forall_forall in Hpk, Huq.
  split; rewrite fmap_app; apply NoDup_app; (split; [assumption|]);
    (split; [|apply NoDup_singleton]);
    intros x Hx Hx'; apply list_elem_of_singleton in Hx'; subst x;
    apply list_elem_of_fmap in Hx as (r & Heq & Hr).
  - specialize (Hpk r Hr). unfold same_pkey in Hpk.
    apply Z.eqb_neq in Hpk. congruence.
  - specialize (Huq r Hr). unfold same_product_req in Huq.
    injection Heq as Hp Hq.
    apply andb_false_iff in Huq as [Hne|Hne]; apply Z.eqb_neq in Hne; congruence.
Qed.

Lemma keeps_db_Create po : keeps_table (db_Create po).
Proof.
  intros w Hok.
  destruct (db_Create_cases po w) as [(Hrun & Hpk & Huq)|(err & Hrun & _)];
    rewrite Hrun; cbn [snd]; [|exact Hok].
  apply table_ok_snoc; assumption.
Qed.

Lemma fmap_map_preserved {A B} (f : A -> B) (g : A -> A) rows :
  (forall r, f (g r) = f r) -> f <$> List.map g rows = f <$> rows.
Proof.
  intros Hf. induction rows as [|r rows IH]; [reflexivity|].
  cbn [List.map]. rewrite !fmap_cons, IH, Hf. reflexivity.
Qed.

Lemma keeps_db_Updates orderID updates : keeps_table (db_Updates orderID updates).
Proof.
  intros w [Hid Hkey]. unfold db_Updates, mbind, M_bind, get, set_orders, mret, M_ret.
  cbn [fst snd orders]. unfold table_ok.
  split; rewrite fmap_map_preserved; try assumption;
    intros r; destruct (po_OrderID r =? orderID); reflexivity.
Qed.

(** Decomposes an operation along its binds and case distinctions. *)
Ltac keeps_step :=
  lazymatch goal with
  | |- keeps_table (mret _) => apply keeps_ret
  | |- keeps_table (_ ≫= _) => apply keeps_bind; [|intros ?]
  | |- keeps_table (get _) => apply keeps_get
  | |- keeps_table time_Now_UnixMilli => apply keeps_time
  | |- keeps_table (set_delivered _) => apply keeps_set_delivered
  | |- keeps_table (set_stream _ _) => apply keeps_set_stream
  | |- keeps_table (db_Create _) => apply keeps_db_Create
  | |- keeps_table (db_Updates _ _) => apply keeps_db_Updates
  | |- keeps_table (match ?x with _ => _ end) => destruct x
  | |- keeps_table (let _ := _ in _) => cbv zeta
  end.

Ltac keeps := repeat keeps_step.

Lemma keeps_forM_ {A} (l : list A) (body : A -> M unit) :
  (forall x, keeps_table (body x)) -> keeps_table (forM_ l body).
Proof.
  intros Hbody. induction l as [|x l IH]; simpl; [apply keeps_ret|].
  apply keeps_bind; [apply Hbody|intros _; exact IH].
Qed.

Section TableInvariant.
Context `{Externals}.

Lemma keeps_orderIDGenerator userID : keeps_table (orderIDGenerator_Generate userID).
Proof. unfold orderIDGenerator_Generate. keeps. Qed.

Lemma keeps_instanceIDGenerator uuid :
  keeps_table (instanceIDGenerator_Generate uuid).
Proof. unfold instanceIDGenerator_Generate, RandomBit3. keeps. Qed.

Lemma keeps_PublishInstanceCreated p spec :
  keeps_table (PublishInstanceCreated p spec).
Proof.
  unfold PublishInstanceCreated, channel_PublishWithContext. keeps.
Qed.

Lemma keeps_CreateOrder p productID userID reqID :
  keeps_table (CreateOrder (wired_OrderUsecase p) productID userID reqID).
Proof.
  unfold CreateOrder, wired_OrderUsecase, catalog_lookup, orderRepo_Create.
  cbn [orderIDGen instanceIDGen productRepo_GetByID orderRepo_create
       mqPublisher_publish].
  apply keeps_bind.
  { destruct (reqID =? 0); [apply keeps_orderIDGenerator|apply keeps_ret]. }
  intros [reqID' err]. destruct err; [apply keeps_ret|].
  apply keeps_bind; [keeps|]. intros [e|product]; [apply keeps_ret|].
  destruct (negb _); [apply keeps_ret|].
  destruct (prod_Spec product); [|apply keeps_ret].
  apply keeps_bind; [apply keeps_orderIDGenerator|]. intros [orderID err].
  destruct err; [apply keeps_ret|].
  apply keeps_bind; [apply keeps_instanceIDGenerator|]. intros [instanceID err].
  destruct err; [apply keeps_ret|].
  apply keeps_bind; [apply keeps_time|]. intros now. cbv zeta.
  apply keeps_bind; [keeps|]. intros [e|]; [apply keeps_ret|].
  apply keeps_bind; [apply keeps_PublishInstanceCreated|].
  intros [e|]; apply keeps_ret.
Qed.

Lemma keeps_CreateInstance p productID userID reqID :
  keeps_table (CreateInstance (wired_InstanceUsecase p) productID userID reqID).
Proof.
  unfold CreateInstance, wired_InstanceUsecase, catalog_lookup, orderRepo_CreateOrder.
  cbn [idGenerator instanceRepo_GetProductByID orderRepo_createOrder
       iu_mqPublisher_publish].
  apply keeps_bind.
  { destruct (reqID =? 0); [apply keeps_instanceIDGenerator|apply keeps_ret]. }
  intros [reqID' err]. destruct err; [apply keeps_ret|].
  apply keeps_bind; [keeps|]. intros [e|product]; [apply keeps_ret|].
  destruct (prod_Spec product); [|apply keeps_ret].
  apply keeps_bind; [apply keeps_instanceIDGenerator|]. intros [orderID err].
  destruct err; [apply keeps_ret|].
  apply keeps_bind; [apply keeps_instanceIDGenerator|]. intros [instanceID err].
  destruct err; [apply keeps_ret|].
  apply keeps_bind; [apply keeps_time|]. intros now. cbv zeta.
  apply keeps_bind; [keeps|]. intros [e|]; [apply keeps_ret|].
  apply keeps_bind; [apply keeps_PublishInstanceCreated|].
  intros [e|]; apply keeps_ret.
Qed.

Lemma keeps_consumeLoop s rounds :
  (forall id uid, keeps_table (srv_handler s id uid)) ->
  keeps_table (consumeLoop s rounds).
Proof.
  intros Hh. induction rounds as [|n IH]; simpl; [apply keeps_ret|].
  apply keeps_bind; [unfold XReadGroup; keeps|].
  intros [res err]. destruct err; [exact IH|].
  apply keeps_bind; [|intros _; exact IH].
  apply keeps_forM_. intros strm. apply keeps_forM_. intros msg.
  unfold consumeMessage. destruct (_ || _); [apply keeps_ret|].
  apply keeps_bind; [apply Hh|]. intros [e|]; [apply keeps_ret|].
  unfold XAck. keeps.
Qed.


End TableInvariant.


(** ** Status updates read back *)

Lemma UpdateStatus_run orderID status w :
  orderRepo_UpdateStatus orderID status w =
  db_Updates orderID (status_updates status (clock w (tick w)))
    (if String.eqb status "PAID" || String.eqb status "COMPLETED"
     then tick_once w else w).
Proof.
  unfold orderRepo_UpdateStatus, status_updates, mbind, M_bind.
  destruct (String.eqb_spec status "PAID") as [->|Hp]; [reflexivity|].
  destruct (String.eqb status "COMPLETED"); reflexivity.
Qed.

Lemma status_updates_lookup status now :
  status_updates status now !! "status" = Some (ColString status)
  /\ status_updates status now !! "paid_at" =
     (if String.eqb status "PAID" then Some (ColNullTime now true) else None)
  /\ status_updates status now !! "completed_at" =
     (if String.eqb status "COMPLETED" then Some (ColNullTime now true) else None).
Proof.
  unfold status_updates.
  destruct (String.eqb status "PAID"); destruct (String.eqb status "COMPLETED");
    cbv zeta; repeat split;
    repeat first [ rewrite lookup_insert_eq | rewrite lookup_insert_ne by done
                 | rewrite lookup_singleton_eq | rewrite lookup_singleton_ne by done ];
    reflexivity.
Qed.

Lemma find_map_same_test {A} (f : A -> bool) (g : A -> A) l :
  (forall x, f (g x) = f x) ->
  List.find f (List.map g l) = g <$> List.find f l.
Proof.
  intros Hf. induction l as [|x l IH]; [reflexivity|].
  simpl. rewrite Hf. destruct (f x); [reflexivity|exact IH].
Qed.

Lemma orderRepo_GetByID_run orderID w :
  orderRepo_GetByID orderID w =
  (match List.find (fun r => po_OrderID r =? orderID) (orders w) with
   | None => (None, Some ErrRecordNotFound)
   | Some po => (Some (order_of_row po), None)
   end, w).
Proof.
  unfold orderRepo_GetByID, mbind, M_bind, get. cbn [fst snd].
  destruct (List.find _ _); reflexivity.
Qed.

Lemma db_Updates_run orderID updates w :
  db_Updates orderID updates w =
  (None, (set_orders
            (List.map (fun r => if po_OrderID r =? orderID
                                then apply_updates updates r else r) (orders w)) w).2).
Proof. reflexivity. Qed.

(** X7.  After [UpdateStatus(id, status)] on a stored order, [GetByID]
    returns that order with the new status; [PaidAt] is the time of the
    update exactly when the status is PAID, [CompletedAt] exactly when it
    is COMPLETED, and every other field is as before. *)
Theorem UpdateStatus_then_GetByID orderID status w order :
  orderRepo_GetByID orderID w = ((Some order, None), w) ->
  let w' := (orderRepo_UpdateStatus orderID status w).2 in
  orderRepo_GetByID orderID w' =
  ((Some (order_after_update order status (clock w (tick w))), None), w').
Proof.
  intros Hget w'. subst w'. rewrite UpdateStatus_run, db_Updates_run.
  set (now := clock w (tick w)).
  destruct (status_updates_lookup status now) as (Hst & Hpaid & Hdone).
  rewrite orderRepo_GetByID_run in Hget.
  rewrite orderRepo_GetByID_run. f_equal.
  replace (orders _) with
    (List.map (fun r => if po_OrderID r =? orderID
                        then apply_updates (status_updates status now) r
                        else r) (orders w))
    by (destruct (_ || _); reflexivity).
  rewrite find_map_same_test
    by (intros r; cbn beta; destruct (po_OrderID r =? orderID) eqn:Hr; exact Hr).
  destruct (List.find _ (orders w)) as [po|] eqn:Hfind; [|discriminate].
  apply List.find_some in Hfind as [_ Hid].
  cbn [fmap option_fmap option_map]. rewrite Hid.
  injection Hget as <-.
  unfold order_after_update, apply_updates, order_of_row.
  cbn [o_ID o_UserID o_ProductID o_ReqID o_Amount o_InstanceID o_Status
       o_CreatedAt o_PaidAt o_CompletedAt po_OrderID po_UserID po_ProductID
       po_ReqID po_Amount po_InstanceID po_Status po_CreatedAt po_PaidAt
       po_CompletedAt].
  rewrite Hst, Hpaid, Hdone.
  destruct (String.eqb status "PAID"); destruct (String.eqb status "COMPLETED");
    reflexivity.
Qed.

(** The theorem at work: completing the order of the sample commit. *)
Lemma UpdateStatus_then_GetByID_witness :
  let uc := @wired_OrderUsecase sample_libs noopMQPublisher in
  let w1 := (CreateOrder uc 1001 "user-a" 7 (sample_world [])).2 in
  let w2 := (orderRepo_UpdateStatus 32786854 "COMPLETED" w1).2 in
  exists order,
    orderRepo_GetByID 32786854 w2 = ((Some order, None), w2)
    /\ o_Status order = "COMPLETED"
    /\ o_CompletedAt order = Some (clock w1 (tick w1)).
Proof.
  intros uc w1 w2.
  destruct (List.find (fun r => po_OrderID r =? 32786854) (orders w1))
    as [po|] eqn:Hfind; [|vm_compute in Hfind; discriminate].
  assert (Hget : orderRepo_GetByID 32786854 w1 = ((Some (order_of_row po), None), w1))
    by (rewrite orderRepo_GetByID_run, Hfind; reflexivity).
  pose proof (UpdateStatus_then_GetByID 32786854 "COMPLETED" w1 _ Hget) as Hup.
  eexists. split; [exact Hup|]. split; reflexivity.
Defined.

(** X8.  [UpdateStatus] does not notice an unknown identifier: it
    returns [nil] and leaves every row as it was. *)
Theorem UpdateStatus_unknown_order orderID status w :
  (orderRepo_GetByID orderID w).1 = (None, Some ErrRecordNotFound) ->
  (orderRepo_UpdateStatus orderID status w).1 = None
  /\ orders (orderRepo_UpdateStatus orderID status w).2 = orders w.
Proof.
  intros Hget. rewrite UpdateStatus_run, db_Updates_run.
  rewrite orderRepo_GetByID_run in Hget. cbn [fst] in Hget.
  destruct (List.find _ (orders w)) as [po|] eqn:Hfind; [discriminate|].
  split; [reflexivity|].
  replace (orders _) with
    (List.map (fun r => if po_OrderID r =? orderID
                        then apply_updates
                               (status_updates status (clock w (tick w))) r
                        else r) (orders w))
    by (destruct (_ || _); reflexivity).
  assert (Hnone : forall r, In r (orders w) -> (po_OrderID r =? orderID) = false)
    by (intros r Hr; exact (List.find_none _ _ Hfind r Hr)).
  clear Hfind. induction (orders w) as [|r rows IH]; [reflexivity|].
  simpl. rewrite (Hnone r) by (left; reflexivity).
  f_equal. apply IH. intros r' Hr'. apply Hnone. right. exact Hr'.
Qed.

(** The theorem at work on the empty table. *)
Lemma UpdateStatus_unknown_order_witness :
  (orderRepo_UpdateStatus 5 "PAID" (sample_world [])).1 = None
  /\ orders (orderRepo_UpdateStatus 5 "PAID" (sample_world [])).2 = [].
Proof.
  apply (UpdateStatus_unknown_order 5 "PAID" (sample_world [])). reflexivity.
Defined.

(** ** The publisher, healthy and not *)

(** X9.  [NewMQPublisher] falls back to the no-op publisher exactly when
    the startup is degraded; otherwise it returns the real publisher on
    the configured exchange.  It never returns an error. *)
Theorem NewMQPublisher_cases c broker :
  (NewMQPublisher c broker).2 = None
  /\ ((NewMQPublisher c broker).1 = noopMQPublisher <-> startup_degraded c broker)
  /\ (~ startup_degraded c broker ->
      exists rmq, c ≫= Rabbitmq = Some rmq
                  /\ (NewMQPublisher c broker).1 = mqPublisher (rmq_Exchange rmq)).
Proof.
  unfold NewMQPublisher, startup_degraded.
  destruct (c ≫= Rabbitmq) as [rmq|] eqn:Hc.
  2:{ split; [reflexivity|]. split; [split; auto|]. intros Hn. exfalso. auto. }
  destruct (String.eqb_spec (rmq_Url rmq) "") as [Hurl|Hurl].
  { split; [reflexivity|]. split.
    - split; [intros _; right; left; eauto|reflexivity].
    - intros Hn. exfalso. apply Hn. right. left. eauto. }
  destruct (dial_err broker) as [e1|] eqn:H1;
    [split; [reflexivity|]; split;
      [split; [intros _; do 2 right; left; eauto|reflexivity]
      |intros Hn; exfalso; apply Hn; do 2 right; left; eauto]|].
  destruct (channel_err broker) as [e2|] eqn:H2;
    [split; [reflexivity|]; split;
      [split; [intros _; do 3 right; left; eauto|reflexivity]
      |intros Hn; exfalso; apply Hn; do 3 right; left; eauto]|].
  destruct (exchange_declare_err broker) as [e3|] eqn:H3;
    [split; [reflexivity|]; split;
      [split; [intros _; do 4 right; left; eauto|reflexivity]
      |intros Hn; exfalso; apply Hn; do 4 right; left; eauto]|].
  destruct (queue_declare_err broker) as [e4|] eqn:H4;
    [split; [reflexivity|]; split;
      [split; [intros _; do 5 right; left; eauto|reflexivity]
      |intros Hn; exfalso; apply Hn; do 5 right; left; eauto]|].
  destruct (queue_bind_err broker) as [e5|] eqn:H5;
    [split; [reflexivity|]; split;
      [split; [intros _; do 6 right; eauto|reflexivity]
      |intros Hn; exfalso; apply Hn; do 6 right; eauto]|].
  split; [reflexivity|]. split.
  - split; [discriminate|].
    intros [Hd|[(rmq' & Hd & Hu)|[Hd|[Hd|[Hd|[Hd|Hd]]]]]];
      try discriminate; try (destruct Hd; discriminate).
    injection Hd as <-. contradiction.
  - intros _. exists rmq. split; reflexivity.
Qed.

(** The theorem at work: a configured broker that answers every call. *)
Lemma NewMQPublisher_cases_witness :
  let broker := {| dial_err := None; channel_err := None;
                   exchange_declare_err := None; queue_declare_err := None;
                   queue_bind_err := None |} in
  let c := Some {| Rabbitmq := Some {| rmq_Url := "amqp://guest:guest@mq:5672/";
                                       rmq_Exchange := sample_exchange;
                                       rmq_Queue := "resource.instance.created" |} |} in
  (NewMQPublisher c broker).1 = mqPublisher sample_exchange.
Proof.
  intros broker c.
  destruct (NewMQPublisher_cases c broker) as (_ & _ & Hreal).
  destruct Hreal as (rmq & Hc & Hp).
  - intros [Hd|[(rmq' & Hd & Hu)|[Hd|[Hd|[Hd|[Hd|Hd]]]]]];
      try discriminate; try (destruct Hd; discriminate).
    injection Hd as <-. discriminate.
  - injection Hc as <-. exact Hp.
Defined.

Section PublisherOutcome.
Context `{Externals}.

(** X10.  The real publisher returns [nil] exactly when it has handed
    one message to the exchange: on success the broker was reachable and
    the message is the encoded event, persistent, under
    [instance.created]; on an encoding or transport error nothing is
    sent.  The order table is never touched. *)
Theorem PublishInstanceCreated_outcome exchange spec w :
  let '(err, w') := PublishInstanceCreated (mqPublisher exchange) spec w in
  orders w' = orders w
  /\ match err with
     | None =>
         mq_down w = None
         /\ exists body,
              proto_Marshal (instance_created_event spec (clock w (tick w))) = inr body
              /\ mq_delivered w' =
                 mq_delivered w ++
                   [{| pub_Exchange := exchange;
                       pub_RoutingKey := "instance.created";
                       pub_ContentType := "application/octet-stream";
                       pub_Body := body;
                       pub_DeliveryMode := amqp_Persistent;
                       pub_Timestamp := clock w (S (tick w)) |}]
     | Some e =>
         mq_delivered w' = mq_delivered w
         /\ (proto_Marshal (instance_created_event spec (clock w (tick w))) = inl e
             \/ mq_down w = Some e)
     end.
Proof.
  rewrite PublishInstanceCreated_real. cbv zeta.
  destruct (proto_Marshal _) as [e|body] eqn:Hm.
  - split; [reflexivity|]. split; [reflexivity|]. left. reflexivity.
  - destruct (mq_down w) as [e|] eqn:Hdown.
    + split; [reflexivity|]. split; [reflexivity|]. right. reflexivity.
    + split; [reflexivity|]. split; [reflexivity|]. exists body. split; reflexivity.
Qed.

End PublisherOutcome.

(** ** The consumer on an empty stream *)

(** X11.  While the stream has no new entry, the consume loop changes
    nothing, however many rounds it runs. *)
Theorem consumeLoop_idle s rounds w :
  stream_new w = [] -> consumeLoop s rounds w = (tt, w).
Proof.
  intros Hempty. induction rounds as [|n IH]; [reflexivity|].
  simpl. unfold XReadGroup, mbind, M_bind, get. cbn [fst snd].
  rewrite Hempty. exact IH.
Qed.

(** The theorem at work on the sample deployment, whose stream is empty. *)
Lemma consumeLoop_idle_witness :
  let uc := @wired_OrderUsecase sample_libs (mqPublisher sample_exchange) in
  let s := NewSeckillStreamServer (HandleSeckillOrder uc 1001) 1001 in
  consumeLoop s 5 (sample_world []) = (tt, sample_world []).
Proof.
  intros uc s. exact (consumeLoop_idle s 5 (sample_world []) eq_refl).
Defined.

(** ** What one commit does to the world *)

Section CommitEffects.
Context `{Externals}.

(** Every run of [CreateOrder] is of one of three kinds: rejected before
    the store step, refused by the table, or stored and then handed to
    the publisher. *)
Lemma CreateOrder_cases p productID userID reqID w :
  (exists err,
     CreateOrder (wired_OrderUsecase p) productID userID reqID w
       = ((0, 0, Some err), after_req reqID w))
  \/ exists product product_Spec,
       catalog w productID = inr product
       /\ prod_Status product = "ENABLED"
       /\ prod_Spec product = Some product_Spec
       /\ let row := order_row productID userID reqID product w in
          let w3 := tick_once (tick_once (tick_once (after_req reqID w))) in
          let spec := order_spec userID reqID product product_Spec w in
          (exists err,
             CreateOrder (wired_OrderUsecase p) productID userID reqID w
               = ((0, 0, Some err), w3)
             /\ isUniqueViolationError (Some err) = true)
          \/ (existsb (same_pkey row) (orders w) = false
              /\ existsb (same_product_req row) (orders w) = false
              /\ CreateOrder (wired_OrderUsecase p) productID userID reqID w =
                 match PublishInstanceCreated p spec (add_order row w3) with
                 | (Some err, w5) => ((0, 0, Some err), w5)
                 | (None, w5) => ((po_OrderID row, is_InstanceID spec, None), w5)
                 end).
Proof.
  destruct (catalog w productID) as [err|product] eqn:Hc.
  { left. exists err. apply CreateOrder_lookup_failed, Hc. }
  destruct (decide (prod_Status product = "ENABLED")) as [Hs|Hs];
    [|left; eexists; apply (CreateOrder_disabled _ _ _ _ _ _ Hc Hs)].
  destruct (prod_Spec product) as [product_Spec|] eqn:Hsp;
    [|left; eexists; apply (CreateOrder_no_spec _ _ _ _ _ _ Hc Hs Hsp)].
  right. exists product, product_Spec.
  repeat (split; [first [assumption|reflexivity]|]).
  cbv zeta. rewrite (CreateOrder_enabled _ _ _ _ _ _ _ Hc Hs Hsp). cbv zeta.
  destruct (db_Create_cases (order_row productID userID reqID product w)
              (tick_once (tick_once (tick_once (after_req reqID w)))))
    as [(Hdb & Hpk & Huq)|(err & Hdb & Herr)]; rewrite Hdb.
  - right. unfold after_req in Hpk, Huq. split; [|split; [|reflexivity]].
    + destruct (reqID =? 0); exact Hpk.
    + destruct (reqID =? 0); exact Huq.
  - left. exists err. split; [reflexivity|exact Herr].
Qed.

Lemma publish_delivers p spec w :
  let '(err, w') := PublishInstanceCreated p spec w in
  match err, p with
  | None, mqPublisher _ => exists pub, mq_delivered w' = mq_delivered w ++ [pub]
  | _, _ => mq_delivered w' = mq_delivered w
  end.
Proof.
  destruct p as [exchange|]; [|reflexivity].
  rewrite PublishInstanceCreated_real. cbv zeta.
  destruct (proto_Marshal _); [reflexivity|].
  destruct (mq_down w); [reflexivity|]. eexists. reflexivity.
Qed.

(** X12.  One call of [CreateOrder] never touches the catalog, the
    stream or the pending list, never removes or rewrites an order, and
    adds at most one.  When it returns an error both identifiers are 0 and
    no message has been published; when it succeeds exactly one PAID row
    with the returned identifiers has been appended, and the real
    publisher has handed exactly one message to the exchange. *)
Theorem CreateOrder_effects p productID userID reqID w :
  let '((orderID, instanceID, err), w') :=
    CreateOrder (wired_OrderUsecase p) productID userID reqID w in
  (catalog w' = catalog w /\ clock w' = clock w
   /\ pel w' = pel w /\ stream_new w' = stream_new w)
  /\ match err with
     | Some _ =>
         orderID = 0 /\ instanceID = 0
         /\ mq_delivered w' = mq_delivered w
         /\ (orders w' = orders w \/ exists row, orders w' = orders w ++ [row])
     | None =>
         (exists row,
            orders w' = orders w ++ [row]
            /\ po_OrderID row = orderID
            /\ po_InstanceID row = (if instanceID =? 0 then None else Some instanceID)
            /\ po_Status row = "PAID")
         /\ match p with
            | noopMQPublisher => mq_delivered w' = mq_delivered w
            | mqPublisher _ => exists pub, mq_delivered w' = mq_delivered w ++ [pub]
            end
     end.
Proof.
  destruct (CreateOrder_cases p productID userID reqID w)
    as [(err & ->)|(product & product_Spec & Hc & Hs & Hsp & Hcases)].
  { req_cases reqID; repeat split; left; reflexivity. }
  cbv zeta in Hcases.
  destruct Hcases as [(err & -> & _)|(Hpk & Huq & ->)].
  { req_cases reqID; repeat split; left; reflexivity. }
  set (row := order_row productID userID reqID product w).
  set (spec := order_spec userID reqID product product_Spec w).
  set (stored := add_order row _).
  pose proof (PublishInstanceCreated_step p spec stored) as Hstep.
  pose proof (publish_delivers p spec stored) as Hsent.
  destruct (PublishInstanceCreated p spec stored) as [[err|] w5];
    cbn [snd] in Hstep; destruct Hstep as [Hclk _ Hcat Hord _ Hnew Hpel];
    (split; [rewrite Hcat, Hclk, Hpel, Hnew; unfold stored;
             req_cases reqID; repeat split|]).
  - repeat split.
    + destruct p; rewrite Hsent; unfold stored; req_cases reqID; reflexivity.
    + right. exists row. rewrite Hord. unfold stored. req_cases reqID; reflexivity.
  - split.
    + exists row. rewrite Hord. repeat split.
      unfold stored. req_cases reqID; reflexivity.
    + destruct p as [exchange|].
      * destruct Hsent as [pub Hsent]. exists pub. rewrite Hsent.
        unfold stored. req_cases reqID; reflexivity.
      * rewrite Hsent. unfold stored. req_cases reqID; reflexivity.
Qed.

(** X13.  [PurchaseProduct] refuses an empty user identifier before
    doing anything.  When it succeeds, the order it returns is the order
    it has just stored and read back: for this user and product, in
    status PAID, paid at its creation time, at the catalog price, under a
    request number minted from the clock, with the returned instance
    identifier. *)
Theorem PurchaseProduct_returns_stored_order
    p userID productID w product order instanceID w' :
  catalog w productID = inr product ->
  PurchaseProduct (wired_OrderUsecase p) userID productID w
    = ((Some order, instanceID, None), w') ->
  userID <> ""
  /\ PurchaseProduct (wired_OrderUsecase p) "" productID w
     = ((None, 0, Some ErrInvalidUserID), w)
  /\ orders w' = orders w ++ [row_of_order order]
  /\ o_UserID order = userID
  /\ o_ProductID order = productID
  /\ o_Amount order = prod_Price product
  /\ o_Status order = "PAID"
  /\ o_PaidAt order = Some (o_CreatedAt order)
  /\ o_CompletedAt order = None
  /\ o_InstanceID order = instanceID
  /\ o_ReqID order = order_id_at (clock w (tick w)) userID.
Proof.
  intros Hc Hrun. unfold PurchaseProduct in Hrun.
  destruct (String.eqb_spec userID "") as [->|Hne]; [discriminate|].
  split; [exact Hne|]. split; [reflexivity|].
  unfold mbind, M_bind in Hrun.
  destruct (CreateOrder_cases p productID userID 0 w)
    as [(err & Hco)|(product' & product_Spec & Hc' & Hs & Hsp & Hcases)];
    [rewrite Hco in Hrun; discriminate|].
  rewrite Hc in Hc'. injection Hc' as <-. cbv zeta in Hcases.
  destruct Hcases as [(err & Hco & _)|(Hpk & Huq & Hco)];
    [rewrite Hco in Hrun; discriminate|].
  rewrite Hco in Hrun. clear Hco.
  set (row := order_row productID userID 0 product w) in *.
  set (spec := order_spec userID 0 product product_Spec w) in *.
  set (stored := add_order row _) in *.
  pose proof (PublishInstanceCreated_step p spec stored) as Hstep.
  destruct (PublishInstanceCreated p spec stored) as [[err|] w5];
    [discriminate|].
  cbn [snd] in Hstep. destruct Hstep as [_ _ _ Hord _ _ _].
  cbn [wired_OrderUsecase orderRepo_getByID] in Hrun.
  rewrite orderRepo_GetByID_run in Hrun.
  assert (Hrows : orders w5 = orders w ++ [row]) by (rewrite Hord; reflexivity).
  rewrite Hrows, (find_snoc_fresh _ _ row) in Hrun;
    [|exact Hpk|apply Z.eqb_refl].
  injection Hrun as <- <- <-.
  rewrite Hrows. repeat split.
  - f_equal. f_equal. unfold row_of_order, order_of_row, row, order_row.
    cbn. destruct (instance_id_at _ _ =? 0) eqn:Hz; cbn; rewrite ?Hz; reflexivity.
  - unfold order_of_row, row, order_row, spec, order_spec. cbn.
    destruct (Z.eqb_spec (instance_id_at (clock w (S (S (tick w)))) userID) 0)
      as [Hz|Hz]; cbn; congruence.
Qed.

End CommitEffects.

(** The theorem at work for the broker being down: the order stays, no
    message leaves. *)
Lemma CreateOrder_effects_witness :
  let uc := @wired_OrderUsecase sample_libs (mqPublisher sample_exchange) in
  let '((orderID, instanceID, err), w') :=
    CreateOrder uc 1001 "user-a" 7 sample_world_broker_down in
  err = Some broker_down /\ orderID = 0 /\ mq_delivered w' = [].
Proof.
  pose proof (@CreateOrder_effects sample_libs (mqPublisher sample_exchange)
                1001 "user-a" 7 sample_world_broker_down) as Heff.
  cbv zeta.
  destruct (CreateOrder _ 1001 "user-a" 7 sample_world_broker_down)
    as [[[orderID instanceID] err] w'] eqn:Hrun.
  assert (Herr : err = Some broker_down)
    by (apply (f_equal (fun r => r.1.2)) in Hrun; vm_compute in Hrun;
        symmetry; exact Hrun).
  subst err. destruct Heff as (_ & Hid & _ & Hsent & _).
  repeat split; assumption.
Defined.

(** The theorem at work: a regular purchase on the sample deployment. *)
Lemma PurchaseProduct_returns_stored_order_witness :
  let uc := @wired_OrderUsecase sample_libs (mqPublisher sample_exchange) in
  exists order instanceID w',
    PurchaseProduct uc "user-a" 1001 (sample_world []) = ((Some order, instanceID, None), w')
    /\ o_Status order = "PAID" /\ o_Amount order = 9900.
Proof.
  intros uc.
  destruct (PurchaseProduct uc "user-a" 1001 (sample_world []))
    as [[[[order|] instanceID] [err|]] w'] eqn:Hrun;
    try (apply (f_equal (fun r => (match r.1.1.1 with Some _ => true | None => false end,
                                   match r.1.2 with Some _ => false | None => true end)))
           in Hrun;
         vm_compute in Hrun; discriminate).
  destruct (@PurchaseProduct_returns_stored_order sample_libs
              (mqPublisher sample_exchange) "user-a" 1001 (sample_world [])
              (sample_product 1001 "ENABLED" []) order instanceID w' eq_refl Hrun)
    as (_ & _ & _ & _ & _ & Hamt & Hst & _).
  exists order, instanceID, w'. repeat split; assumption.
Defined.

(** ** One entry through the consumer *)

Lemma consumeMessage_run s msg uid w :
  uid_present msg uid ->
  consumeMessage s msg w =
  let '(err, w1) := srv_handler s (msg_ID msg) uid w in
  match err with
  | Some _ => (tt, w1)
  | None => (tt, (XAck (msg_ID msg) w1).2)
  end.
Proof.
  intros (Hu & Hne & Hnil). unfold consumeMessage, mbind, M_bind.
  rewrite Hu. cbn [fmt_Sprint].
  apply String.eqb_neq in Hne, Hnil. rewrite Hne, Hnil. cbn [orb].
  destruct (srv_handler s (msg_ID msg) uid w) as [[e|] w1]; [reflexivity|].
  destruct (XAck (msg_ID msg) w1) as [r w2]. reflexivity.
Qed.

Lemma reclaimMessage_run s msg uid w :
  uid_present msg uid ->
  reclaimMessage s msg w =
  let '(err, w1) := srv_handler s (msg_ID msg) uid w in
  match err with
  | Some _ => (tt, w1)
  | None => (tt, (XAck (msg_ID msg) w1).2)
  end.
Proof.
  intros (Hu & Hne & Hnil). unfold reclaimMessage, mbind, M_bind.
  rewrite Hu. cbn [fmt_Sprint].
  apply String.eqb_neq in Hne, Hnil. rewrite Hne, Hnil. cbn [orb].
  destruct (srv_handler s (msg_ID msg) uid w) as [[e|] w1]; [reflexivity|].
  destruct (XAck (msg_ID msg) w1) as [r w2]. reflexivity.
Qed.

Lemma XAck_fields id w :
  pel (XAck id w).2 = without id (pel w)
  /\ stream_new (XAck id w).2 = stream_new w
  /\ orders (XAck id w).2 = orders w
  /\ mq_delivered (XAck id w).2 = mq_delivered w
  /\ catalog (XAck id w).2 = catalog w.
Proof.
  unfold XAck, mbind, M_bind, get. cbn [fst snd].
  destruct (bool_decide (id ∈ pel w)) eqn:Hin; cbn; repeat split.
  apply bool_decide_eq_false in Hin. unfold without.
  induction (pel w) as [|x l IH]; [reflexivity|].
  apply not_elem_of_cons in Hin as [Hx Hl]. cbn.
  destruct (String.eqb_spec x id) as [->|_]; [contradiction|].
  cbn. f_equal. apply IH, Hl.
Qed.

Lemma without_not_elem id pending : id ∉ without id pending.
Proof.
  unfold without. rewrite list_elem_of_In, List.filter_In.
  intros [_ Hne]. rewrite String.eqb_refl in Hne. discriminate.
Qed.

Lemma without_snoc id pending : without id (pending ++ [id]) = without id pending.
Proof.
  unfold without. rewrite List.filter_app. cbn.
  rewrite String.eqb_refl. cbn. apply app_nil_r.
Qed.

Lemma HandleSeckillOrder_run uc productID streamID uid w :
  HandleSeckillOrder uc productID streamID uid w =
  let '((_, _, err), w') := CreateOrder uc productID uid (hashStreamID streamID) w in
  (match err with
   | Some e => if isUniqueViolationError (Some e) then None else Some e
   | None => None
   end, w').
Proof.
  unfold HandleSeckillOrder, CreateOrderFromSeckill, mbind, M_bind.
  destruct (CreateOrder _ _ _ _ _) as [[[a b] [e|]] w']; [|reflexivity].
  destruct (isUniqueViolationError (Some e)); reflexivity.
Qed.

Lemma consumeLoop_round s n w batch w1 :
  XReadGroup (srv_count s) w = ((batch, None), w1) ->
  consumeLoop s (S n) w
  = consumeLoop s n (forM_ batch (fun strm => forM_ strm (consumeMessage s)) w1).2.
Proof.
  intros Hread. cbn [consumeLoop]. unfold mbind at 1, M_bind at 1.
  rewrite Hread. unfold mbind, M_bind.
  destruct (forM_ batch _ w1) as [u w2]. reflexivity.
Qed.

Lemma rows_for_existsb productID reqID rows :
  rows_for productID reqID rows <> [] ->
  existsb (fun r => (po_ProductID r =? productID) && (po_ReqID r =? reqID)) rows = true.
Proof.
  unfold rows_for. induction rows as [|r rows IH]; [intros Hn; contradiction|].
  cbn. destruct ((po_ProductID r =? productID) && (po_ReqID r =? reqID));
    [reflexivity|exact IH].
Qed.

Section OneEntry.
Context `{Externals}.

(** X14.  The round that reads a well-formed entry for a product on
    sale, when the table accepts the row and the publisher succeeds,
    stores exactly that order, empties the stream and acknowledges the
    entry: its token is no longer pending. *)
Theorem consumeLoop_commits_and_acks p productID msg uid w product product_Spec :
  stream_new w = [msg] ->
  uid_present msg uid ->
  catalog w productID = inr product ->
  prod_Status product = "ENABLED" ->
  prod_Spec product = Some product_Spec ->
  let reqID := hashStreamID (msg_ID msg) in
  let read := (XReadGroup 128 w).2 in
  let row := order_row productID uid reqID product read in
  let stored := add_order row (tick_once (tick_once (tick_once (after_req reqID read)))) in
  existsb (same_pkey row) (orders w) = false ->
  existsb (same_product_req row) (orders w) = false ->
  (PublishInstanceCreated p (order_spec uid reqID product product_Spec read) stored).1
    = None ->
  let s := NewSeckillStreamServer
             (HandleSeckillOrder (wired_OrderUsecase p) productID) productID in
  let w' := (consumeLoop s 1 w).2 in
  orders w' = orders w ++ [row]
  /\ stream_new w' = []
  /\ pel w' = without (msg_ID msg) (pel w)
  /\ msg_ID msg ∉ pel w'.
Proof.
  intros Hnew Hu Hc Hs Hsp reqID read row stored Hpk Huq Hpub s w'.
  assert (Hread : XReadGroup 128 w = (([[msg]], None), read)).
  { subst read. unfold XReadGroup, mbind, M_bind, get. cbn [fst snd].
    rewrite Hnew. reflexivity. }
  assert (Hread_f : orders read = orders w /\ catalog read = catalog w
                    /\ pel read = pel w ++ [msg_ID msg] /\ stream_new read = []).
  { subst read. unfold XReadGroup, mbind, M_bind, get. cbn [fst snd].
    rewrite Hnew. repeat split. }
  destruct Hread_f as (Hro & Hrc & Hrp & Hrn). clearbody read.
  assert (Hhandler : srv_handler s (msg_ID msg) uid read
                     = (None, (PublishInstanceCreated p
                                 (order_spec uid reqID product product_Spec read)
                                 stored).2)).
  { subst s. cbn [srv_handler NewSeckillStreamServer].
    rewrite HandleSeckillOrder_run. fold reqID.
    rewrite (CreateOrder_enabled p productID uid reqID read product product_Spec)
      by (rewrite ?Hrc; assumption).
    cbv zeta. fold row.
    rewrite db_Create_accepted
      by (rewrite <- Hro in Hpk, Huq; req_cases reqID; assumption).
    fold stored.
    destruct (PublishInstanceCreated p _ stored) as [[e|] w5]; [discriminate|].
    reflexivity. }
  pose proof (PublishInstanceCreated_step p
                (order_spec uid reqID product product_Spec read) stored) as Hstep.
  set (w5 := (PublishInstanceCreated p _ stored).2) in *.
  destruct Hstep as [_ _ _ Hord _ Hsn Hpel].
  assert (Hw' : w' = (XAck (msg_ID msg) w5).2).
  { subst w'. rewrite (consumeLoop_round s 0 w [[msg]] read Hread).
    cbn [consumeLoop forM_]. unfold mbind, M_bind.
    rewrite (consumeMessage_run s msg uid read Hu). rewrite Hhandler.
    reflexivity. }
  destruct (XAck_fields (msg_ID msg) w5) as (Hap & Han & Hao & _ & _).
  rewrite Hw', Hao, Han, Hap, Hord, Hsn, Hpel.
  assert (Hstored : orders stored = orders w ++ [row]
                    /\ stream_new stored = [] /\ pel stored = pel w ++ [msg_ID msg]).
  { subst stored. unfold add_order. req_cases reqID; cbn; rewrite Hro, Hrn, Hrp;
      repeat split. }
  destruct Hstored as (-> & -> & ->).
  rewrite without_snoc. repeat split. apply without_not_elem.
Qed.

(** X15.  A failed publish is not made up for.  When the first delivery
    of an entry stores the order and the publisher then fails, the entry
    is not acknowledged and no message has left.  When the reclaim loop later
    hands the entry to the handler again, with whatever publisher and
    broker state, the table refuses the duplicate, the handler reports
    success, the entry is acknowledged, and still no message is published
    for that order. *)
Theorem failed_publish_is_never_retried
    p productID msg uid w product product_Spec err :
  uid_present msg uid ->
  hashStreamID (msg_ID msg) <> 0 ->
  catalog w productID = inr product ->
  prod_Status product = "ENABLED" ->
  prod_Spec product = Some product_Spec ->
  let reqID := hashStreamID (msg_ID msg) in
  let row := order_row productID uid reqID product w in
  let stored := add_order row (tick_once (tick_once (tick_once w))) in
  existsb (same_pkey row) (orders w) = false ->
  existsb (same_product_req row) (orders w) = false ->
  (PublishInstanceCreated p (order_spec uid reqID product product_Spec w) stored).1
    = Some err ->
  isUniqueViolationError (Some err) = false ->
  let s := NewSeckillStreamServer
             (HandleSeckillOrder (wired_OrderUsecase p) productID) productID in
  let w1 := (consumeMessage s msg w).2 in
  (orders w1 = orders w ++ [row]
   /\ pel w1 = pel w
   /\ mq_delivered w1 = mq_delivered w)
  /\ forall p' w2,
       orders w2 = orders w1 -> catalog w2 = catalog w1 ->
       let s' := NewSeckillStreamServer
                   (HandleSeckillOrder (wired_OrderUsecase p') productID) productID in
       let w3 := (reclaimMessage s' msg w2).2 in
       orders w3 = orders w2
       /\ mq_delivered w3 = mq_delivered w2
       /\ msg_ID msg ∉ pel w3.
Proof.
  intros Hu Hreq Hc Hs Hsp reqID row stored Hpk Huq Hpub Herr s w1.
  assert (Hafter : forall w0, after_req reqID w0 = w0)
    by (intros w0; apply after_req_nonzero, Hreq).
  pose proof (PublishInstanceCreated_step p
                (order_spec uid reqID product product_Spec w) stored) as Hstep.
  pose proof (publish_delivers p (order_spec uid reqID product product_Spec w) stored)
    as Hsent.
  assert (Hfirst : consumeMessage s msg w
                   = (tt, (PublishInstanceCreated p
                             (order_spec uid reqID product product_Spec w) stored).2)).
  { rewrite (consumeMessage_run s msg uid w Hu).
    subst s. cbn [srv_handler NewSeckillStreamServer].
    rewrite HandleSeckillOrder_run. fold reqID.
    rewrite (CreateOrder_enabled p productID uid reqID w product product_Spec Hc Hs Hsp).
    cbv zeta. rewrite Hafter. fold row.
    rewrite db_Create_accepted by assumption. fold stored.
    destruct (PublishInstanceCreated p _ stored) as [[e|] w5]; [|discriminate].
    cbn [fst] in Hpub. injection Hpub as ->. rewrite Herr. reflexivity. }
  destruct (PublishInstanceCreated p _ stored) as [[e|] w5] eqn:Hrun;
    [|discriminate].
  cbn [snd] in Hstep, Hfirst. destruct Hstep as [_ _ Hcat Hord _ _ Hpel].
  assert (Hw1 : w1 = w5) by (subst w1; rewrite Hfirst; reflexivity).
  assert (Hsent' : mq_delivered w5 = mq_delivered w)
    by (destruct p; exact Hsent).
  split.
  { rewrite Hw1, Hord, Hpel, Hsent'. repeat split. }
  intros p' w2 Ho2 Hc2 s' w3.
  assert (Hc2' : catalog w2 productID = inr product)
    by (rewrite Hc2, Hw1, Hcat; exact Hc).
  assert (Hdup : existsb (same_product_req (order_row productID uid reqID product w2))
                   (orders w2) = true).
  { rewrite Ho2, Hw1, Hord. change (orders stored) with (orders w ++ [row]).
    rewrite existsb_app. apply orb_true_iff. right. cbn [existsb].
    unfold same_product_req, row, order_row.
    cbn [po_ProductID po_ReqID]. rewrite !stored_req_nonzero by exact Hreq.
    rewrite !Z.eqb_refl. reflexivity. }
  destruct (CreateOrder_duplicate p' productID uid reqID w2 product product_Spec
              Hc2' Hs Hsp Hdup) as (e2 & w2' & Hrun2 & He2 & Hord2 & Hsent2).
  assert (Hsecond : reclaimMessage s' msg w2 = (tt, (XAck (msg_ID msg) w2').2)).
  { rewrite (reclaimMessage_run s' msg uid w2 Hu).
    subst s'. cbn [srv_handler NewSeckillStreamServer].
    rewrite HandleSeckillOrder_run. fold reqID. rewrite Hrun2, He2. reflexivity. }
  destruct (XAck_fields (msg_ID msg) w2') as (Hap & _ & Hao & Had & _).
  subst w3. rewrite Hsecond. cbn [snd].
  rewrite Hao, Had, Hap, Hord2, Hsent2. repeat split. apply without_not_elem.
Qed.

Lemma CreateInstance_run p productID userID reqID w product product_Spec :
  catalog w productID = inr product ->
  prod_Spec product = Some product_Spec ->
  let w3 := tick_once (tick_once (tick_once (after_req reqID w))) in
  let row := instance_row productID userID reqID product w in
  CreateInstance (wired_InstanceUsecase p) productID userID reqID w =
  match db_Create row w3 with
  | (Some err, w4) => (Some err, w4)
  | (None, w4) =>
      PublishInstanceCreated p (order_spec userID reqID product product_Spec w) w4
  end.
Proof.
  intros Hc Hsp.
  unfold CreateInstance, after_req, instance_row, order_spec, after_req,
    mbind, M_bind.
  simpl.
  destruct (reqID =? 0); simpl; unfold mbind, M_bind; simpl;
    rewrite Hc, Hsp; simpl;
    unfold orderRepo_CreateOrder, mbind, M_bind; simpl.
  - destruct (db_Create _ _) as [[err|] w4]; simpl; [reflexivity|].
    destruct (PublishInstanceCreated _ _ _) as [[err|] w5]; reflexivity.
  - destruct (db_Create _ _) as [[err|] w4]; simpl; [reflexivity|].
    destruct (PublishInstanceCreated _ _ _) as [[err|] w5]; reflexivity.
Qed.

(** X16.  The handler over the instance use case does not recognise a
    duplicate.  For an entry whose order is already stored it returns the
    table's duplicate-key error on every delivery, so neither the consume
    loop nor the reclaim loop acknowledges the entry: it stays pending,
    and nothing is stored or published. *)
Theorem instance_handler_leaves_duplicate_pending
    p productID msg uid w product product_Spec :
  uid_present msg uid ->
  hashStreamID (msg_ID msg) <> 0 ->
  catalog w productID = inr product ->
  prod_Spec product = Some product_Spec ->
  rows_for productID (hashStreamID (msg_ID msg)) (orders w) <> [] ->
  let s := NewSeckillStreamServer
             (HandleSeckillOrder_instance (wired_InstanceUsecase p) productID)
             productID in
  let untouched w' :=
    pel w' = pel w /\ orders w' = orders w /\ mq_delivered w' = mq_delivered w in
  (exists err, (srv_handler s (msg_ID msg) uid w).1 = Some err
               /\ isUniqueViolationError (Some err) = true)
  /\ untouched (consumeMessage s msg w).2
  /\ untouched (reclaimMessage s msg w).2.
Proof.
  intros Hu Hreq Hc Hsp Hrows s untouched.
  set (reqID := hashStreamID (msg_ID msg)) in *.
  assert (Hdup : existsb (same_product_req (instance_row productID uid reqID product w))
                   (orders w) = true).
  { unfold same_product_req, instance_row. cbn [po_ProductID po_ReqID].
    apply Z.eqb_neq in Hreq. rewrite Hreq.
    apply rows_for_existsb, Hrows. }
  destruct (db_Create_refused (instance_row productID uid reqID product w)
              (tick_once (tick_once (tick_once (after_req reqID w)))))
    as (err & Hdb & Herr).
  { apply orb_true_iff. right. req_cases reqID; exact Hdup. }
  assert (Hh : srv_handler s (msg_ID msg) uid w
               = (Some err, tick_once (tick_once (tick_once (after_req reqID w))))).
  { subst s. cbn [srv_handler NewSeckillStreamServer].
    unfold HandleSeckillOrder_instance, mbind, M_bind. fold reqID.
    rewrite (CreateInstance_run p productID uid reqID w product product_Spec Hc Hsp).
    cbv zeta. rewrite Hdb. reflexivity. }
  split; [exists err; rewrite Hh; split; [reflexivity|exact Herr]|].
  subst untouched. cbv beta.
  rewrite (consumeMessage_run s msg uid w Hu), (reclaimMessage_run s msg uid w Hu), Hh.
  req_cases reqID; repeat split.
Qed.

End OneEntry.

Lemma entry_with_uid_present : uid_present entry_with_uid "user-a".
Proof.
  split; [vm_compute; reflexivity|]. split; intros Hc; discriminate Hc.
Qed.

Lemma consumeLoop_commits_and_acks_witness :
  let s := NewSeckillStreamServer
             (HandleSeckillOrder
                (@wired_OrderUsecase sample_libs (mqPublisher sample_exchange)) 1001)
             1001 in
  let w := (set_stream [entry_with_uid] [] (sample_world [])).2 in
  length (orders (consumeLoop s 1 w).2) = 1%nat
  /\ stream_new (consumeLoop s 1 w).2 = []
  /\ pel (consumeLoop s 1 w).2 = [].
Proof.
  intros s w.
  destruct (@consumeLoop_commits_and_acks sample_libs (mqPublisher sample_exchange)
              1001 entry_with_uid "user-a" w
              (sample_product 1001 "ENABLED" []) (sample_spec [])
              eq_refl entry_with_uid_present eq_refl eq_refl eq_refl
              eq_refl eq_refl eq_refl) as (Ho & Hs & Hp & _).
  split; [exact (eq_trans (f_equal (@length _) Ho) eq_refl)|].
  split; [exact Hs | exact (eq_trans Hp eq_refl)].
Defined.

Lemma failed_publish_is_never_retried_witness :
  let s := NewSeckillStreamServer
             (HandleSeckillOrder
                (@wired_OrderUsecase sample_libs (mqPublisher sample_exchange)) 1001)
             1001 in
  let w1 := (consumeMessage s entry_with_uid sample_world_broker_down).2 in
  let w3 := (reclaimMessage s entry_with_uid (set_orders (orders w1) (sample_world [])).2).2 in
  length (orders w1) = 1%nat
  /\ orders w3 = orders w1
  /\ mq_delivered w3 = [].
Proof.
  intros s w1 w3.
  assert (Hreq : hashStreamID (msg_ID entry_with_uid) <> 0)
    by (vm_compute; intros Hc; discriminate Hc).
  destruct (@failed_publish_is_never_retried sample_libs (mqPublisher sample_exchange)
              1001 entry_with_uid "user-a" sample_world_broker_down
              (sample_product 1001 "ENABLED" []) (sample_spec []) broker_down
              entry_with_uid_present Hreq eq_refl eq_refl eq_refl
              eq_refl eq_refl eq_refl eq_refl) as ((Ho & _ & _) & Hlater).
  split; [exact (eq_trans (f_equal (@length _) Ho) eq_refl)|].
  destruct (Hlater (mqPublisher sample_exchange)
              (set_orders (orders w1) (sample_world [])).2 eq_refl eq_refl)
    as (Ho3 & Hd3 & _).
  split; [exact Ho3 | exact Hd3].
Defined.

Lemma instance_handler_leaves_duplicate_pending_witness :
  let order_srv := NewSeckillStreamServer
                     (HandleSeckillOrder
                        (@wired_OrderUsecase sample_libs (mqPublisher sample_exchange))
                        1001) 1001 in
  let s := NewSeckillStreamServer
             (HandleSeckillOrder_instance
                (@wired_InstanceUsecase sample_libs (mqPublisher sample_exchange)) 1001)
             1001 in
  let w := (consumeMessage order_srv entry_with_uid (sample_world [])).2 in
  let w' := (consumeMessage s entry_with_uid w).2 in
  length (orders w) = 1%nat /\ orders w' = orders w /\ pel w' = pel w.
Proof.
  intros order_srv s w w'.
  assert (Hreq : hashStreamID (msg_ID entry_with_uid) <> 0)
    by (vm_compute; intros Hc; discriminate Hc).
  assert (Hrows : rows_for 1001 (hashStreamID (msg_ID entry_with_uid)) (orders w) <> [])
    by (vm_compute; intros Hc; discriminate Hc).
  destruct (@instance_handler_leaves_duplicate_pending sample_libs
              (mqPublisher sample_exchange) 1001 entry_with_uid "user-a" w
              (sample_product 1001 "ENABLED" []) (sample_spec [])
              entry_with_uid_present Hreq eq_refl eq_refl Hrows)
    as (_ & (Hp & Ho & _) & _).
  split; [vm_compute; reflexivity|]. split; [exact Ho | exact Hp].
Defined.

(** ** Orders read back as instances *)

Lemma first_by_pkey_same k r rest :
  po_OrderID r = k ->
  Forall (fun x => po_OrderID x = k) rest ->
  first_by_pkey r rest = r.
Proof.
  unfold first_by_pkey. intros Hr Hall. induction Hall as [|x rest Hx _ IH];
    [reflexivity|].
  cbn. rewrite Hx, Hr, Z.ltb_irrefl. exact IH.
Qed.

Lemma filter_find {A} (f : A -> bool) l :
  match List.filter f l with
  | [] => List.find f l = None
  | r :: rest => List.find f l = Some r
  end.
Proof.
  induction l as [|x l IH]; [reflexivity|].
  cbn. destruct (f x); [reflexivity|exact IH].
Qed.

Lemma filter_all {A} (f : A -> bool) l : Forall (fun x => f x = true) (List.filter f l).
Proof.
  induction l as [|x l IH]; [constructor|].
  cbn. destruct (f x) eqn:Hx; [constructor; assumption|exact IH].
Qed.

(** On the primary key, [First] is the first match in table order. *)
Lemma db_First_pkey orderID w :
  db_First (fun r => po_OrderID r =? orderID) w =
  (match List.find (fun r => po_OrderID r =? orderID) (orders w) with
   | Some r => inr r
   | None => inl ErrRecordNotFound
   end, w).
Proof.
  unfold db_First, mbind, M_bind, get. cbn [fst snd].
  pose proof (filter_find (fun r => po_OrderID r =? orderID) (orders w)) as Hfind.
  pose proof (filter_all (fun r => po_OrderID r =? orderID) (orders w)) as Hall.
  destruct (List.filter _ (orders w)) as [|r rest]; rewrite Hfind; [reflexivity|].
  apply Forall_cons in Hall as [Hr Hrest].
  rewrite (first_by_pkey_same orderID r rest); [reflexivity|lia|].
  eapply Forall_impl; [exact Hrest|]. cbn beta. intros x Hx. lia.
Qed.

Section InstancesReadBack.
Context `{Externals}.

Lemma buildInstanceInfo_run order w :
  buildInstanceInfo order w =
  (match po_InstanceID order with
   | None => inl sql_ErrNoRows
   | Some instanceID =>
       match catalog w (po_ProductID order) with
       | inl err => inl err
       | inr product =>
           inr {| ii_InstanceID := instanceID;
                  ii_UserID := po_UserID order;
                  ii_OrderID := po_OrderID order;
                  ii_ProductID := po_ProductID order;
                  ii_ProductName := prod_Name product;
                  ii_Spec := prod_Spec product;
                  ii_Status := instance_status (po_Status order);
                  ii_CreatedAt := po_CreatedAt order |}
       end
   end, w).
Proof.
  unfold buildInstanceInfo, catalog_lookup, mbind, M_bind, get. cbn [fst snd].
  destruct (po_InstanceID order); [|reflexivity].
  destruct (catalog w _); reflexivity.
Qed.

Lemma GetInstanceByOrderID_run orderID w :
  orderRepo_GetInstanceByOrderID orderID w =
  (match List.find (fun r => po_OrderID r =? orderID) (orders w) with
   | None => inl ErrRecordNotFound
   | Some order => (buildInstanceInfo order w).1
   end, w).
Proof.
  unfold orderRepo_GetInstanceByOrderID, mbind, M_bind.
  rewrite db_First_pkey.
  destruct (List.find _ (orders w)) as [order|]; [|reflexivity].
  cbn beta iota. rewrite buildInstanceInfo_run. cbn [fst].
  destruct (po_InstanceID order) eqn:Hi; [|reflexivity].
  rewrite buildInstanceInfo_run, Hi. reflexivity.
Qed.

(** A commit, with what it found and what it stored. *)
Lemma CreateOrder_committed p productID userID reqID w orderID instanceID w1 :
  CreateOrder (wired_OrderUsecase p) productID userID reqID w
    = ((orderID, instanceID, None), w1) ->
  exists product,
    catalog w productID = inr product
    /\ let row := order_row productID userID reqID product w in
       existsb (same_pkey row) (orders w) = false
       /\ orderID = po_OrderID row
       /\ po_InstanceID row = (if instanceID =? 0 then None else Some instanceID)
       /\ orders w1 = orders w ++ [row]
       /\ catalog w1 = catalog w.
Proof.
  intros Hrun.
  destruct (CreateOrder_success_inv _ _ _ _ _ _ _ _ Hrun)
    as (product & product_Spec & Hc & Hs & Hsp & Hrest).
  cbv zeta in Hrest. destruct Hrest as (_ & _ & Hoid & Hiid & Hord & Hcat).
  exists product. split; [exact Hc|]. cbv zeta.
  repeat split; try assumption.
  - destruct (CreateOrder_cases p productID userID reqID w)
      as [(err & Hrej)|(product' & spec' & Hc' & _ & _ & Hcases)].
    { rewrite Hrej in Hrun. discriminate. }
    rewrite Hc in Hc'. injection Hc' as <-. cbv zeta in Hcases.
    destruct Hcases as [(err & Hrej & _)|(Hpk & _)];
      [rewrite Hrej in Hrun; discriminate|exact Hpk].
  - rewrite Hiid. reflexivity.
Qed.

(** X17.  An order committed by [CreateOrder] reads back through
    [GetInstanceByOrderID] as an instance in state CREATING that carries
    the identifiers the call returned and the name and specification of
    the product.  The one exception is an instance identifier of 0: it
    was stored as NULL, and the lookup answers [sql.ErrNoRows]. *)
Theorem committed_order_reads_as_instance
    p productID userID reqID w orderID instanceID w1 :
  CreateOrder (wired_OrderUsecase p) productID userID reqID w
    = ((orderID, instanceID, None), w1) ->
  exists product createdAt,
    catalog w productID = inr product
    /\ (orderRepo_GetInstanceByOrderID orderID w1).1 =
       if instanceID =? 0 then inl sql_ErrNoRows
       else inr {| ii_InstanceID := instanceID;
                   ii_UserID := userID;
                   ii_OrderID := orderID;
                   ii_ProductID := productID;
                   ii_ProductName := prod_Name product;
                   ii_Spec := prod_Spec product;
                   ii_Status := "CREATING";
                   ii_CreatedAt := createdAt |}.
Proof.
  intros Hrun.
  destruct (CreateOrder_committed _ _ _ _ _ _ _ _ Hrun)
    as (product & Hc & Hpk & Hoid & Hiid & Hord & Hcat).
  exists product, (po_CreatedAt (order_row productID userID reqID product w)).
  split; [exact Hc|].
  rewrite GetInstanceByOrderID_run. cbn [fst]. rewrite Hord. subst orderID.
  rewrite (find_snoc_fresh
             (fun r => po_OrderID r =? po_OrderID (order_row productID userID reqID product w))
             _ _ Hpk) by apply Z.eqb_refl.
  rewrite buildInstanceInfo_run. cbn [fst]. rewrite Hiid.
  destruct (instanceID =? 0); [reflexivity|].
  rewrite Hcat. cbn [order_row po_ProductID]. rewrite Hc. reflexivity.
Qed.

(** X18.  The state of an instance follows the status of its order.  If
    [GetInstanceByOrderID] answers with an instance, then after
    [UpdateStatus] on that order it answers with the same instance in the
    state that belongs to the new status: CREATING for PAID, RUNNING for
    COMPLETED, DELETED for CANCELLED and UNKNOWN for every other
    string. *)
Theorem UpdateStatus_then_GetInstanceByOrder orderID status w info :
  (orderRepo_GetInstanceByOrderID orderID w).1 = inr info ->
  let w' := (orderRepo_UpdateStatus orderID status w).2 in
  (orderRepo_GetInstanceByOrderID orderID w').1
  = inr (with_status info (instance_status status)).
Proof.
  intros Hget w'.
  rewrite GetInstanceByOrderID_run in Hget. cbn [fst] in Hget.
  rewrite GetInstanceByOrderID_run. cbn [fst].
  assert (Hw' : orders w' =
                List.map (fun r => if po_OrderID r =? orderID
                                   then apply_updates
                                          (status_updates status (clock w (tick w))) r
                                   else r) (orders w)
                /\ catalog w' = catalog w).
  { subst w'. rewrite UpdateStatus_run, db_Updates_run.
    destruct (_ || _); split; reflexivity. }
  destruct Hw' as [Hord Hcat]. rewrite Hord.
  rewrite find_map_same_test
    by (intros x; cbn beta; destruct (po_OrderID x =? orderID) eqn:Hx;
        [exact Hx|exact Hx]).
  destruct (List.find _ (orders w)) as [order|] eqn:Hfind; [|discriminate].
  apply find_some in Hfind as [_ Hid]. cbn [fmap option_fmap option_map].
  rewrite Hid.
  rewrite buildInstanceInfo_run in Hget. rewrite buildInstanceInfo_run.
  cbn [fst] in *. cbn [apply_updates po_InstanceID po_ProductID].
  destruct (po_InstanceID order); [|discriminate].
  rewrite Hcat. destruct (catalog w _); [discriminate|].
  injection Hget as <-. unfold with_status. cbn.
  destruct (status_updates_lookup status (clock w (tick w))) as (-> & _ & _).
  reflexivity.
Qed.

End InstancesReadBack.

Lemma committed_order_reads_as_instance_witness :
  let uc := @wired_OrderUsecase sample_libs (mqPublisher sample_exchange) in
  let r := CreateOrder uc 1001 "user-a" 7 (sample_world []) in
  r.1.2 = None
  /\ exists info,
       (orderRepo_GetInstanceByOrderID r.1.1.1 r.2).1 = inr info
       /\ ii_InstanceID info = r.1.1.2
       /\ ii_Status info = "CREATING".
Proof.
  intros uc r.
  assert (Hrun : CreateOrder uc 1001 "user-a" 7 (sample_world [])
                 = ((r.1.1.1, r.1.1.2, None), r.2))
    by (vm_compute; reflexivity).
  split; [vm_compute; reflexivity|].
  destruct (@committed_order_reads_as_instance sample_libs
              (mqPublisher sample_exchange) 1001 "user-a" 7 (sample_world [])
              r.1.1.1 r.1.1.2 r.2 Hrun) as (product & createdAt & _ & Hget).
  assert (Hnz : (r.1.1.2 =? 0) = false) by (vm_compute; reflexivity).
  rewrite Hnz in Hget.
  eexists. split; [exact Hget|]. split; reflexivity.
Defined.

Lemma UpdateStatus_then_GetInstanceByOrder_witness :
  let uc := @wired_OrderUsecase sample_libs (mqPublisher sample_exchange) in
  let r := CreateOrder uc 1001 "user-a" 7 (sample_world []) in
  let w2 := (orderRepo_UpdateStatus r.1.1.1 "COMPLETED" r.2).2 in
  exists info,
    (orderRepo_GetInstanceByOrderID r.1.1.1 w2).1 = inr info
    /\ ii_Status info = "RUNNING".
Proof.
  intros uc r w2.
  destruct ((orderRepo_GetInstanceByOrderID r.1.1.1 r.2).1) as [e|info] eqn:Hget;
    [vm_compute in Hget; discriminate Hget|].
  exists (with_status info (instance_status "COMPLETED")).
  split; [|reflexivity].
  exact (UpdateStatus_then_GetInstanceByOrder r.1.1.1 "COMPLETED" r.2 info Hget).
Defined.

(** ** Decimal printing and parsing *)

Lemma byte_of_digit_char d : 0 <= d < 10 -> byte_of (digit_char d) = 48 + d.
Proof.
  intros Hd. unfold byte_of, digit_char.
  rewrite Ascii.N_ascii_embedding by lia. lia.
Qed.

Lemma ParseUint_loop_digit d rest n maxVal :
  0 <= d < 10 -> 0 <= n -> n * 10 + d <= maxVal -> maxVal <= 2 ^ 64 - 1 ->
  ParseUint_loop (String (digit_char d) rest) n maxVal
  = ParseUint_loop rest (n * 10 + d) maxVal.
Proof.
  intros Hd Hn Hmax Hbound. cbn [ParseUint_loop]. cbv zeta.
  rewrite byte_of_digit_char by exact Hd.
  assert (Hin : (48 <=? 48 + d) && (48 + d <=? 57) = true)
    by (apply andb_true_iff; split; apply Z.leb_le; lia).
  rewrite Hin.
  assert (Hcut : ((2 ^ 64 - 1) / 10 + 1 <=? n) = false).
  { apply Z.leb_gt. change ((2 ^ 64 - 1) / 10 + 1) with 1844674407370955162.
    change (2 ^ 64 - 1) with 18446744073709551615 in Hbound. lia. }
  rewrite Hcut. replace (48 + d - 48) with d by lia.
  assert (Hfit : (maxVal <? n * 10 + d) = false) by (apply Z.ltb_ge; lia).
  rewrite Hfit. reflexivity.
Qed.

Lemma ParseUint_loop_formatBits fuel : forall u tail maxVal,
  0 <= u < 10 ^ (Z.of_nat fuel + 1) -> u <= maxVal -> maxVal <= 2 ^ 64 - 1 ->
  ParseUint_loop (formatBits fuel u tail) 0 maxVal = ParseUint_loop tail u maxVal.
Proof.
  induction fuel as [|fuel IH]; intros u tail maxVal Hu Hmax Hbound.
  - cbn [formatBits]. change (10 ^ (Z.of_nat 0 + 1)) with 10 in Hu.
    rewrite Z.mod_small by lia.
    rewrite ParseUint_loop_digit by lia. f_equal.
  - cbn [formatBits]. destruct (u <? 10) eqn:Hsmall.
    + apply Z.ltb_lt in Hsmall. rewrite Z.mod_small by lia.
      rewrite ParseUint_loop_digit by lia. f_equal.
    + apply Z.ltb_ge in Hsmall.
      pose proof (Z.div_mod u 10 ltac:(lia)) as Hdm.
      pose proof (Z.mod_pos_bound u 10 ltac:(lia)) as Hm.
      rewrite IH.
      * rewrite ParseUint_loop_digit by lia. f_equal. lia.
      * split; [apply Z.div_pos; lia|].
        apply Z.div_lt_upper_bound; [lia|].
        replace (Z.of_nat (S fuel) + 1) with (Z.succ (Z.of_nat fuel + 1)) in Hu by lia.
        rewrite Z.pow_succ_r in Hu by lia. lia.
      * lia.
      * exact Hbound.
Qed.

Lemma formatBits_head fuel : forall u tail,
  0 <= u ->
  exists d rest, 0 <= d < 10 /\ formatBits fuel u tail = String (digit_char d) rest.
Proof.
  induction fuel as [|fuel IH]; intros u tail Hu.
  - exists (u mod 10), tail. split; [apply Z.mod_pos_bound; lia|reflexivity].
  - cbn [formatBits]. destruct (u <? 10).
    + exists (u mod 10), tail. split; [apply Z.mod_pos_bound; lia|reflexivity].
    + apply IH. apply Z.div_pos; lia.
Qed.

Lemma digit_char_not_sign d :
  0 <= d < 10 ->
  (byte_of (digit_char d) =? 43) = false /\ (byte_of (digit_char d) =? 45) = false.
Proof.
  intros Hd. rewrite byte_of_digit_char by exact Hd. split; apply Z.eqb_neq; lia.
Qed.

(** Go's decimal printing and parsing of an integer of [bitSize] bits
    are inverse to each other. *)
Lemma ParseInt_FormatInt i bitSize :
  0 < bitSize <= 64 ->
  - 2 ^ (bitSize - 1) <= i < 2 ^ (bitSize - 1) ->
  strconv_ParseInt (strconv_FormatInt i) bitSize = inr i.
Proof.
  intros Hbits Hi.
  assert (Hpow : 2 ^ (bitSize - 1) <= 2 ^ 63) by (apply Z.pow_le_mono_r; lia).
  assert (Hpow2 : 2 ^ bitSize = 2 * 2 ^ (bitSize - 1)).
  { replace bitSize with (Z.succ (bitSize - 1)) at 1 by lia.
    apply Z.pow_succ_r. lia. }
  change (2 ^ 63) with 9223372036854775808 in Hpow.
  assert (H19 : 10 ^ (Z.of_nat 18 + 1) = 10000000000000000000) by reflexivity.
  unfold strconv_FormatInt. destruct (i <? 0) eqn:Hneg.
  - apply Z.ltb_lt in Hneg. unfold strconv_ParseInt.
    change (byte_of (Ascii.ascii_of_N 45) =? 43) with false.
    change (byte_of (Ascii.ascii_of_N 45) =? 45) with true. cbv iota beta.
    destruct (formatBits_head 18 (- i) "" ltac:(lia)) as (d & rest & Hd & Hfmt).
    unfold strconv_ParseUint. rewrite Hfmt, <- Hfmt.
    rewrite ParseUint_loop_formatBits;
      [|rewrite H19; lia | lia | change (2 ^ 64 - 1) with 18446744073709551615;
                                 change (2 ^ 64) with 18446744073709551616 in *;
                                 assert (2 ^ bitSize <= 2 ^ 64)
                                   by (apply Z.pow_le_mono_r; lia); lia].
    cbn [ParseUint_loop negb andb].
    assert (Hfit : (2 ^ (bitSize - 1) <? - i) = false) by (apply Z.ltb_ge; lia).
    rewrite Hfit. f_equal. lia.
  - apply Z.ltb_ge in Hneg. unfold strconv_ParseInt.
    destruct (formatBits_head 18 i "" Hneg) as (d & rest & Hd & Hfmt).
    rewrite Hfmt. destruct (digit_char_not_sign d Hd) as [-> ->].
    cbv iota beta. unfold strconv_ParseUint. rewrite <- Hfmt.
    rewrite Hfmt at 1. rewrite <- Hfmt.
    rewrite ParseUint_loop_formatBits;
      [|rewrite H19; lia | lia | change (2 ^ 64 - 1) with 18446744073709551615;
                                 assert (2 ^ bitSize <= 2 ^ 64)
                                   by (apply Z.pow_le_mono_r; lia);
                                 change (2 ^ 64) with 18446744073709551616 in *; lia].
    cbn [ParseUint_loop negb andb].
    assert (Hfit : (2 ^ (bitSize - 1) <=? i) = false) by (apply Z.leb_gt; lia).
    rewrite Hfit. reflexivity.
Qed.

(** ** The seckill keys *)

Lemma redis_Exec_up cmds rdb :
  rds_down rdb = None ->
  redis_Exec cmds rdb
  = (None, {| rds_down := None; rds_keys := fold_left run_cmd cmds (rds_keys rdb) |}).
Proof. intros Hup. unfold redis_Exec. rewrite Hup. reflexivity. Qed.

Section SeckillProperties.
Variable strconv_Quote : string -> string.

Lemma InitSeckill_run productID stock rdb :
  rds_down rdb = None ->
  seckillProductRepo_InitSeckill productID stock (Some rdb)
  = (None,
     Some {| rds_down := None;
             rds_keys :=
               <[keyReqSeq := RString (strconv_FormatInt 0)]>
                 (<[keyStock := RString (strconv_FormatInt stock)]>
                    (<[keyCurrentProdID := RString (strconv_FormatInt productID)]>
                       (delete keyCurrentProdID
                          (delete keyUID2ReqHash
                             (delete keyReqSeq
                                (delete keyStock (rds_keys rdb))))))) |}).
Proof.
  intros Hup. unfold seckillProductRepo_InitSeckill. cbv zeta.
  rewrite redis_Exec_up by exact Hup. reflexivity.
Qed.

(** X19.  A sale that was initialised reads back.  On a reachable
    server, whatever the keys held before, [InitSeckill] with a positive
    stock succeeds, and [GetCurrentSeckill] then returns the product
    identifier and the stock that were given: both survive the trip
    through their decimal strings. *)
Theorem InitSeckill_then_GetCurrentSeckill productID stock rdb :
  rds_down rdb = None ->
  - 2 ^ 63 <= productID < 2 ^ 63 ->
  0 < stock < 2 ^ 31 ->
  exists rdb',
    SeckillUsecase_InitSeckill productID stock (Some rdb) = (None, Some rdb')
    /\ SeckillUsecase_GetCurrentSeckill strconv_Quote (Some rdb')
       = (productID, stock, None).
Proof.
  intros Hup Hpid Hstock. unfold SeckillUsecase_InitSeckill.
  assert (Hpos : (stock <=? 0) = false) by (apply Z.leb_gt; lia).
  rewrite Hpos, (InitSeckill_run _ _ _ Hup).
  eexists. split; [reflexivity|].
  unfold SeckillUsecase_GetCurrentSeckill, seckillProductRepo_GetCurrentProductID,
    seckillProductRepo_GetStock, redis_Get.
  cbn [rds_down rds_keys].
  rewrite lookup_insert_ne by done. rewrite lookup_insert_ne by done.
  rewrite lookup_insert_eq.
  rewrite (ParseInt_FormatInt productID 64) by (change (64 - 1) with 63; lia).
  rewrite lookup_insert_ne by done. rewrite lookup_insert_eq.
  rewrite (ParseInt_FormatInt stock 32)
    by (change (2 ^ (32 - 1)) with 2147483648;
        change (2 ^ 31) with 2147483648 in Hstock; lia).
  unfold int32_of. change (2 ^ 31) with 2147483648 in *.
  change (2 ^ 32) with 4294967296.
  rewrite Z.mod_small by lia. repeat f_equal. lia.
Qed.

(** X20.  [InitSeckill] starts a sale from scratch and keeps the
    stream.  After a successful call the request counter reads 0, the
    map from users to requests is gone, and every other key, the order
    stream with its consumer group among them, holds what it held. *)
Theorem InitSeckill_resets_sale_keeps_stream productID stock rdb rdb' :
  SeckillUsecase_InitSeckill productID stock (Some rdb) = (None, Some rdb') ->
  rds_keys rdb' !! keyReqSeq = Some (RString "0")
  /\ rds_keys rdb' !! keyUID2ReqHash = None
  /\ rds_keys rdb' !! keyStreamOrders = rds_keys rdb !! keyStreamOrders
  /\ forall k, k ∉ sale_keys -> rds_keys rdb' !! k = rds_keys rdb !! k.
Proof.
  unfold SeckillUsecase_InitSeckill. intros Hrun.
  destruct (stock <=? 0); [discriminate|].
  destruct (rds_down rdb) as [err|] eqn:Hup.
  { unfold seckillProductRepo_InitSeckill, redis_Exec in Hrun. cbv zeta in Hrun.
    rewrite Hup in Hrun. discriminate. }
  rewrite (InitSeckill_run _ _ _ Hup) in Hrun. injection Hrun as <-.
  cbn [rds_keys].
  assert (Hother : forall k, k ∉ sale_keys ->
            (<[keyReqSeq := RString (strconv_FormatInt 0)]>
               (<[keyStock := RString (strconv_FormatInt stock)]>
                  (<[keyCurrentProdID := RString (strconv_FormatInt productID)]>
                     (delete keyCurrentProdID
                        (delete keyUID2ReqHash
                           (delete keyReqSeq
                              (delete keyStock (rds_keys rdb)))))))) !! k
            = rds_keys rdb !! k).
  { intros k Hk. unfold sale_keys in Hk.
    rewrite !not_elem_of_cons in Hk. destruct Hk as (H1 & H2 & H3 & H4 & _).
    rewrite !lookup_insert_ne by congruence.
    rewrite !lookup_delete_ne by congruence. reflexivity. }
  split; [rewrite lookup_insert_eq; reflexivity|].
  split.
  { rewrite !lookup_insert_ne by done.
    rewrite lookup_delete_ne by done. apply lookup_delete_eq. }
  split; [|exact Hother].
  apply Hother. unfold sale_keys. rewrite !not_elem_of_cons.
  repeat split; try discriminate. apply not_elem_of_nil.
Qed.

(** X21.  [ClearSeckill] ends the sale and takes the stream with it.
    After a successful call there is no active seckill, a stock query on
    its own still answers 0 without an error, and the order stream, which
    [InitSeckill] is careful to keep, is deleted. *)
Theorem ClearSeckill_ends_sale rdb rdb' :
  SeckillUsecase_ClearSeckill (Some rdb) = (None, Some rdb') ->
  SeckillUsecase_GetCurrentSeckill strconv_Quote (Some rdb')
    = (0, 0, Some ErrNoActiveSeckill)
  /\ seckillProductRepo_GetStock strconv_Quote (Some rdb') = (0, None)
  /\ rds_keys rdb' !! keyStreamOrders = None
  /\ forall k, k ∉ keyStreamOrders :: sale_keys ->
               rds_keys rdb' !! k = rds_keys rdb !! k.
Proof.
  unfold SeckillUsecase_ClearSeckill, seckillProductRepo_ClearSeckill, redis_Exec.
  cbv zeta. intros Hrun.
  destruct (rds_down rdb) as [err|] eqn:Hup; [discriminate|].
  injection Hrun as <-.
  unfold SeckillUsecase_GetCurrentSeckill, seckillProductRepo_GetCurrentProductID,
    seckillProductRepo_GetStock, redis_Get.
  cbn [rds_down rds_keys fold_left run_cmd].
  rewrite lookup_delete_eq.
  rewrite !(lookup_delete_ne _ keyCurrentProdID keyStock) by done.
  assert (Hstock : delete keyStreamOrders
                     (delete keyUID2ReqHash
                        (delete keyReqSeq (delete keyStock (rds_keys rdb))))
                   !! keyStock = None).
  { rewrite !lookup_delete_ne by done. apply lookup_delete_eq. }
  rewrite Hstock.
  split; [reflexivity|]. split; [reflexivity|].
  split.
  { rewrite lookup_delete_ne by done. apply lookup_delete_eq. }
  intros k Hk. unfold sale_keys in Hk. rewrite !not_elem_of_cons in Hk.
  destruct Hk as (H0 & H1 & H2 & H3 & H4 & _).
  rewrite !lookup_delete_ne by congruence. reflexivity.
Qed.

End SeckillProperties.

Lemma InitSeckill_then_GetCurrentSeckill_witness :
  exists rdb',
    SeckillUsecase_InitSeckill 2002 500 (Some sample_redis) = (None, Some rdb')
    /\ SeckillUsecase_GetCurrentSeckill id (Some rdb') = (2002, 500, None).
Proof.
  apply (InitSeckill_then_GetCurrentSeckill id 2002 500 sample_redis).
  - reflexivity.
  - split; [vm_compute; intros Hc; discriminate Hc | reflexivity].
  - split; reflexivity.
Defined.

Lemma InitSeckill_resets_sale_keeps_stream_witness :
  exists rdb',
    SeckillUsecase_InitSeckill 2002 500 (Some sample_redis) = (None, Some rdb')
    /\ rds_keys rdb' !! keyUID2ReqHash = None
    /\ rds_keys rdb' !! keyStreamOrders = Some (RStream [entry_with_uid]).
Proof.
  eexists. split; [reflexivity|].
  destruct (InitSeckill_resets_sale_keeps_stream 2002 500 sample_redis _ eq_refl)
    as (_ & Huid & Hstream & _).
  split; [exact Huid|]. rewrite Hstream. reflexivity.
Defined.

Lemma ClearSeckill_ends_sale_witness :
  exists rdb',
    SeckillUsecase_ClearSeckill (Some sample_redis) = (None, Some rdb')
    /\ SeckillUsecase_GetCurrentSeckill id (Some rdb') = (0, 0, Some ErrNoActiveSeckill)
    /\ rds_keys rdb' !! keyStreamOrders = None.
Proof.
  eexists. split; [reflexivity|].
  destruct (ClearSeckill_ends_sale id sample_redis _ eq_refl) as (Hget & _ & Hs & _).
  split; [exact Hget | exact Hs].
Defined.

(** ** Sorting of the product list *)

Section ProductListingProperties.
Variables SortBy_SORT_BY_PRICE SortBy_SORT_BY_CPU : Z.
Variables SortBy_SORT_BY_MEMORY SortBy_SORT_BY_GPU : Z.
Variables SortOrder_ASC SortOrder_DESC : Z.

Let buildFilter' :=
  buildFilter SortBy_SORT_BY_PRICE SortBy_SORT_BY_CPU SortBy_SORT_BY_MEMORY
    SortBy_SORT_BY_GPU SortOrder_ASC SortOrder_DESC.

(** X22.  No list request can make [buildProductOrder] fail.  Whatever
    numbers a request carries in its sort field and sort order, the filter
    [buildFilter] makes of it is given an ORDER BY clause without an
    error: no clause when the field is not one of the four known ones,
    and otherwise one of the four columns, descending exactly when the
    order maps to [SortOrderDesc] and ascending in every other case.  The
    filter also never asks for page 0 or for pages of size 0. *)
Theorem list_request_sorts_without_error req :
  0 <= req_Page req -> 0 <= req_PageSize req ->
  let filter := buildFilter' req in
  exists clause,
    buildProductOrder (pf_SortBy filter) (pf_SortOrder filter) = (clause, None)
    /\ (if pf_SortBy filter =? ProductSortByUnspecified then clause = ""
        else exists column,
               column ∈ sort_columns
               /\ clause = column +:+ (if pf_SortOrder filter =? SortOrderDesc
                                       then " DESC" else " ASC"))
    /\ 1 <= pf_Page filter
    /\ 1 <= pf_PageSize filter.
Proof.
  intros Hpage Hsize filter. subst filter buildFilter'.
  unfold buildFilter, mapSortBy, mapSortOrder.
  cbn [pf_SortBy pf_SortOrder pf_Page pf_PageSize].
  assert (Hp : 1 <= (if req_Page req =? 0 then 1 else req_Page req))
    by (destruct (req_Page req =? 0) eqn:Hz; [lia|apply Z.eqb_neq in Hz; lia]).
  assert (Hs : 1 <= (if req_PageSize req =? 0 then 20 else req_PageSize req))
    by (destruct (req_PageSize req =? 0) eqn:Hz; [lia|apply Z.eqb_neq in Hz; lia]).
  destruct (req_SortBy req =? SortBy_SORT_BY_PRICE);
    [|destruct (req_SortBy req =? SortBy_SORT_BY_CPU);
      [|destruct (req_SortBy req =? SortBy_SORT_BY_MEMORY);
        [|destruct (req_SortBy req =? SortBy_SORT_BY_GPU)]]];
    (destruct (req_SortOrder req =? SortOrder_ASC);
     [|destruct (req_SortOrder req =? SortOrder_DESC)]);
    eexists; (split; [reflexivity|]); (split; [|split; assumption]);
    cbn; try reflexivity;
    eexists; (split; [|reflexivity]); unfold sort_columns; set_solver.
Qed.

End ProductListingProperties.

Lemma list_request_sorts_without_error_witness :
  let req := {| req_MinPrice := 0; req_MaxPrice := 0; req_SortBy := 77;
                req_SortOrder := 2; req_Page := 0; req_PageSize := 0 |} in
  let filter := buildFilter 1 2 3 4 1 2 req in
  exists clause,
    buildProductOrder (pf_SortBy filter) (pf_SortOrder filter) = (clause, None)
    /\ 1 <= pf_Page filter.
Proof.
  intros req filter.
  destruct (list_request_sorts_without_error 1 2 3 4 1 2 req)
    as (clause & Hrun & _ & Hpage & _); [simpl; lia | simpl; lia |].
  exists clause. split; [exact Hrun | exact Hpage].
Defined.

(** ** The xorshift generator *)

Lemma wrapU64_range z : 0 <= wrapU64 z < 2 ^ 64.
Proof. unfold wrapU64. apply Z.mod_pos_bound. reflexivity. Qed.

Lemma next64_range r : 0 <= (next64 r).1 < 2 ^ 64.
Proof. unfold next64. cbn [fst]. apply wrapU64_range. Qed.

Lemma next64_state r : (next64 r).2 = {| xs_s := xs_s (next64 r).2 |}.
Proof. reflexivity. Qed.

(** X23.  [RandNBits(bits)] stays below [2^bits]: it returns 0 for
    [bits = 0], a value of at most [bits] bits for [bits] up to 63, and
    any 64-bit value from there on.  [Rand3Bits] returns the same value
    and leaves the same generator as [RandNBits(3)]. *)
Theorem RandNBits_below bits r :
  0 <= bits < 256 ->
  0 <= (RandNBits bits r).1 < 2 ^ Z.min bits 64
  /\ Rand3Bits r = RandNBits 3 r.
Proof.
  intros Hbits. split.
  - unfold RandNBits. destruct (bits =? 0) eqn:Hz.
    { apply Z.eqb_eq in Hz. subst bits. cbn. lia. }
    apply Z.eqb_neq in Hz.
    destruct (64 <=? bits) eqn:Hbig.
    { apply Z.leb_le in Hbig. rewrite Z.min_r by lia. apply next64_range. }
    apply Z.leb_gt in Hbig. rewrite Z.min_l by lia. cbv zeta.
    destruct (next64 r) as [v r'] eqn:Hnext. cbn [fst].
    assert (Hmask : wrapU64 (wrapU64 (Z.shiftl 1 bits) - 1) = Z.ones bits).
    { unfold wrapU64. rewrite Z.shiftl_1_l, Z.ones_equiv.
      assert (Hpow : 0 < 2 ^ bits < 2 ^ 64)
        by (split; [apply Z.pow_pos_nonneg; lia|apply Z.pow_lt_mono_r; lia]).
      rewrite (Z.mod_small (2 ^ bits)) by lia.
      rewrite Z.mod_small by lia. lia. }
    rewrite Hmask, Z.land_ones by lia. apply Z.mod_pos_bound.
    apply Z.pow_pos_nonneg; lia.
  - unfold Rand3Bits, RandNBits. cbn [Z.eqb Z.leb Z.compare Pos.compare
                                       Pos.compare_cont].
    cbv zeta. destruct (next64 r) as [v r']. f_equal.
    change (wrapU64 (wrapU64 (Z.shiftl 1 3) - 1)) with (Z.ones 3).
    change 7 with (Z.ones 3). rewrite Z.land_ones by lia.
    apply Z.mod_small.
    pose proof (Z.mod_pos_bound v (2 ^ 3) ltac:(lia)) as Hm.
    change (2 ^ 3) with 8 in *. change (2 ^ 8) with 256. lia.
Qed.

(** X24.  [RandRange(min, max)] returns a value of [[min, max)] when
    the range is not empty, and returns [min] without advancing the
    generator when it is.  [RandRange(0, 8)] draws the same value as
    [Rand3Bits]. *)
Theorem RandRange_within min max r :
  0 <= min -> max < 2 ^ 64 ->
  (min < max -> min <= (RandRange min max r).1 < max)
  /\ (max <= min -> RandRange min max r = (min, r))
  /\ RandRange 0 8 r = Rand3Bits r.
Proof.
  intros Hmin Hmax. split; [|split].
  - intros Hlt. unfold RandRange.
    assert (Hne : (max <=? min) = false) by (apply Z.leb_gt; lia).
    rewrite Hne. destruct (next64 r) as [v r']. cbn [fst].
    pose proof (Z.mod_pos_bound v (max - min) ltac:(lia)) as Hm.
    unfold wrapU64. rewrite Z.mod_small by lia. lia.
  - intros Hge. unfold RandRange.
    assert (He : (max <=? min) = true) by (apply Z.leb_le; lia).
    rewrite He. reflexivity.
  - unfold RandRange, Rand3Bits. cbn [Z.leb Z.compare]. cbv iota.
    destruct (next64 r) as [v r']. f_equal.
    change (8 - 0) with (2 ^ 3). change 7 with (Z.ones 3).
    rewrite Z.land_ones by lia.
    pose proof (Z.mod_pos_bound v (2 ^ 3) ltac:(lia)) as Hm.
    change (2 ^ 3) with 8 in *. unfold wrapU64.
    change (2 ^ 8) with 256.
    rewrite (Z.mod_small (0 + v mod 8)) by lia.
    rewrite (Z.mod_small (v mod 8) 256) by lia. lia.
Qed.

Lemma lxor_below a b n :
  0 <= n -> 0 <= a < 2 ^ n -> 0 <= b < 2 ^ n -> 0 <= Z.lxor a b < 2 ^ n.
Proof.
  intros Hn Ha Hb.
  assert (Hnn : 0 <= Z.lxor a b) by (apply Z.lxor_nonneg; lia).
  split; [exact Hnn|].
  destruct (Z.eq_dec (Z.lxor a b) 0) as [->|Hx];
    [apply Z.pow_pos_nonneg; lia|].
  assert (Hpos : 0 < n).
  { destruct (Z.eq_dec n 0) as [->|]; [|lia]. exfalso. apply Hx.
    change (2 ^ 0) with 1 in Ha, Hb.
    replace a with 0 by lia. replace b with 0 by lia. reflexivity. }
  assert (Hlog2 : forall c, 0 <= c < 2 ^ n -> Z.log2 c < n).
  { intros c Hc. destruct (Z.eq_dec c 0) as [->|]; [exact Hpos|].
    apply Z.log2_lt_pow2; lia. }
  apply Z.log2_lt_pow2; [lia|].
  pose proof (Z.log2_lxor a b ltac:(lia) ltac:(lia)) as Hlog.
  pose proof (Hlog2 a Ha). pose proof (Hlog2 b Hb). lia.
Qed.

Lemma xor_shiftr_nonzero x k :
  0 < k -> 0 < x -> Z.lxor x (Z.shiftr x k) <> 0.
Proof.
  intros Hk Hx Hzero. apply Z.lxor_eq in Hzero.
  rewrite Z.shiftr_div_pow2 in Hzero by lia.
  assert (Hlt : x / 2 ^ k < x).
  { apply Z.div_lt; [exact Hx|].
    assert (2 ^ 1 <= 2 ^ k) by (apply Z.pow_le_mono_r; lia). lia. }
  lia.
Qed.

Lemma xor_shiftl_nonzero x :
  0 < x < 2 ^ 64 -> Z.lxor x (wrapU64 (Z.shiftl x 25)) <> 0.
Proof.
  intros Hx Hzero. apply Z.lxor_eq in Hzero. unfold wrapU64 in Hzero.
  rewrite Z.shiftl_mul_pow2 in Hzero by lia.
  pose proof (Z.div_mod (x * 2 ^ 25) (2 ^ 64) ltac:(lia)) as Hdm.
  rewrite <- Hzero in Hdm.
  assert (Hdiv : (2 ^ 64 | (2 ^ 25 - 1) * x)).
  { exists (x * 2 ^ 25 / 2 ^ 64). lia. }
  apply Z.gauss in Hdiv; [|reflexivity].
  destruct Hdiv as [q Hq]. assert (q <= 0 \/ 1 <= q) as [Hq0|Hq1] by lia; nia.
Qed.

Lemma next64_keeps_state r :
  0 < xs_s r < 2 ^ 64 -> 0 < xs_s (next64 r).2 < 2 ^ 64.
Proof.
  intros Hs. unfold next64. cbn [snd xs_s].
  set (x1 := Z.lxor (xs_s r) (Z.shiftr (xs_s r) 12)).
  assert (H1 : 0 < x1 < 2 ^ 64).
  { pose proof (xor_shiftr_nonzero (xs_s r) 12 ltac:(lia) ltac:(lia)) as Hnz.
    pose proof (lxor_below (xs_s r) (Z.shiftr (xs_s r) 12) 64 ltac:(lia) ltac:(lia))
      as Hr.
    fold x1 in Hnz, Hr. 
    assert (Hsh : 0 <= Z.shiftr (xs_s r) 12 < 2 ^ 64).
    { rewrite Z.shiftr_div_pow2 by lia. split; [apply Z.div_pos; lia|].
      apply Z.div_lt_upper_bound; lia. }
    specialize (Hr Hsh). lia. }
  set (x2 := Z.lxor x1 (wrapU64 (Z.shiftl x1 25))).
  assert (H2 : 0 < x2 < 2 ^ 64).
  { pose proof (xor_shiftl_nonzero x1 H1) as Hnz.
    pose proof (lxor_below x1 (wrapU64 (Z.shiftl x1 25)) 64 ltac:(lia) ltac:(lia)
                  (wrapU64_range _)) as Hr.
    fold x2 in Hnz, Hr. lia. }
  pose proof (xor_shiftr_nonzero x2 27 ltac:(lia) ltac:(lia)) as Hnz.
  assert (Hsh : 0 <= Z.shiftr x2 27 < 2 ^ 64).
  { rewrite Z.shiftr_div_pow2 by lia. split; [apply Z.div_pos; lia|].
    apply Z.div_lt_upper_bound; lia. }
  pose proof (lxor_below x2 (Z.shiftr x2 27) 64 ltac:(lia) ltac:(lia) Hsh) as Hr.
  lia.
Qed.

(** X25.  The generator never reaches the all-zero state, from which
    xorshift would only ever return 0.  Whatever the seed, 0 included,
    the state after any number of draws is a non-zero 64-bit value. *)
Theorem state_never_zero seed n :
  0 <= seed < 2 ^ 64 ->
  0 < xs_s (after_draws n (NewXorShift64Star seed)) < 2 ^ 64.
Proof.
  intros Hseed. induction n as [|n IH].
  - cbn [after_draws NewXorShift64Star xs_s].
    destruct (seed =? 0) eqn:Hz; [split; reflexivity|].
    apply Z.eqb_neq in Hz. lia.
  - cbn [after_draws]. apply next64_keeps_state, IH.
Qed.

Lemma RandNBits_below_witness :
  0 <= (RandNBits 3 (NewXorShift64Star 12345)).1 < 8.
Proof.
  exact (proj1 (RandNBits_below 3 (NewXorShift64Star 12345) ltac:(lia))).
Defined.

Lemma RandRange_within_witness :
  10 <= (RandRange 10 20 (NewXorShift64Star 12345)).1 < 20.
Proof.
  apply (RandRange_within 10 20 (NewXorShift64Star 12345)); [lia|reflexivity|lia].
Defined.

Lemma state_never_zero_witness :
  0 < xs_s (after_draws 3 (NewXorShift64Star 0)) < 2 ^ 64.
Proof.
  apply (state_never_zero 0 3). split; [lia|reflexivity].
Defined.

(** ** Field masks *)

Lemma applySpecMask_idempotent spec paths :
  applySpecMask (applySpecMask spec paths) paths = applySpecMask spec paths.
Proof.
  destruct spec as [spec|]; [|reflexivity]. unfold applySpecMask.
  destruct (path_set paths "spec") eqn:Hall; cbv iota beta; rewrite ?Hall;
    [reflexivity|].
  cbn [v1s_Cpu v1s_Memory v1s_Gpu v1s_Image v1s_ConfigJson].
  destruct (path_set paths "spec.cpu"), (path_set paths "spec.memory"),
    (path_set paths "spec.gpu"), (path_set paths "spec.image"),
    (path_set paths "spec.config_json"); reflexivity.
Qed.

Section FieldMaskProperties.
Variable strings_TrimSpace : string -> string.

Lemma normalizeMaskPaths_blank mask_Paths :
  Forall (fun path => strings_TrimSpace path = "") mask_Paths ->
  forall acc : gmap string bool,
    fold_left (fun result path =>
                 let trimmed := strings_TrimSpace path in
                 if String.eqb trimmed "" then result
                 else <[trimmed := true]> result)
              mask_Paths acc = acc.
Proof.
  intros Hall.
  induction Hall as [|path rest Hp _ IH]; intros acc; [reflexivity|].
  cbn [fold_left]. cbv zeta. rewrite Hp. cbn. apply IH.
Qed.

(** X26.  Applying a field mask twice is the same as applying it once,
    for every product and every mask, whatever its paths. *)
Theorem applyProductMask_idempotent product mask :
  applyProductMask strings_TrimSpace
    (applyProductMask strings_TrimSpace product mask) mask
  = applyProductMask strings_TrimSpace product mask.
Proof.
  destruct product as [product|]; [|reflexivity].
  destruct mask as [[|path rest]|]; try reflexivity.
  unfold applyProductMask. cbv zeta.
  set (paths := normalizeMaskPaths strings_TrimSpace (path :: rest)).
  cbn [v1p_Id v1p_Name v1p_Description v1p_Status v1p_Price v1p_Spec].
  f_equal. f_equal.
  - destruct (path_set paths "id"); reflexivity.
  - destruct (path_set paths "name"); reflexivity.
  - destruct (path_set paths "description"); reflexivity.
  - destruct (path_set paths "status"); reflexivity.
  - destruct (path_set paths "price"); reflexivity.
  - destruct (path_set paths "spec" || hasSpecField paths); [|reflexivity].
    apply applySpecMask_idempotent.
Qed.

(** X27.  A mask without a usable path hides everything.  A nil mask or
    one with no paths returns the product as it is; a mask whose paths
    are all blank is not treated as empty and returns a product with
    every field at its zero value and no specification. *)
Theorem blank_mask_hides_product product mask_Paths :
  mask_Paths <> [] ->
  Forall (fun path => strings_TrimSpace path = "") mask_Paths ->
  applyProductMask strings_TrimSpace (Some product) (Some mask_Paths)
    = Some empty_product
  /\ applyProductMask strings_TrimSpace (Some product) (Some []) = Some product
  /\ applyProductMask strings_TrimSpace (Some product) None = Some product.
Proof.
  intros Hne Hblank. split; [|split; reflexivity].
  destruct mask_Paths as [|path rest]; [contradiction|].
  unfold applyProductMask, normalizeMaskPaths. cbv zeta.
  rewrite (normalizeMaskPaths_blank _ Hblank). reflexivity.
Qed.

End FieldMaskProperties.

Lemma blank_mask_hides_product_witness :
  applyProductMask trim_front (Some sample_v1_product) (Some [" "; ""])
  = Some empty_product.
Proof.
  apply (blank_mask_hides_product trim_front sample_v1_product [" "; ""]).
  - intros Hc. discriminate Hc.
  - repeat constructor.
Defined.

(** ** Lookups by instance and by order *)

Lemma first_by_pkey_In rest : forall r, In (first_by_pkey r rest) (r :: rest).
Proof.
  unfold first_by_pkey. induction rest as [|x rest IH]; intros r; [left; reflexivity|].
  cbn [fold_left]. destruct (po_OrderID x <? po_OrderID r).
  - right. apply IH.
  - destruct (IH r) as [Hr|Hin]; [left; exact Hr|right; right; exact Hin].
Qed.

Lemma db_First_found cond w r :
  (db_First cond w).1 = inr r -> In r (orders w) /\ cond r = true.
Proof.
  unfold db_First, mbind, M_bind, get. cbn [fst snd].
  destruct (List.filter cond (orders w)) as [|r0 rest] eqn:Hf; [discriminate|].
  cbn [fst]. intros Hr. injection Hr as <-.
  apply List.filter_In. rewrite Hf. apply first_by_pkey_In.
Qed.

Lemma find_by_unique_pkey rows r :
  NoDup (po_OrderID <$> rows) -> In r rows ->
  List.find (fun x => po_OrderID x =? po_OrderID r) rows = Some r.
Proof.
  induction rows as [|x rows IH]; intros Hnd Hin; [destruct Hin|].
  rewrite fmap_cons in Hnd. apply NoDup_cons in Hnd as [Hx Hnd].
  cbn [List.find]. destruct Hin as [->|Hin]; [rewrite Z.eqb_refl; reflexivity|].
  destruct (Z.eqb_spec (po_OrderID x) (po_OrderID r)) as [Heq|_]; [|apply IH; assumption].
  exfalso. apply Hx. rewrite Heq. apply list_elem_of_fmap.
  exists r. split; [reflexivity|]. apply list_elem_of_In. exact Hin.
Qed.

Section InstanceLookups.
Context `{Externals}.

(** X28.  The two instance lookups agree.  On a table that satisfies
    its constraints, an instance found by its identifier carries that
    identifier, and looking it up again by the order it names returns the
    same record. *)
Theorem instance_lookups_agree instanceID w info :
  table_ok (orders w) ->
  (orderRepo_GetInstanceByID instanceID w).1 = inr info ->
  ii_InstanceID info = instanceID
  /\ (orderRepo_GetInstanceByOrderID (ii_OrderID info) w).1 = inr info.
Proof.
  intros [Hids _] Hget.
  unfold orderRepo_GetInstanceByID, mbind, M_bind in Hget.
  destruct (db_First _ w) as [[err|order] w1] eqn:Hfirst; [discriminate|].
  assert (Hw1 : w1 = w).
  { unfold db_First, mbind, M_bind, get in Hfirst. cbn [fst snd] in Hfirst.
    destruct (List.filter _ (orders w)); injection Hfirst as _ <-; reflexivity. }
  subst w1.
  destruct (db_First_found _ w order ltac:(rewrite Hfirst; reflexivity))
    as [Hin Hcond].
  rewrite buildInstanceInfo_run in Hget. cbn [fst] in Hget.
  destruct (po_InstanceID order) as [iid|] eqn:Hiid; [|discriminate].
  apply Z.eqb_eq in Hcond. subst iid.
  destruct (catalog w (po_ProductID order)) as [err|product] eqn:Hcat;
    [discriminate|].
  injection Hget as <-. cbn [ii_InstanceID ii_OrderID].
  split; [reflexivity|].
  rewrite GetInstanceByOrderID_run. cbn [fst].
  rewrite (find_by_unique_pkey _ _ Hids Hin).
  rewrite buildInstanceInfo_run. cbn [fst]. rewrite Hiid, Hcat. reflexivity.
Qed.

End InstanceLookups.

Lemma instance_lookups_agree_witness :
  let uc := @wired_OrderUsecase sample_libs (mqPublisher sample_exchange) in
  let r := CreateOrder uc 1001 "user-a" 7 (sample_world []) in
  exists info,
    (orderRepo_GetInstanceByID r.1.1.2 r.2).1 = inr info
    /\ (orderRepo_GetInstanceByOrderID (ii_OrderID info) r.2).1 = inr info.
Proof.
  intros uc r.
  assert (Hok : table_ok (orders r.2)).
  { split; vm_compute; repeat constructor; set_solver. }
  destruct ((orderRepo_GetInstanceByID r.1.1.2 r.2).1) as [e|info] eqn:Hget;
    [vm_compute in Hget; discriminate Hget|].
  exists info. split; [reflexivity|].
  exact (proj2 (instance_lookups_agree r.1.1.2 r.2 info Hok Hget)).
Defined.
